(** * HouseTuya: the Tuya wire codec and the device engine

    A shallow embedding of [housetuya_crypto.c], [housetuya_messages.c] and
    [housetuya_device.c], with the properties of the codec and of the device
    lifecycle engine stated over it.

    Conventions.
    - A C [char] buffer is a [list byte]; a [char *] that may be null is an
      [option (list byte)]; a C string stored in a list is read up to its
      first NUL ([cstr]).
    - C [int] and [time_t] values are [Z]; the 32-bit words of the envelope
      are written out big-endian with their wrap-around ([be32], [rd32],
      [to_int32]). Times and deadlines are far from the ends of [time_t]
      and are added without wrap-around.
    - What [time(0)] returns is an argument, [now], of the function that
      calls it.
    - A memory access outside the object it is made on (a read past the end
      of the received buffer, a row of the device table beyond
      [DevicesCount], a null source string) is the outcome [Fault]. The
      buffers that are written to ([buffer], [encrypted], [clear]) are
      returned as the bytes written, and are taken to have room for them.
    - OpenSSL's AES-128 is written out from FIPS-197. [housetuya_crc.c] is
      not among the sources: the CRC is the one the specification
      describes. *)

From Stdlib Require Import ZArith NArith List Bool Lia Btauto.
From Stdlib Require Import Strings.Byte Strings.String DecimalString.
From stdpp Require Import base list.
Import ListNotations.

Local Open Scope Z_scope.

(** ** Outcomes of code that can step outside its memory *)

Inductive fault : Type :=
| OutOfBounds      (* read or write outside the buffer it is made on *)
| NullPointer      (* a null [char *] handed to a string routine *)
| RowBeyondTable.  (* [Devices[i]] with [i] outside [0 .. DevicesCount-1] *)

Inductive res (A : Type) : Type :=
| Ok (a : A)
| Fault (why : fault).
Arguments Ok {A} a.
Arguments Fault {A} why.

Definition res_bind {A B} (r : res A) (k : A -> res B) : res B :=
  match r with
  | Ok a => k a
  | Fault f => Fault f
  end.

Notation "'do' x <- r ; k" := (res_bind r (fun x => k))
  (at level 10, x name, r at level 100, k at level 200).
Notation "'do' ' p <- r ; k" := (res_bind r (fun x => let 'p := x in k))
  (at level 10, p pattern, r at level 100, k at level 200).

(** ** Bytes, C strings and 32-bit words *)

Module Bytes.

Definition byte_of_Z (z : Z) : byte :=
  match Byte.of_N (Z.to_N (z mod 256)) with
  | Some b => b
  | None => x00
  end.

Definition Z_of_byte (b : byte) : Z := Z.of_N (Byte.to_N b).

Definition all_bytes : list byte :=
  Eval vm_compute in List.map (fun n => byte_of_Z (Z.of_nat n)) (List.seq 0 256).

(** The characters of a string literal. *)
Definition chars (s : string) : list byte := list_byte_of_string s.

(** The C string held in a buffer: its bytes up to the first NUL. *)
Fixpoint cstr (l : list byte) : list byte :=
  match l with
  | [] => []
  | b :: l' => if Byte.eqb b x00 then [] else b :: cstr l'
  end.

(** [htonl] then a store: the four bytes of a 32-bit word, most
    significant first. A negative [int] is stored in two's complement. *)
Definition be32 (z : Z) : list byte :=
  [ byte_of_Z (Z.shiftr z 24); byte_of_Z (Z.shiftr z 16);
    byte_of_Z (Z.shiftr z 8); byte_of_Z z ].

(** A load then [ntohl]: the unsigned value of four bytes. *)
Definition word_of_bytes (b3 b2 b1 b0 : byte) : Z :=
  Z_of_byte b3 * 2 ^ 24 + Z_of_byte b2 * 2 ^ 16 + Z_of_byte b1 * 2 ^ 8
  + Z_of_byte b0.

(** An unsigned 32-bit value converted to [int]. *)
Definition to_int32 (u : Z) : Z :=
  let m := u mod 2 ^ 32 in
  if m <? 2 ^ 31 then m else m - 2 ^ 32.

(** [((const int * )(buffer + off))[0]] through [ntohl]: a fault when any
    of the four bytes lies outside the buffer. *)
Definition rd32 (buffer : list byte) (off : Z) : res Z :=
  if (0 <=? off) && (off + 4 <=? Z.of_nat (length buffer)) then
    match drop (Z.to_nat off) buffer with
    | b3 :: b2 :: b1 :: b0 :: _ => Ok (word_of_bytes b3 b2 b1 b0)
    | _ => Fault OutOfBounds
    end
  else Fault OutOfBounds.

End Bytes.

(** ** AES-128 (FIPS-197)

    [housetuya_crypto.c] hands the block cipher to OpenSSL
    ([EVP_aes_128_ecb]). The cipher is written out here from FIPS-197 on a
    state of four columns, and checked against the standard's example
    vectors below. *)

Module AES.

Definition bits : Type :=
  (bool * (bool * (bool * (bool * (bool * (bool * (bool * bool)))))))%type.

Definition xor_bits (a b : bits) : bits :=
  let '(a0, (a1, (a2, (a3, (a4, (a5, (a6, a7))))))) := a in
  let '(b0, (b1, (b2, (b3, (b4, (b5, (b6, b7))))))) := b in
  (xorb a0 b0, (xorb a1 b1, (xorb a2 b2, (xorb a3 b3,
   (xorb a4 b4, (xorb a5 b5, (xorb a6 b6, xorb a7 b7))))))).

(** Multiplication by [x] modulo [x^8 + x^4 + x^3 + x + 1]; the first
    component is the least significant bit. *)
Definition xtime_bits (a : bits) : bits :=
  let '(a0, (a1, (a2, (a3, (a4, (a5, (a6, a7))))))) := a in
  (a7, (xorb a0 a7, (a1, (xorb a2 a7, (xorb a3 a7, (a4, (a5, a6))))))).

Definition bxor (a b : byte) : byte :=
  Byte.of_bits (xor_bits (Byte.to_bits a) (Byte.to_bits b)).

Definition xtime (a : byte) : byte :=
  Byte.of_bits (xtime_bits (Byte.to_bits a)).

Infix "(+)" := bxor (at level 50, left associativity).

Definition mul2 (a : byte) : byte := xtime a.
Definition mul3 (a : byte) : byte := xtime a (+) a.
Definition mul9 (a : byte) : byte := xtime (xtime (xtime a)) (+) a.
Definition mul11 (a : byte) : byte :=
  xtime (xtime (xtime a)) (+) xtime a (+) a.
Definition mul13 (a : byte) : byte :=
  xtime (xtime (xtime a)) (+) xtime (xtime a) (+) a.
Definition mul14 (a : byte) : byte :=
  xtime (xtime (xtime a)) (+) xtime (xtime a) (+) xtime a.

(** Product in GF(2^8), by shift and add over the bits of [b]. *)
Definition gmul (a b : byte) : byte :=
  let '(b0, (b1, (b2, (b3, (b4, (b5, (b6, b7))))))) := Byte.to_bits b in
  let t (c : bool) (p : byte) := if c then p else x00 in
  let a1 := xtime a in let a2 := xtime a1 in let a3 := xtime a2 in
  let a4 := xtime a3 in let a5 := xtime a4 in let a6 := xtime a5 in
  let a7 := xtime a6 in
  t b0 a (+) t b1 a1 (+) t b2 a2 (+) t b3 a3 (+)
  t b4 a4 (+) t b5 a5 (+) t b6 a6 (+) t b7 a7.

(** The multiplicative inverse, as the 254th power (0 maps to 0). *)
Definition ginv (a : byte) : byte :=
  let a2 := gmul a a in let a4 := gmul a2 a2 in let a8 := gmul a4 a4 in
  let a16 := gmul a8 a8 in let a32 := gmul a16 a16 in
  let a64 := gmul a32 a32 in let a128 := gmul a64 a64 in
  gmul a128 (gmul a64 (gmul a32 (gmul a16 (gmul a8 (gmul a4 a2))))).

(** The affine map of SubBytes: bit i is
    [b_i + b_(i+4) + b_(i+5) + b_(i+6) + b_(i+7) + c_i] with [c = 0x63]. *)
Definition affine (a : byte) : byte :=
  let '(b0, (b1, (b2, (b3, (b4, (b5, (b6, b7))))))) := Byte.to_bits a in
  let x5 (p q r s t : bool) := xorb p (xorb q (xorb r (xorb s t))) in
  Byte.of_bits
    (negb (x5 b0 b4 b5 b6 b7), (negb (x5 b1 b5 b6 b7 b0),
     (x5 b2 b6 b7 b0 b1, (x5 b3 b7 b0 b1 b2,
      (x5 b4 b0 b1 b2 b3, (negb (x5 b5 b1 b2 b3 b4),
       (negb (x5 b6 b2 b3 b4 b5), x5 b7 b3 b4 b5 b6))))))).

Definition sbox_table : list byte :=
  Eval vm_compute in List.map (fun b => affine (ginv b)) Bytes.all_bytes.

Definition sbox (b : byte) : byte := nth (Byte.to_nat b) sbox_table x00.

Definition inv_sbox_table : list byte :=
  Eval vm_compute in
    List.map (fun y =>
           match List.find (fun x => Byte.eqb (sbox x) y) Bytes.all_bytes with
           | Some x => x
           | None => x00
           end) Bytes.all_bytes.

Definition inv_sbox (b : byte) : byte := nth (Byte.to_nat b) inv_sbox_table x00.

Definition word : Type := (byte * byte * byte * byte)%type.
(** The state, as its four columns. *)
Definition block : Type := (word * word * word * word)%type.

Definition map_word (f : byte -> byte) (w : word) : word :=
  let '(a, b, c, d) := w in (f a, f b, f c, f d).

Definition xor_word (v w : word) : word :=
  let '(a, b, c, d) := v in
  let '(a', b', c', d') := w in
  (a (+) a', b (+) b', c (+) c', d (+) d').

Definition map_block (f : word -> word) (s : block) : block :=
  let '(c0, c1, c2, c3) := s in (f c0, f c1, f c2, f c3).

Definition sub_bytes (s : block) : block := map_block (map_word sbox) s.
Definition inv_sub_bytes (s : block) : block :=
  map_block (map_word inv_sbox) s.

(** Row [r] of the state rotates left by [r] columns. *)
Definition shift_rows (s : block) : block :=
  let '((a0, a1, a2, a3), (b0, b1, b2, b3),
        (c0, c1, c2, c3), (d0, d1, d2, d3)) := s in
  ((a0, b1, c2, d3), (b0, c1, d2, a3), (c0, d1, a2, b3), (d0, a1, b2, c3)).

Definition inv_shift_rows (s : block) : block :=
  let '((a0, a1, a2, a3), (b0, b1, b2, b3),
        (c0, c1, c2, c3), (d0, d1, d2, d3)) := s in
  ((a0, d1, c2, b3), (b0, a1, d2, c3), (c0, b1, a2, d3), (d0, c1, b2, a3)).

Definition mix_column (w : word) : word :=
  let '(a0, a1, a2, a3) := w in
  (mul2 a0 (+) mul3 a1 (+) a2 (+) a3,
   a0 (+) mul2 a1 (+) mul3 a2 (+) a3,
   a0 (+) a1 (+) mul2 a2 (+) mul3 a3,
   mul3 a0 (+) a1 (+) a2 (+) mul2 a3).

Definition inv_mix_column (w : word) : word :=
  let '(a0, a1, a2, a3) := w in
  (mul14 a0 (+) mul11 a1 (+) mul13 a2 (+) mul9 a3,
   mul9 a0 (+) mul14 a1 (+) mul11 a2 (+) mul13 a3,
   mul13 a0 (+) mul9 a1 (+) mul14 a2 (+) mul11 a3,
   mul11 a0 (+) mul13 a1 (+) mul9 a2 (+) mul14 a3).

Definition mix_columns (s : block) : block := map_block mix_column s.
Definition inv_mix_columns (s : block) : block := map_block inv_mix_column s.

Definition add_round_key (s rk : block) : block :=
  let '(c0, c1, c2, c3) := s in
  let '(k0, k1, k2, k3) := rk in
  (xor_word c0 k0, xor_word c1 k1, xor_word c2 k2, xor_word c3 k3).

(** One step of the key schedule: the next four words from the previous
    four and the round constant. *)
Definition next_round_key (rcon : byte) (rk : block) : block :=
  let '(w0, w1, w2, w3) := rk in
  let '(a, b, c, d) := w3 in
  let t := xor_word (map_word sbox (b, c, d, a)) (rcon, x00, x00, x00) in
  let w4 := xor_word w0 t in
  let w5 := xor_word w1 w4 in
  let w6 := xor_word w2 w5 in
  let w7 := xor_word w3 w6 in
  (w4, w5, w6, w7).

Definition rcons : list byte :=
  [x01; x02; x04; x08; x10; x20; x40; x80; x1b; x36].

(** Round keys 1 to 10, from round key 0 (the cipher key). *)
Fixpoint expand (rcs : list byte) (rk : block) : list block :=
  match rcs with
  | [] => []
  | rc :: rcs' => let rk' := next_round_key rc rk in rk' :: expand rcs' rk'
  end.

Definition round (rk s : block) : block :=
  add_round_key (mix_columns (shift_rows (sub_bytes s))) rk.
Definition final_round (rk s : block) : block :=
  add_round_key (shift_rows (sub_bytes s)) rk.

Definition inv_round (rk s : block) : block :=
  inv_sub_bytes (inv_shift_rows (inv_mix_columns (add_round_key s rk))).
Definition inv_final_round (rk s : block) : block :=
  inv_sub_bytes (inv_shift_rows (add_round_key s rk)).

(** The rounds over a list of round keys, the last one without
    MixColumns. *)
Fixpoint rounds (rks : list block) (s : block) : block :=
  match rks with
  | [] => s
  | [rk] => final_round rk s
  | rk :: rks' => rounds rks' (round rk s)
  end.

Fixpoint inv_rounds (rks : list block) (s : block) : block :=
  match rks with
  | [] => s
  | [rk] => inv_final_round rk s
  | rk :: rks' => inv_round rk (inv_rounds rks' s)
  end.

Definition cipher (key s : block) : block :=
  rounds (expand rcons key) (add_round_key s key).

Definition inv_cipher (key s : block) : block :=
  add_round_key (inv_rounds (expand rcons key) s) key.

End AES.

(** ** Blocks and byte strings *)

Module Blocks.
Import AES.

Definition block_of_bytes
    (b0 b1 b2 b3 b4 b5 b6 b7 b8 b9 b10 b11 b12 b13 b14 b15 : byte) : block :=
  ((b0, b1, b2, b3), (b4, b5, b6, b7), (b8, b9, b10, b11), (b12, b13, b14, b15)).

Definition bytes_of_block (s : block) : list byte :=
  let '((b0, b1, b2, b3), (b4, b5, b6, b7),
        (b8, b9, b10, b11), (b12, b13, b14, b15)) := s in
  [b0; b1; b2; b3; b4; b5; b6; b7; b8; b9; b10; b11; b12; b13; b14; b15].

(** The whole 16-byte blocks of a byte string, in order; a shorter tail is
    left out. *)
Fixpoint blocks (l : list byte) : list block :=
  match l with
  | b0 :: b1 :: b2 :: b3 :: b4 :: b5 :: b6 :: b7 :: b8 :: b9 :: b10 :: b11
       :: b12 :: b13 :: b14 :: b15 :: rest =>
      block_of_bytes b0 b1 b2 b3 b4 b5 b6 b7 b8 b9 b10 b11 b12 b13 b14 b15
        :: blocks rest
  | _ => []
  end.

Definition unblocks (bs : list block) : list byte :=
  List.concat (List.map bytes_of_block bs).

(** The 16 bytes a key pointer designates; a key string shorter than that
    is taken as followed by NUL bytes. *)
Definition key_block (key : list byte) : block :=
  match blocks (key ++ repeat x00 16) with
  | k :: _ => k
  | [] => block_of_bytes x00 x00 x00 x00 x00 x00 x00 x00
                         x00 x00 x00 x00 x00 x00 x00 x00
  end.

End Blocks.


(** ** The envelope CRC *)

Module Crc.
Import Bytes.

(** One table entry: eight steps of the reflected CRC-32 division by the
    polynomial [0xEDB88320]. *)
Fixpoint crc_shift (n : nat) (c : Z) : Z :=
  match n with
  | O => c
  | S n' =>
      crc_shift n'
        (if Z.testbit c 0 then Z.lxor 0xEDB88320 (Z.shiftr c 1)
         else Z.shiftr c 1)
  end.

Definition crc_table : list Z :=
  Eval vm_compute in List.map (fun n => crc_shift 8 (Z.of_nat n)) (List.seq 0 256).

Definition crc_update (crc : Z) (b : byte) : Z :=
  Z.lxor (nth (Z.to_nat (Z.land (Z.lxor crc (Z_of_byte b)) 0xff)) crc_table 0)
         (Z.shiftr crc 8).

(** Modelled from the spec: [housetuya_crc] ([housetuya_crc.c], included
    through [housetuya_crc.h], is not among the sources). The spec has it
    as the standard table-driven CRC-32: polynomial [0xEDB88320], initial
    value [0xFFFFFFFF], final xor with [0xFFFFFFFF]. *)
Definition housetuya_crc (data : list byte) : Z :=
  Z.lxor (fold_left crc_update data 0xFFFFFFFF) 0xFFFFFFFF.

End Crc.

(** ** [housetuya_crypto.c] *)

Module Crypto.
Import Bytes AES Blocks.

(** What [EVP_EncryptFinal_ex] appends: [n] bytes of value [n], with
    [n = 16 - length mod 16], a whole block when the length is a multiple
    of 16. *)
Definition pkcs7_pad (clear : list byte) : list byte :=
  let n := (16 - length clear mod 16)%nat in
  clear ++ repeat (byte_of_Z (Z.of_nat n)) n.

(** What [EVP_DecryptFinal_ex] accepts and removes: the last byte [n] is
    between 1 and 16 and the last [n] bytes all are [n]. [None] is its
    failure. *)
Definition pkcs7_unpad (padded : list byte) : option (list byte) :=
  let n := List.last padded x00 in
  let k := Z.to_nat (Z_of_byte n) in
  if (Z_of_byte n =? 0) || (16 <? Z_of_byte n) then None
  else if forallb (Byte.eqb n) (drop (length padded - k) padded)
  then Some (take (length padded - k) padded)
  else None.

Definition ecb_encrypt (key : block) (clear : list byte) : list byte :=
  unblocks (List.map (cipher key) (blocks clear)).

Definition ecb_decrypt (key : block) (encrypted : list byte) : list byte :=
  unblocks (List.map (inv_cipher key) (blocks encrypted)).

(** The 16 key bytes read through a key pointer that is not null. The
    key is a string: when it has 15 characters, its terminating NUL is the
    16th byte; when it has fewer, the read runs past it. *)
Definition read_key (key : list byte) : res block :=
  if (length key + 1 <? 16)%nat then Fault OutOfBounds
  else Ok (key_block key).

(** [housetuya_encrypt (key, encrypted, clear, length)]: the bytes written
    to [encrypted]; the returned [int] is their number. The source hands
    [key] to OpenSSL without looking at it: with a null key
    [EVP_EncryptInit_ex] sets no key and [EVP_EncryptUpdate] then fails,
    as it does for a negative length, and 0 is returned, no byte
    written. *)
Definition housetuya_encrypt (key : option (list byte))
    (clear : list byte) (length : Z) : res (list byte) :=
  match key with
  | None => Ok []
  | Some key =>
      do k <- read_key key;
      if length <? 0 then Ok []
      else if Z.of_nat (List.length clear) <? length then Fault OutOfBounds
      else Ok (ecb_encrypt k (pkcs7_pad (take (Z.to_nat length) clear)))
  end.

(** The write [clear[at] = 0] on the bytes decrypted so far. *)
Definition terminate (clear : list byte) (at_ : nat) : list byte :=
  take at_ clear ++ [x00] ++ drop (S at_) clear.

(** What [EVP_DecryptUpdate] has written to [clear] when it returns:
    every whole block of the input decrypted, but the last one when the
    input ends with it, which is held back for [EVP_DecryptFinal_ex]. *)
Definition update_written (k : block) (encrypted : list byte) : list byte :=
  ecb_decrypt k (take (16 * ((List.length encrypted - 1) / 16)) encrypted).

(** [housetuya_decrypt (key, encrypted, clear, length)]: the returned
    [int] with the bytes written to [clear]. With a null key, or a
    negative [length], [EVP_DecryptUpdate] fails and 0 is returned,
    nothing written. [EVP_DecryptFinal_ex] fails, and 0 is returned,
    when [length] is not a positive multiple of 16 or the padding is
    malformed: [clear] then holds what [EVP_DecryptUpdate] wrote. After
    OpenSSL has removed the padding, the source looks at the last clear
    byte once more and, when it is between 1 and 15, shortens the result
    by that much. The read of [clear[-1]], for an empty clear text, and
    the write of [clear[clear_length]] with a negative [clear_length],
    for a text shorter than its last byte says, are accesses before the
    buffer: a fault, where a run of the C that survives the write returns
    the negative length. *)
Definition housetuya_decrypt (key : option (list byte))
    (encrypted : list byte) (length : Z) : res (Z * list byte) :=
  match key with
  | None => Ok (0, [])
  | Some key =>
      do k <- read_key key;
      if length <? 0 then Ok (0, [])
      else if Z.of_nat (List.length encrypted) <? length
      then Fault OutOfBounds
      else
        let encrypted := take (Z.to_nat length) encrypted in
        if (length =? 0) || negb (length mod 16 =? 0)
        then Ok (0, update_written k encrypted)
        else
          match pkcs7_unpad (ecb_decrypt k encrypted) with
          | None => Ok (0, update_written k encrypted)
          | Some clear =>
              let clear_length := Z.of_nat (List.length clear) in
              match clear with
              | [] => Fault OutOfBounds            (* reads [clear[-1]] *)
              | _ :: _ =>
                  let b := Z_of_byte (List.last clear x00) in
                  let clear_length :=
                    if (0 <? b) && (b <? 16) then clear_length - b
                    else clear_length in
                  if clear_length <? 0 then Fault OutOfBounds
                  else Ok (clear_length,
                           terminate clear (Z.to_nat clear_length))
              end
          end
  end.

(** The claim of an unconditional round trip, for the key and clear text
    given: decryption returns the clear text's length and the clear text,
    NUL-terminated. *)
Definition round_trip_claim (key : list byte) (clear : list byte) : Prop :=
  forall encrypted,
    housetuya_encrypt (Some key) clear (Z.of_nat (List.length clear))
      = Ok encrypted ->
    housetuya_decrypt (Some key) encrypted (Z.of_nat (List.length encrypted))
      = Ok (Z.of_nat (List.length clear), clear ++ [x00]).

End Crypto.

(** ** [housetuya_messages.c] *)

Module Messages.
Import Bytes.

(** [typedef struct { char *id; char *key; char *version; } TuyaSecret;] *)
Record TuyaSecret : Type := mkSecret {
  id : option (list byte);
  key : option (list byte);
  version : option (list byte)
}.

Definition TUYA_STATUS : Z := 8.
Definition TUYA_CONTROL : Z := 7.
Definition TUYA_QUERY : Z := 10.
Definition TUYA_UPDATE : Z := 18.

(** [printf]'s [%d]. *)
Definition decimal (z : Z) : list byte :=
  list_byte_of_string (NilZero.string_of_int (Z.to_int z)).

(** [printf]'s [%s]; the C library prints a null string as [(null)]. *)
Definition percent_s (s : option (list byte)) : list byte :=
  match s with
  | Some l => cstr l
  | None => chars "(null)"
  end.

(** [snprintf] into a [char [1024]]: at most 1023 characters are kept. *)
Definition snprintf_1024 (formatted : list byte) : list byte :=
  take 1023 formatted.

Definition quote : byte := x22.

(** [{"devId":"%s","uid":"%s","t":"%d","dps":{"%d":%s}}] *)
Definition control_command (access : TuyaSecret) (now dps value : Z)
    : list byte :=
  chars "{" ++ [quote] ++ chars "devId" ++ [quote] ++ chars ":" ++ [quote]
  ++ percent_s (id access)
  ++ [quote] ++ chars "," ++ [quote] ++ chars "uid" ++ [quote] ++ chars ":"
  ++ [quote] ++ percent_s (id access)
  ++ [quote] ++ chars "," ++ [quote] ++ chars "t" ++ [quote] ++ chars ":"
  ++ [quote] ++ decimal (to_int32 now)
  ++ [quote] ++ chars "," ++ [quote] ++ chars "dps" ++ [quote] ++ chars ":{"
  ++ [quote] ++ decimal dps ++ [quote] ++ chars ":"
  ++ (if value =? 0 then chars "false" else chars "true")
  ++ chars "}}".

(** [{"devId":"%s","uid":"%s","t":"%d"}] *)
Definition query_command (access : TuyaSecret) (now : Z) : list byte :=
  chars "{" ++ [quote] ++ chars "devId" ++ [quote] ++ chars ":" ++ [quote]
  ++ percent_s (id access)
  ++ [quote] ++ chars "," ++ [quote] ++ chars "uid" ++ [quote] ++ chars ":"
  ++ [quote] ++ percent_s (id access)
  ++ [quote] ++ chars "," ++ [quote] ++ chars "t" ++ [quote] ++ chars ":"
  ++ [quote] ++ decimal (to_int32 now)
  ++ [quote] ++ chars "}".

(** The first three header words; the fourth is written when the envelope
    is closed. The buffer is returned up to the cursor, 16. *)
Definition housetuya_start_envelop (sequence code : Z) : list byte :=
  be32 0x000055aa ++ be32 sequence ++ be32 code ++ [x00; x00; x00; x00].

(** [header[3] = htonl(length-8)], then the trailer at [buffer+length]:
    the CRC of [length-16] bytes from [buffer+16], and the suffix. The
    buffer is returned up to the new length, [length + 8]. *)
Definition housetuya_end_envelop_pre34 (buffer : list byte) (length : Z)
    : list byte :=
  let buffer := take 12 buffer ++ be32 (length - 8) ++ drop 16 buffer in
  take (Z.to_nat length) buffer
  ++ be32 (Crc.housetuya_crc
             (take (Z.to_nat (length - 16)) (drop 16 buffer)))
  ++ be32 0x0000aa55.

(** [memset (dst, 0, 15); strncpy (dst, version, 15)] *)
Definition strncpy_15 (version : list byte) : list byte :=
  take 15 (cstr version ++ repeat x00 15).

(** [housetuya_encode]: the frame left in [buffer]; the returned [int] is
    its length, 0 (no frame) when the data is refused. [data] is a C
    string. The 0 that [housetuya_encrypt] returns on an OpenSSL error
    (a null key) is not tested: the envelope is closed around an empty
    payload. *)
Definition housetuya_encode (size : Z) (access : TuyaSecret)
    (code sequence : Z) (data : list byte) : res (list byte) :=
  let length := Z.of_nat (List.length (cstr data)) in
  if length >? size - 15 then Ok []
  else
    let buffer := housetuya_start_envelop sequence code in
    do header <-
      (if negb (code =? TUYA_QUERY) && negb (code =? TUYA_UPDATE) then
         match version access with
         | Some v => Ok (strncpy_15 v)
         | None => Fault NullPointer
         end
       else Ok []);
    let buffer := buffer ++ header in
    let cursor := Z.of_nat (List.length buffer) in
    do encrypted <- Crypto.housetuya_encrypt (key access) (cstr data) length;
    let length := cursor + Z.of_nat (List.length encrypted) in
    Ok (housetuya_end_envelop_pre34 (buffer ++ encrypted) length).

(** [housetuya_control]; [now] is what [time(0)] returns. *)
Definition housetuya_control (size : Z) (access : TuyaSecret)
    (sequence dps value : Z) (now : Z) : res (list byte) :=
  let command := snprintf_1024 (control_command access now dps value) in
  housetuya_encode size access TUYA_CONTROL sequence command.

Definition housetuya_query (size : Z) (access : TuyaSecret)
    (sequence : Z) (now : Z) : res (list byte) :=
  let command := snprintf_1024 (query_command access now) in
  housetuya_encode size access TUYA_QUERY sequence command.

(** [!strcmp (s, p)] for a string [s] and the memory [mem] that [p] points
    into: [mem] is read until it differs from [s] or both end. *)
Fixpoint strcmp_eq (s : list byte) (mem : list byte) : res bool :=
  match s, mem with
  | _, [] => Fault OutOfBounds
  | [], m :: _ => Ok (Byte.eqb m x00)
  | c :: s', m :: mem' =>
      if Byte.eqb c m then strcmp_eq s' mem' else Ok false
  end.

(** What [housetuya_open_envelop] leaves: its return value, the offset of
    [*data] in the buffer, and [*sequence] and [*code] once written. *)
Record Opened : Type := mkOpened {
  opened_length : Z;
  opened_data : Z;
  opened_sequence : option Z;
  opened_code : option Z
}.

(** The second half of [housetuya_open_envelop], once the prefix, the
    length and the suffix are accepted: where the payload starts (after a
    return code or not) and whether an extended header precedes it. *)
Definition open_payload (version : option (list byte))
    (buffer : list byte) (length : Z) (sequence code : option Z)
    : res Opened :=
  do word4 <- rd32 buffer 16;
  let '(data, length) :=
    if negb (Z.land word4 0xffffff00 =? 0)
    then (16, length - (16 + 8))
    else (20, length - (20 + 8)) in
  match version with
  | Some v =>
      do same <- strcmp_eq (cstr v) (drop (Z.to_nat data) buffer);
      if same then Ok (mkOpened (length - 15) (data + 15) sequence code)
      else Ok (mkOpened length data sequence code)
  | None => Ok (mkOpened length data sequence code)
  end.

Definition housetuya_open_envelop (version : option (list byte))
    (buffer : list byte) (length : Z) : res Opened :=
  do prefix <- rd32 buffer 0;
  if negb (to_int32 prefix =? 0x000055aa) then Ok (mkOpened 0 0 None None)
  else
    do sequence <- rd32 buffer 4;
    do code <- rd32 buffer 8;
    let sequence := Some (to_int32 sequence) in
    let code := Some (to_int32 code) in
    do payload_length <- rd32 buffer 12;
    if negb (to_int32 payload_length =? length - 16)
    then Ok (mkOpened 0 0 sequence code)
    else
      do suffix <- rd32 buffer (length - 8 + 4);
      if negb (to_int32 suffix =? 0x0000aa55)
      then Ok (mkOpened 0 0 sequence code)
      else open_payload version buffer length sequence code.

(** [memcpy (buffer, src, n)] with an [int] count: a negative [n] becomes
    a huge [size_t]. *)
Definition memcpy (src : list byte) (n : Z) : res (list byte) :=
  if (n <? 0) || (Z.of_nat (List.length src) <? n) then Fault OutOfBounds
  else Ok (take (Z.to_nat n) src).

(** What [housetuya_extract] leaves: its return value, the bytes it wrote
    at the start of [buffer], and [*code] and [*sequence] once written. *)
Record Extracted : Type := mkExtracted {
  extracted_length : Z;
  extracted_buffer : list byte;
  extracted_code : option Z;
  extracted_sequence : option Z
}.

Definition housetuya_extract (size : Z) (secret : option TuyaSecret)
    (raw : list byte) (length : Z) : res Extracted :=
  if length <=? 0 then Ok (mkExtracted 0 [] None None)
  else
    match secret with
    | Some secret =>
        do o <- housetuya_open_envelop (version secret) raw length;
        let code := opened_code o in
        let sequence := opened_sequence o in
        let datalen := opened_length o in
        if datalen <=? 0 then Ok (mkExtracted 0 [] code sequence)
        else
          do '(datalen, buffer) <-
            Crypto.housetuya_decrypt (key secret)
              (drop (Z.to_nat (opened_data o)) raw) datalen;
          if datalen <=? 0 then Ok (mkExtracted 0 buffer code sequence)
          else
            let buffer :=
              if datalen <? size
              then Crypto.terminate buffer (Z.to_nat datalen) else buffer in
            Ok (mkExtracted datalen buffer code sequence)
    | None =>
        do o <- housetuya_open_envelop None raw length;
        let datalen := opened_length o in
        do buffer <- memcpy (drop (Z.to_nat (opened_data o)) raw) datalen;
        let buffer := if datalen <? size then buffer ++ [x00] else buffer in
        Ok (mkExtracted datalen buffer (opened_code o) (opened_sequence o))
    end.

(** The layout of a closed envelope around [body] (the extended header,
    when there is one, and the encrypted data). *)
Definition envelope (sequence code : Z) (body : list byte) : list byte :=
  be32 0x000055aa ++ be32 sequence ++ be32 code
  ++ be32 (16 + Z.of_nat (List.length body) - 8)
  ++ body ++ be32 (Crc.housetuya_crc body) ++ be32 0x0000aa55.

(** The CRC field of a frame, its last four bytes before the suffix,
    holds the CRC of the frame's bytes from offset [from] up to that
    field. *)
Definition crc_covers (from : nat) (frame : list byte) : Prop :=
  let crc_at := (List.length frame - 8)%nat in
  take 4 (drop crc_at frame)
  = be32 (Crc.housetuya_crc (drop from (take crc_at frame))).

(** The memory [mem] begins with the characters of [s] and a NUL. *)
Definition c_string_at (s mem : list byte) : Prop :=
  exists rest, mem = s ++ x00 :: rest.



(** The claim on the extended header, for the frame given, read in two
    ways: 15 bytes are skipped exactly when the first 15 bytes of the
    payload equal the 15 bytes of the version field, where the payload is
    taken decrypted, or as received. [whole] is the outcome without a
    version, [sniffed] the outcome with it. *)
Definition sniff_claim_decrypted (secret : TuyaSecret) (v : list byte)
    (raw : list byte) (length : Z) : Prop :=
  forall whole sniffed,
    housetuya_open_envelop None raw length = Ok whole ->
    housetuya_open_envelop (Some v) raw length = Ok sniffed ->
    (opened_data sniffed = opened_data whole + 15
     <-> exists n clear,
           Crypto.housetuya_decrypt (key secret)
             (drop (Z.to_nat (opened_data whole)) raw) (opened_length whole)
             = Ok (n, clear)
           /\ take 15 clear = strncpy_15 v).

Definition sniff_claim_received (v : list byte)
    (raw : list byte) (length : Z) : Prop :=
  forall whole sniffed,
    housetuya_open_envelop None raw length = Ok whole ->
    housetuya_open_envelop (Some v) raw length = Ok sniffed ->
    (opened_data sniffed = opened_data whole + 15
     <-> take 15 (drop (Z.to_nat (opened_data whole)) raw) = strncpy_15 v).

(** A secret and the frames encoded with it, for the examples. *)
Definition example_secret : TuyaSecret :=
  mkSecret (Some (chars "bf12")) (Some (chars "0123456789abcdef"))
    (Some (chars "3.3")).

Definition example_query_frame : list byte :=
  Eval vm_compute in
    match housetuya_query 1024 example_secret 0 1700000000 with
    | Ok frame => frame
    | Fault _ => []
    end.

Definition example_control_frame : list byte :=
  Eval vm_compute in
    match housetuya_control 1024 example_secret 5 1 1 1700000000 with
    | Ok frame => frame
    | Fault _ => []
    end.









(** A datagram of 20 bytes: a header announcing 4 bytes, and the
    suffix. *)
Definition short_frame : list byte :=
  be32 0x000055aa ++ be32 0 ++ be32 0 ++ be32 4 ++ be32 0x0000aa55.

(** A STATUS frame whose payload starts with the version and a NUL, then
    other bytes where the version field has its padding, then one
    encrypted block. *)
Definition junk_header_frame : list byte :=
  Eval vm_compute in
    envelope 0 TUYA_STATUS
      (chars "3.3" ++ [x00] ++ chars "JUNKJUNKJUN"
       ++ Crypto.ecb_encrypt (Blocks.key_block (chars "0123456789abcdef"))
            (Crypto.pkcs7_pad (chars "{}"))).

End Messages.

(** ** [housetuya_device.c] *)

Module Device.
Import Bytes Messages.

(** [struct DeviceMap]. The [out] array is held as the frame staged in
    it. *)
Record DeviceMap : Type := mkDevice {
  name : option (list byte);
  secret : TuyaSecret;
  model : option (list byte);
  description : option (list byte);
  ipaddress : Z;
  host : option (list byte);
  detected : Z;
  socket : Z;
  encrypted : Z;
  status : Z;
  commanded : Z;
  pending : Z;
  deadline : Z;
  last_sense : Z;
  out : list byte;
  outlength : Z;
  control : Z
}.

(** Assignments to one field of a row. *)
Definition set_name (v : option (list byte)) (d : DeviceMap) : DeviceMap :=
  mkDevice v (secret d) (model d) (description d) (ipaddress d) (host d)
    (detected d) (socket d) (encrypted d) (status d) (commanded d) (pending
    d) (deadline d) (last_sense d) (out d) (outlength d) (control d).

Definition set_secret (v : TuyaSecret) (d : DeviceMap) : DeviceMap :=
  mkDevice (name d) v (model d) (description d) (ipaddress d) (host d)
    (detected d) (socket d) (encrypted d) (status d) (commanded d) (pending
    d) (deadline d) (last_sense d) (out d) (outlength d) (control d).

Definition set_model (v : option (list byte)) (d : DeviceMap) : DeviceMap :=
  mkDevice (name d) (secret d) v (description d) (ipaddress d) (host d)
    (detected d) (socket d) (encrypted d) (status d) (commanded d) (pending
    d) (deadline d) (last_sense d) (out d) (outlength d) (control d).

Definition set_description (v : option (list byte)) (d : DeviceMap) : DeviceMap :=
  mkDevice (name d) (secret d) (model d) v (ipaddress d) (host d)
    (detected d) (socket d) (encrypted d) (status d) (commanded d) (pending
    d) (deadline d) (last_sense d) (out d) (outlength d) (control d).

Definition set_ipaddress (v : Z) (d : DeviceMap) : DeviceMap :=
  mkDevice (name d) (secret d) (model d) (description d) v (host d)
    (detected d) (socket d) (encrypted d) (status d) (commanded d) (pending
    d) (deadline d) (last_sense d) (out d) (outlength d) (control d).

Definition set_host (v : option (list byte)) (d : DeviceMap) : DeviceMap :=
  mkDevice (name d) (secret d) (model d) (description d) (ipaddress d) v
    (detected d) (socket d) (encrypted d) (status d) (commanded d) (pending
    d) (deadline d) (last_sense d) (out d) (outlength d) (control d).

Definition set_detected (v : Z) (d : DeviceMap) : DeviceMap :=
  mkDevice (name d) (secret d) (model d) (description d) (ipaddress d)
    (host d) v (socket d) (encrypted d) (status d) (commanded d) (pending d)
    (deadline d) (last_sense d) (out d) (outlength d) (control d).

Definition set_socket (v : Z) (d : DeviceMap) : DeviceMap :=
  mkDevice (name d) (secret d) (model d) (description d) (ipaddress d)
    (host d) (detected d) v (encrypted d) (status d) (commanded d) (pending
    d) (deadline d) (last_sense d) (out d) (outlength d) (control d).

Definition set_encrypted (v : Z) (d : DeviceMap) : DeviceMap :=
  mkDevice (name d) (secret d) (model d) (description d) (ipaddress d)
    (host d) (detected d) (socket d) v (status d) (commanded d) (pending d)
    (deadline d) (last_sense d) (out d) (outlength d) (control d).

Definition set_status (v : Z) (d : DeviceMap) : DeviceMap :=
  mkDevice (name d) (secret d) (model d) (description d) (ipaddress d)
    (host d) (detected d) (socket d) (encrypted d) v (commanded d) (pending
    d) (deadline d) (last_sense d) (out d) (outlength d) (control d).

Definition set_commanded (v : Z) (d : DeviceMap) : DeviceMap :=
  mkDevice (name d) (secret d) (model d) (description d) (ipaddress d)
    (host d) (detected d) (socket d) (encrypted d) (status d) v (pending d)
    (deadline d) (last_sense d) (out d) (outlength d) (control d).

Definition set_pending (v : Z) (d : DeviceMap) : DeviceMap :=
  mkDevice (name d) (secret d) (model d) (description d) (ipaddress d)
    (host d) (detected d) (socket d) (encrypted d) (status d) (commanded d)
    v (deadline d) (last_sense d) (out d) (outlength d) (control d).

Definition set_deadline (v : Z) (d : DeviceMap) : DeviceMap :=
  mkDevice (name d) (secret d) (model d) (description d) (ipaddress d)
    (host d) (detected d) (socket d) (encrypted d) (status d) (commanded d)
    (pending d) v (last_sense d) (out d) (outlength d) (control d).

Definition set_last_sense (v : Z) (d : DeviceMap) : DeviceMap :=
  mkDevice (name d) (secret d) (model d) (description d) (ipaddress d)
    (host d) (detected d) (socket d) (encrypted d) (status d) (commanded d)
    (pending d) (deadline d) v (out d) (outlength d) (control d).

Definition set_out (v : list byte) (d : DeviceMap) : DeviceMap :=
  mkDevice (name d) (secret d) (model d) (description d) (ipaddress d)
    (host d) (detected d) (socket d) (encrypted d) (status d) (commanded d)
    (pending d) (deadline d) (last_sense d) v (outlength d) (control d).

Definition set_outlength (v : Z) (d : DeviceMap) : DeviceMap :=
  mkDevice (name d) (secret d) (model d) (description d) (ipaddress d)
    (host d) (detected d) (socket d) (encrypted d) (status d) (commanded d)
    (pending d) (deadline d) (last_sense d) (out d) v (control d).

Definition set_control (v : Z) (d : DeviceMap) : DeviceMap :=
  mkDevice (name d) (secret d) (model d) (description d) (ipaddress d)
    (host d) (detected d) (socket d) (encrypted d) (status d) (commanded d)
    (pending d) (deadline d) (last_sense d) (out d) (outlength d) v.

(** [DeviceEmptyContext = {0}] *)
Definition DeviceEmptyContext : DeviceMap :=
  mkDevice None (mkSecret None None None) None None 0 None 0 0 0 0 0 0 0 0
    [] 0 0.

(** The callbacks registered with [echttp_listen]. *)
Inductive handler : Type :=
| housetuya_device_send_handler
| housetuya_device_receive_handler.

(** The calls made into the environment, and the frames staged, in the
    order they happen; the log of a world holds the latest first. A
    staged frame is recorded with the device index and the command code
    it was encoded for. *)
Inductive action : Type :=
| echttp_forget (fd : Z)
| close (fd : Z)
| echttp_connect (host : option (list byte)) (fd : Z)
| echttp_listen (fd : Z) (mode : Z) (h : handler)
| write (fd : Z) (data : list byte)
| houselog_event (object : option (list byte)) (verb : string)
| staged (device : Z) (code : Z) (frame : list byte).

(** What the engine takes from outside [housetuya_device.c]: the result
    of [echttp_connect] (a descriptor, negative on failure), which may
    depend on all that happened before; the model registry's
    [housetuya_model_get_control]; and the two encoders of
    [housetuya_messages.c], called on the 1024-byte [out] array with a
    secret, a sequence number and what [time(0)] returns there (the
    control encoder also with the data point and the state). *)
Record Env : Type := mkEnv {
  env_connect : list action -> option (list byte) -> Z;
  env_model_get_control : option (list byte) -> Z;
  env_query : TuyaSecret -> Z -> Z -> list byte;
  env_control : TuyaSecret -> Z -> Z -> Z -> Z -> list byte
}.

(** The file-scope state: [Devices] with [DevicesCount] its length,
    [DeviceListChanged], the [LastRetry] of [housetuya_device_periodic],
    and the log. *)
Record World : Type := mkWorld {
  Devices : list DeviceMap;
  DeviceListChanged : Z;
  LastRetry : Z;
  Log : list action
}.

Definition DevicesCount (w : World) : Z := Z.of_nat (length (Devices w)).

(** One row of the table with the log: what a function that works on
    [Devices[i]] alone reads and writes. *)
Definition Cell : Type := (DeviceMap * list action)%type.

(** [Devices[i]], a fault outside the table. *)
Definition row (w : World) (i : Z) : res DeviceMap :=
  if i <? 0 then Fault RowBeyondTable
  else
    match Devices w !! Z.to_nat i with
    | Some d => Ok d
    | None => Fault RowBeyondTable
    end.

(** Runs a function of [Devices[i]] in the world. *)
Definition at_row {A : Type} (i : Z) (f : Cell -> A * Cell) (w : World)
    : res (A * World) :=
  do d <- row w i;
  let '(a, (d', log')) := f (d, Log w) in
  Ok (a, mkWorld (<[Z.to_nat i := d']> (Devices w))
                 (DeviceListChanged w) (LastRetry w) log').

Section Engine.

Variable env : Env.

Definition housetuya_device_count (w : World) : Z := DevicesCount w.

Definition housetuya_device_changed (w : World) : Z * World :=
  (DeviceListChanged w, mkWorld (Devices w) 0 (LastRetry w) (Log w)).

Definition housetuya_device_name (point : Z) (w : World)
    : res (option (list byte)) :=
  if (point <? 0) || (point >? DevicesCount w) then Ok None
  else do d <- row w point; Ok (name d).

Definition housetuya_device_commanded (point : Z) (w : World) : res Z :=
  if (point <? 0) || (point >? DevicesCount w) then Ok 0
  else do d <- row w point; Ok (commanded d).

Definition housetuya_device_deadline (point : Z) (w : World) : res Z :=
  if (point <? 0) || (point >? DevicesCount w) then Ok 0
  else do d <- row w point; Ok (deadline d).

Definition housetuya_device_failure (point : Z) (w : World)
    : res (option string) :=
  if (point <? 0) || (point >? DevicesCount w) then Ok None
  else
    do d <- row w point;
    if detected d =? 0 then Ok (Some "silent"%string) else Ok None.

Definition housetuya_device_get (point : Z) (w : World) : res Z :=
  if (point <? 0) || (point >? DevicesCount w) then Ok 0
  else do d <- row w point; Ok (status d).

(** [!strcmp (a, b)] on two stored strings. *)
Fixpoint bytes_eqb (a b : list byte) : bool :=
  match a, b with
  | [], [] => true
  | x :: a', y :: b' => Byte.eqb x y && bytes_eqb a' b'
  | _, _ => false
  end.

Definition same_string (a b : option (list byte)) : bool :=
  match a, b with
  | Some a, Some b => bytes_eqb (cstr a) (cstr b)
  | _, _ => false
  end.

(** The first index from [i] on of a row that [p] holds of, -1 when
    there is none. *)
Fixpoint search (p : DeviceMap -> bool) (l : list DeviceMap) (i : Z) : Z :=
  match l with
  | [] => -1
  | d :: l' => if p d then i else search p l' (i + 1)
  end.

Definition housetuya_device_id_search (id_ : option (list byte)) (w : World)
    : Z :=
  search (fun d => same_string id_ (id (secret d))) (Devices w) 0.

Definition housetuya_device_socket_search (s : Z) (w : World) : Z :=
  search (fun d => socket d =? s) (Devices w) 0.

Definition housetuya_device_close (c : Cell) : Cell :=
  let '(dev, log) := c in
  if 0 <=? socket dev then
    (set_outlength 0 (set_socket (-1) dev),
     close (socket dev) :: echttp_forget (socket dev) :: log)
  else c.

Definition housetuya_device_reset (status_ : Z) (c : Cell) : Cell :=
  let '(dev, log) := c in
  let dev := set_status status_ (set_commanded status_ dev) in
  let dev := set_pending 0 (set_deadline 0 dev) in
  housetuya_device_close (dev, log).

Definition housetuya_device_add (name_ id_ model_ : list byte) (w : World)
    : Z * World :=
  let i := DevicesCount w in
  let dev := DeviceEmptyContext in
  let dev := set_name (Some (cstr name_)) dev in
  let dev := set_secret (mkSecret (Some (cstr id_)) None None) dev in
  let dev := set_model (Some (cstr model_)) dev in
  let dev := set_socket (-1) dev in
  (i, mkWorld (Devices w ++ [dev]) 1 (LastRetry w) (Log w)).

(** [housetuya_device_refresh_string (&store, value)]: the new content of
    the store, and whether [DeviceListChanged] was raised. *)
Definition housetuya_device_refresh_string
    (store value : option (list byte)) : option (list byte) * bool :=
  match value with
  | Some v =>
      match store with
      | Some s =>
          if bytes_eqb (cstr s) (cstr v) then (store, false)
          else (Some (cstr v), true)
      | None => (Some (cstr v), true)
      end
  | None => (None, false)
  end.

(** [housetuya_device_status_update], on the row of a device that is not
    negative. *)
Definition status_update_row (status_ now : Z) (c : Cell) : unit * Cell :=
  let '(dev, log) := c in
  let '(dev, log) :=
    if negb (status_ =? status dev) then
      let '(dev, log) :=
        if negb (pending dev =? 0) && (status_ =? commanded dev) then
          (set_pending 0 dev, houselog_event (name dev) "CONFIRMED" :: log)
        else
          (set_pending 0 (set_commanded status_ dev),
           houselog_event (name dev) "CHANGED" :: log) in
      (set_status status_ dev, log)
    else (dev, log) in
  (tt, (set_detected now dev, log)).

Definition housetuya_device_status_update (device status_ now : Z)
    (w : World) : res World :=
  if device <? 0 then Ok w
  else do '(_, w') <- at_row device (status_update_row status_ now) w; Ok w'.

Definition housetuya_device_preamble (c : Cell) : bool * Cell :=
  let '(dev, log) := c in
  if ipaddress dev =? 0 then (false, c)
  else if negb (encrypted dev =? 0)
          && match id (secret dev) with None => true | Some _ => false end
  then (false, c)
  else
    let dev :=
      if control dev <=? 0
      then set_control (env_model_get_control env (model dev)) dev
      else dev in
    if control dev <=? 0 then (false, (dev, log))
    else
      let '(dev, log) := housetuya_device_close (dev, log) in
      let fd := env_connect env log (host dev) in
      let dev := set_socket fd dev in
      let log := echttp_connect (host dev) fd :: log in
      if fd <? 0 then (false, (dev, log)) else (true, (dev, log)).

Definition housetuya_device_sense (device now : Z) (c : Cell) : Cell :=
  let '(ready, (dev, log)) := housetuya_device_preamble c in
  if negb ready then (dev, log)
  else
    let frame := env_query env (secret dev) 0 now in
    let dev := set_outlength (Z.of_nat (length frame)) (set_out frame dev) in
    (dev,
     echttp_listen (socket dev) 2 housetuya_device_send_handler
       :: staged device TUYA_QUERY frame :: log).

Definition housetuya_device_control (device state now : Z) (c : Cell)
    : Cell :=
  let '(ready, (dev, log)) := housetuya_device_preamble c in
  if negb ready then (dev, log)
  else
    let frame := env_control env (secret dev) 0 (control dev) state now in
    let dev := set_outlength (Z.of_nat (length frame)) (set_out frame dev) in
    (dev,
     echttp_listen (socket dev) 2 housetuya_device_send_handler
       :: staged device TUYA_CONTROL frame :: log).

(** [housetuya_device_set] past its guard, on [Devices[device]]. *)
Definition set_row (device state pulse now : Z) (c : Cell) : Z * Cell :=
  let '(dev, log) := c in
  let dev :=
    if pulse >? 0 then set_deadline (now + pulse) dev
    else set_deadline 0 dev in
  let log := houselog_event (name dev) "SET" :: log in
  let dev := set_commanded state dev in
  if negb (pending dev =? 0) then (1, (dev, log))
  else
    let dev := set_pending (now + 10) dev in
    if negb (detected dev =? 0)
    then (0, housetuya_device_control device state now (dev, log))
    else (0, (dev, log)).

(** [housetuya_device_set (device, state, pulse, cause)]; [now] is what
    [time(0)] returns. *)
Definition housetuya_device_set (device state pulse now : Z) (w : World)
    : res (Z * World) :=
  if (device <? 0) || (device >? DevicesCount w) then Ok (0, w)
  else at_row device (set_row device state pulse now) w.

(** The four steps of the sweep on [Devices[i]], in the order of the loop
    body. *)
Definition sweep_sense (now i : Z) (c : Cell) : Cell :=
  let '(dev, log) := c in
  if now >=? last_sense dev + 35 then
    let '(dev, log) :=
      if (pending dev =? 0) && negb (ipaddress dev =? 0)
      then housetuya_device_sense i now (housetuya_device_close (dev, log))
      else (dev, log) in
    (set_last_sense now dev, log)
  else c.

Definition sweep_silence (now i : Z) (c : Cell) : Cell :=
  let '(dev, log) := c in
  if (detected dev >? 0) && (detected dev <? now - 100) then
    let log := houselog_event (name dev) "SILENT" :: log in
    let '(dev, log) :=
      housetuya_device_reset 0 (housetuya_device_close (dev, log)) in
    (set_detected 0 dev, log)
  else c.

Definition sweep_pulse (now i : Z) (c : Cell) : Cell :=
  let '(dev, log) := c in
  if (deadline dev >? 0) && (now >=? deadline dev) then
    let log := houselog_event (name dev) "RESET" :: log in
    (set_deadline 0 (set_pending (now + 5) (set_commanded 0 dev)), log)
  else c.

Definition sweep_reconcile (now i : Z) (c : Cell) : Cell :=
  let '(dev, log) := c in
  if negb (status dev =? commanded dev) then
    if pending dev >? now then
      if negb (detected dev =? 0) then
        housetuya_device_control i (commanded dev) now
          (dev, houselog_event (name dev) "RETRY" :: log)
      else c
    else if negb (pending dev =? 0) then
      let log := houselog_event (name dev) "TIMEOUT" :: log in
      let '(dev, log) := housetuya_device_close (dev, log) in
      housetuya_device_reset (status dev) (dev, log)
    else c
  else c.

(** The body of the loop of [housetuya_device_periodic] for device [i]. *)
Definition visit (now i : Z) (c : Cell) : unit * Cell :=
  (tt, sweep_reconcile now i
         (sweep_pulse now i (sweep_silence now i (sweep_sense now i c)))).

(** [for (i = from; i < DevicesCount; ++i)], over [n] rows. *)
Fixpoint sweep (now : Z) (from : Z) (n : nat) (w : World) : res World :=
  match n with
  | O => Ok w
  | S n' =>
      do '(_, w') <- at_row from (visit now from) w;
      sweep now (from + 1) n' w'
  end.

Definition housetuya_device_periodic (now : Z) (w : World) : res World :=
  if now <? LastRetry w + 5 then Ok w
  else
    let w := mkWorld (Devices w) (DeviceListChanged w) now (Log w) in
    sweep now 0 (length (Devices w)) w.

(** A beacon, as [housetuya_device_discovery] has it once the datagram is
    decoded and its JSON parsed: the [gwId], [productKey] and [version]
    strings, the [encrypt] flag, and the sender's address with its
    printed form. *)
Record Beacon : Type := mkBeacon {
  gwId : list byte;
  productKey : list byte;
  beacon_version : list byte;
  encrypt : Z;
  sin_addr : Z;
  printed_addr : list byte
}.

Definition discovery_row (b : Beacon) (now : Z) (c : Cell) : bool * Cell :=
  let '(dev, log) := c in
  let '(model_, changed1) :=
    housetuya_device_refresh_string (model dev) (Some (productKey b)) in
  let dev := set_model model_ dev in
  let '(version_, changed2) :=
    housetuya_device_refresh_string (version (secret dev))
      (Some (beacon_version b)) in
  let dev :=
    set_secret (mkSecret (id (secret dev)) (key (secret dev)) version_) dev in
  let dev := set_encrypted (encrypt b) dev in
  let '(dev, changed3) :=
    if negb (ipaddress dev =? sin_addr b) then
      let '(host_, changed) :=
        housetuya_device_refresh_string (host dev) (Some (printed_addr b)) in
      (set_host host_ (set_ipaddress (sin_addr b) dev), changed)
    else (dev, false) in
  let '(dev, log) :=
    if detected dev =? 0
    then (set_last_sense 0 dev, houselog_event (name dev) "DETECTED" :: log)
    else (dev, log) in
  (changed1 || changed2 || changed3, (set_detected now dev, log)).

(** [housetuya_device_discovery], from the parsed beacon on. *)
Definition housetuya_device_discovery (b : Beacon) (now : Z) (w : World)
    : res World :=
  let index := housetuya_device_id_search (Some (gwId b)) w in
  let '(index, w) :=
    if index <? 0 then
      housetuya_device_add
        (chars "new_" ++ decimal (DevicesCount w)) (gwId b) (productKey b) w
    else (index, w) in
  do '(changed, w) <- at_row index (discovery_row b now) w;
  Ok (if changed : bool
      then mkWorld (Devices w) 1 (LastRetry w) (Log w) else w).

Definition housetuya_device_send (fd : Z) (w : World) : res World :=
  let device := housetuya_device_socket_search fd w in
  if device <? 0 then
    Ok (mkWorld (Devices w) (DeviceListChanged w) (LastRetry w)
          (close fd :: echttp_forget fd :: Log w))
  else
    do '(_, w) <-
      at_row device
        (fun '(dev, log) =>
           let '(dev, log) :=
             if outlength dev >? 0
             then (set_outlength 0 dev,
                   write fd (take (Z.to_nat (outlength dev)) (out dev)) :: log)
             else (dev, log) in
           (tt, (dev,
                 echttp_listen fd 1 housetuya_device_receive_handler :: log)))
        w;
    Ok w.

(** What the JSON parser finds at [.dps.<control>] in a payload. *)
Inductive dps_value : Type :=
| ParseError
| MissingItem
| NotABoolean
| Boolean (b : Z).

(** What [housetuya_device_receive] gets for the data read on a socket:
    the length [read] returns, the [code] and the length that
    [housetuya_extract] leaves, and the parser's finding. *)
Record Reply : Type := mkReply {
  read_length : Z;
  reply_code : Z;
  reply_length : Z;
  reply_dps : dps_value
}.

Definition housetuya_device_receive (fd : Z) (r : Reply) (now : Z)
    (w : World) : res World :=
  let device := housetuya_device_socket_search fd w in
  if device <? 0 then
    Ok (mkWorld (Devices w) (DeviceListChanged w) (LastRetry w)
          (close fd :: echttp_forget fd :: Log w))
  else if read_length r <=? 0 then
    do '(_, w) <- at_row device (fun c => (tt, housetuya_device_close c)) w;
    Ok w
  else if reply_code r =? TUYA_CONTROL then Ok w
  else if reply_length r <=? 4 then Ok w
  else
    do '(_, w) <- at_row device (fun c => (tt, housetuya_device_close c)) w;
    if negb (reply_code r =? TUYA_STATUS) && negb (reply_code r =? TUYA_QUERY)
    then Ok w
    else
      match reply_dps r with
      | Boolean b => housetuya_device_status_update device b now w
      | _ => Ok w
      end.

(** What can happen to the engine: the callbacks the event loop runs. *)
Inductive event : Type :=
| Tick (now : Z)
| SetPoint (device state pulse now : Z)
| Discovered (b : Beacon) (now : Z)
| Writable (fd : Z)
| Readable (fd : Z) (r : Reply) (now : Z).

Definition step (e : event) (w : World) : res World :=
  match e with
  | Tick now => housetuya_device_periodic now w
  | SetPoint device state pulse now =>
      do '(_, w') <- housetuya_device_set device state pulse now w; Ok w'
  | Discovered b now => housetuya_device_discovery b now w
  | Writable fd => housetuya_device_send fd w
  | Readable fd r now => housetuya_device_receive fd r now w
  end.

Fixpoint run (es : list event) (w : World) : res World :=
  match es with
  | [] => Ok w
  | e :: es' => do w' <- step e w; run es' w'
  end.

End Engine.

(** The command state of a row: the observed and commanded states, the
    two deadlines and the time of detection. *)
Definition intent (d : DeviceMap) : Z * Z * Z * Z * Z :=
  (status d, commanded d, pending d, deadline d, detected d).






(** The claim on the end of a pulse, for the sweep at [now]: once it has
    visited device [i], whose deadline is set and reached, the device is
    commanded off, has no deadline and has [pending] armed for 5
    seconds. *)
Definition pulse_claim (env : Env) (now i : Z) (w : World) : Prop :=
  forall d,
    row w i = Ok d ->
    deadline d > 0 -> now >= deadline d ->
    exists w' d',
      at_row i (visit env now i) w = Ok (tt, w')
      /\ row w' i = Ok d'
      /\ commanded d' = 0 /\ deadline d' = 0 /\ pending d' = now + 5.

(** An environment for the examples: every connection succeeds on
    descriptor 7, every model has data point 1, and the encoders are those
    of [housetuya_messages.c]: for a device without a key they close
    the envelope around an empty payload; where they fault (a null
    version in a CONTROL, a key string of fewer than 15 characters) no
    frame is given. *)
Definition example_env : Env :=
  mkEnv (fun _ _ => 7) (fun _ => 1)
    (fun secret sequence now =>
       match housetuya_query 1024 secret sequence now with
       | Ok frame => frame
       | Fault _ => []
       end)
    (fun secret sequence dps state now =>
       match housetuya_control 1024 secret sequence dps state now with
       | Ok frame => frame
       | Fault _ => []
       end).

(** A lamp at 10.0.0.7 that is on, as commanded, sensed at 990 and last
    detected at 900. *)
Definition example_lamp : DeviceMap :=
  mkDevice (Some (chars "lamp")) example_secret (Some (chars "keyA")) None
    167772167 (Some (chars "10.0.0.7")) 900 (-1) 1 1 1 0 0 990 [] 0 1.

Definition example_world : World := mkWorld [example_lamp] 0 0 [].

(** The same lamp in a pulse that ends at 1000. *)
Definition pulsed_lamp : DeviceMap := set_deadline 1000 example_lamp.

Definition pulsed_world : World := mkWorld [pulsed_lamp] 0 0 [].

(** The same pulse, the lamp detected at 950. *)
Definition heard_pulsed_lamp : DeviceMap := set_detected 950 pulsed_lamp.

Definition heard_pulsed_world : World := mkWorld [heard_pulsed_lamp] 0 0 [].

(** The same lamp detected at 950, a command pending until 1005. *)
Definition pending_lamp : DeviceMap :=
  set_pending 1005 (set_detected 950 example_lamp).

Definition pending_world : World := mkWorld [pending_lamp] 0 0 [].

(** After the sweep at 1001 has found the lamp silent: the next sweep
    senses it, the QUERY is written, the lamp answers that it is on, and
    it is then set to off. No beacon is received. *)
Definition reply_then_set : list event :=
  [Tick 1036; Writable 7;
   Readable 7 (mkReply 100 TUYA_QUERY 60 (Boolean 1)) 1037;
   SetPoint 0 0 0 1038].

(** The worlds that the example goes through: after the sweep at 1001 has
    visited the lamp, and after the run that follows. *)
Definition silent_world : World :=
  Eval vm_compute in
    match at_row 0 (visit example_env 1001 0) example_world with
    | Ok (_, w) => w
    | Fault _ => example_world
    end.

Definition replied_world : World :=
  Eval vm_compute in
    match run example_env reply_then_set silent_world with
    | Ok w => w
    | Fault _ => silent_world
    end.

End Device.
(** ** Frames as received *)

Module Frames.
Import Bytes Messages.

(** A frame laid out as [housetuya_end_envelop_pre34] lays it, with any
    bytes [crc] in the place of the CRC field: what a device may send,
    since the CRC it computed is not known. *)
Definition envelope_with (crc : list byte) (sequence code : Z)
    (body : list byte) : list byte :=
  be32 0x000055aa ++ be32 sequence ++ be32 code
  ++ be32 (16 + Z.of_nat (List.length body) - 8)
  ++ body ++ crc ++ be32 0x0000aa55.

(** A plain beacon frame: return code 0, then a JSON text. *)
Definition example_beacon_frame : list byte :=
  envelope_with [x12; x34; x56; x78] 0 19
    (be32 0 ++ chars "{}").

(** The body of the CONTROL frame of the examples: the extended header
    and the encrypted command. *)
Definition example_control_body : list byte :=
  Eval vm_compute in take 79 (drop 16 example_control_frame).

(** A clear text of 30 characters, for a buffer of 64 bytes. *)
Definition example_long_data : list byte := repeat "a"%byte 30.

End Frames.

(** ** Views of the device table *)

Module DeviceViews.
Import Bytes Messages Device.

(** What identifies a device and gives access to it: its name, its id and
    its key. *)
Definition identity (d : DeviceMap)
    : option (list byte) * option (list byte) * option (list byte) :=
  (name d, id (secret d), key (secret d)).

(** A row without a socket has no frame waiting in [out]. *)
Definition staged_on_socket (d : DeviceMap) : Prop :=
  socket d < 0 -> outlength d = 0.

Definition all_staged_on_socket (w : World) : Prop :=
  Forall staged_on_socket (Devices w).

(** What a callback keeps of the row it works on: the identity, and that
    a frame waits only on a socket. *)
Definition keeps (d d' : DeviceMap) : Prop :=
  identity d' = identity d
  /\ (staged_on_socket d -> staged_on_socket d').





(** No two rows of the table hold the same id. *)
Definition distinct_ids (w : World) : Prop :=
  forall i j di dj,
    Devices w !! i = Some di -> Devices w !! j = Some dj ->
    same_string (id (secret di)) (id (secret dj)) = true -> i = j.

(** An event that calls [housetuya_device_set] with [DevicesCount] as the
    device. *)
Definition sets_beyond_table (e : event) (w : World) : Prop :=
  match e with
  | SetPoint device _ _ _ => device = DevicesCount w
  | _ => False
  end.





(** The lamp detected at 950, nothing pending; and the lamp never
    detected. *)
Definition idle_lamp : DeviceMap := set_detected 950 example_lamp.


Definition unseen_lamp : DeviceMap := set_detected 0 example_lamp.

Definition unseen_world : World := mkWorld [unseen_lamp] 0 0 [].

(** The idle lamp with a QUERY staged on socket 7. *)
Definition querying_lamp : DeviceMap :=
  set_outlength (Z.of_nat (length example_query_frame))
    (set_out example_query_frame (set_socket 7 idle_lamp)).

Definition querying_world : World := mkWorld [querying_lamp] 0 0 [].

(** The world of the examples after the sweep at 1001. *)
Definition swept_world : World :=
  Eval vm_compute in
    match housetuya_device_periodic example_env 1001 example_world with
    | Ok w => w
    | Fault _ => example_world
    end.

(** A beacon of the lamp, and a beacon of a device not in the table. *)
Definition lamp_beacon : Beacon :=
  mkBeacon (chars "bf12") (chars "keyA") (chars "3.3") 1 167772167
    (chars "10.0.0.7").

Definition plug_beacon : Beacon :=
  mkBeacon (chars "bf34") (chars "keyB") (chars "3.3") 1 167772168
    (chars "10.0.0.8").

End DeviceViews.

(** ** [housetuya.c]: the [/tuya/set] request *)

Module Service.
Import Bytes Messages Device.

(** [strcmp (s, literal) == 0] *)
Definition is_string (s : list byte) (literal : string) : bool :=
  bytes_eqb (cstr s) (chars literal).

(** What a handler answers: an error given to [echttp_error], after
    which the empty string is returned, or the text returned as the
    content. *)
Inductive answer : Type :=
| echttp_error (code : Z) (text : string)
| content (text : string).

(** The state that the [state] parameter stands for. *)
Definition named_state (statep : list byte) : option Z :=
  if is_string statep "on" || is_string statep "1" then Some 1
  else if is_string statep "off" || is_string statep "0" then Some 0
  else None.

Section Handlers.

Variable env : Env.

(** The C library's [atoi]. *)
Variable atoi : list byte -> Z.

(** What [housestate_same (LiveState)] returns in this request. *)
Variable housestate_same : bool.

(** The status document of the table as [echttp_json_export] leaves it
    in the 65537 bytes of [buffer], or the error that it returns. The
    document is built with [echttp_json] from the host name, the clock,
    [housestate_current] and the accessors of the table, row by row
    below [housetuya_device_count]; one of them,
    [housetuya_device_priority], is not in [housetuya_device.c]. *)
Variable status_json : World -> string + string.

(** [housetuya_status]: nothing when the state has not changed, the
    error 500 when the document could not be exported, the document
    otherwise. It reads the table and writes none of it. *)
Definition housetuya_status (w : World) : answer :=
  if housestate_same then content EmptyString
  else
    match status_json w with
    | inl error => echttp_error 500 error
    | inr buffer => content buffer
    end.

(** The loop of [housetuya_set] over the devices from [i] on, [n] of
    them; [now i] is what [time(0)] returns in the call of
    [housetuya_device_set] for device [i]. The name of a device is
    compared only when the point is not [all]. *)
Fixpoint set_points (point : list byte) (state pulse : Z) (now : Z -> Z)
    (i : Z) (n : nat) (found : bool) (w : World) : res (bool * World) :=
  match n with
  | O => Ok (found, w)
  | S n' =>
      do hit <-
        (if is_string point "all" then Ok true
         else
           do name_ <- housetuya_device_name i w;
           match name_ with
           | Some s => Ok (bytes_eqb (cstr point) (cstr s))
           | None => Fault NullPointer
           end);
      if hit : bool then
        do '(_, w') <- housetuya_device_set env i state pulse (now i) w;
        set_points point state pulse now (i + 1) n' true w'
      else set_points point state pulse now (i + 1) n' found w
  end.

(** [housetuya_set], from the parameters that [echttp_parameter_get]
    returns for [point], [state] and [pulse] (the [cause] goes to the
    text of the log only). Once a device was set, the answer is that of
    [housetuya_status] on the table as the loop left it. *)
Definition housetuya_set (point statep pulsep : option (list byte))
    (now : Z -> Z) (w : World) : res (answer * World) :=
  let count := housetuya_device_count w in
  match point with
  | None => Ok (echttp_error 404 "missing point name", w)
  | Some point =>
      match statep with
      | None => Ok (echttp_error 400 "missing state value", w)
      | Some statep =>
          match named_state statep with
          | None => Ok (echttp_error 400 "invalid state value", w)
          | Some state =>
              let pulse :=
                match pulsep with
                | Some p => atoi p
                | None => 0
                end in
              if pulse <? 0
              then Ok (echttp_error 400 "invalid pulse value", w)
              else
                do '(found, w') <-
                  set_points point state pulse now 0 (Z.to_nat count)
                    false w;
                if negb found
                then Ok (echttp_error 404 "invalid point name", w')
                else Ok (housetuya_status w', w')
          end
      end
  end.

End Handlers.

(** The point of a request designates the device of a row: it is [all],
    or the name of the device. *)
Definition designates (point : list byte) (d : DeviceMap) : bool :=
  is_string point "all" || same_string (Some point) (name d).

(** [atoi] on the decimal texts of the examples. *)
Definition example_atoi (s : list byte) : Z :=
  if is_string s "30" then 30 else if is_string s "-1" then -1 else 0.

(** A status document for the examples. *)
Definition example_status_json (w : World) : string + string :=
  inr "{}"%string.

(** Two lamps, the second named [porch]. *)
Definition porch_lamp : DeviceMap :=
  set_name (Some (chars "porch"))
    (set_secret (mkSecret (Some (chars "bf56"))
                   (Some (chars "0123456789abcdef")) (Some (chars "3.3")))
       example_lamp).

Definition two_lamps : World := mkWorld [example_lamp; porch_lamp] 0 0 [].

End Service.
(** ** [housetuya_device.c]: loading the configuration *)

Module DeviceConfig.
Import Bytes Messages Device.

(** One object of the [.tuya.devices] array, as [houseconfig_string]
    gives its items: a null pointer for an item that is missing. *)
Record ConfigDevice : Type := mkConfigDevice {
  config_name : option (list byte);
  config_id : option (list byte);
  config_model : option (list byte);
  config_key : option (list byte);
  config_description : option (list byte)
}.

(** What [houseconfig] holds: whether a configuration is active, and the
    [.tuya.devices] array when there is one; an element that
    [houseconfig_array_object] does not find is [None]. *)
Record Config : Type := mkConfig {
  houseconfig_active : bool;
  devices_array : option (list (option ConfigDevice))
}.

(** [DeviceListChanged = 1] when a string was replaced. *)
Definition raise_changed (changed : bool) (w : World) : World :=
  if changed then mkWorld (Devices w) 1 (LastRetry w) (Log w) else w.

(** The two refreshed strings and the reset of [Devices[idx]]. *)
Definition refresh_row (e : ConfigDevice) (c : Cell) : bool * Cell :=
  let '(dev, log) := c in
  let '(key_, changed1) :=
    housetuya_device_refresh_string (key (secret dev)) (config_key e) in
  let dev :=
    set_secret (mkSecret (id (secret dev)) key_ (version (secret dev))) dev in
  let '(description_, changed2) :=
    housetuya_device_refresh_string (description dev)
      (config_description e) in
  let dev := set_description description_ dev in
  (changed1 || changed2, housetuya_device_reset (status dev) (dev, log)).

Definition rename_row (name_ : list byte) (c : Cell) : bool * Cell :=
  let '(dev, log) := c in
  let '(name', changed) :=
    housetuya_device_refresh_string (name dev) (Some name_) in
  (changed, (set_name name' dev, log)).

(** The body of the loop of [housetuya_device_refresh] for one element of
    the array. *)
Definition refresh_device (e : option ConfigDevice) (w : World)
    : res World :=
  match e with
  | None => Ok w
  | Some e =>
      match config_id e, config_name e, config_model e with
      | Some id_, Some name_, Some model_ =>
          let idx := housetuya_device_id_search (Some id_) w in
          do '(idx, w) <-
            (if idx <? 0
             then Ok (housetuya_device_add name_ id_ model_ w)
             else
               do '(changed, w) <- at_row idx (rename_row name_) w;
               Ok (idx, raise_changed changed w));
          do '(changed, w) <- at_row idx (refresh_row e) w;
          Ok (raise_changed changed w)
      | _, _, _ => Ok w
      end
  end.

Fixpoint refresh_devices (es : list (option ConfigDevice)) (w : World)
    : res World :=
  match es with
  | [] => Ok w
  | e :: es' => do w' <- refresh_device e w; refresh_devices es' w'
  end.

(** [housetuya_device_refresh]: the error text returned, if any, and the
    table. [DevicesSpace], the rows allocated, is not part of the table
    modelled, and is given with what [realloc] does when the table has
    to grow: [realloc] is [false] when it returns a null pointer, and
    the table is then emptied. (The [realloc] of [housetuya_device_add],
    whose result the source does not test, is taken to give the
    memory.) *)
Definition housetuya_device_refresh_alloc (DevicesSpace : Z)
    (realloc : bool) (c : Config) (w : World)
    : res (option string * World) :=
  if negb (houseconfig_active c) then Ok (None, w)
  else
    match devices_array c with
    | None => Ok (Some "cannot find devices array"%string, w)
    | Some es =>
        let needed := Z.of_nat (length es) + 16 in
        if (needed >? DevicesSpace) && negb realloc
        then Ok (Some "no more memory"%string,
                 mkWorld [] (DeviceListChanged w) (LastRetry w) (Log w))
        else do w' <- refresh_devices es w; Ok (None, w')
    end.

(** [housetuya_device_refresh] when [realloc] gives the memory asked
    for. *)
Definition housetuya_device_refresh (c : Config) (w : World)
    : res (option string * World) :=
  housetuya_device_refresh_alloc 0 true c w.


(** An element of the array that has the three items without which it is
    skipped. *)
Definition complete (e : ConfigDevice) : bool :=
  match config_id e, config_name e, config_model e with
  | Some _, Some _, Some _ => true
  | _, _, _ => false
  end.

(** An element of the array is about the device of a row. *)
Definition describes (e : option ConfigDevice) (d : DeviceMap) : bool :=
  match e with
  | Some e => complete e && same_string (config_id e) (id (secret d))
  | None => false
  end.

(** The configuration lists the device of a row: some complete element
    has its id. *)
Definition lists (es : list (option ConfigDevice)) (d : DeviceMap) : bool :=
  existsb (fun e => describes e d) es.


(** Some complete element of [es] has the id of [e]. *)
Definition repeated (e : ConfigDevice) (es : list (option ConfigDevice))
    : bool :=
  existsb
    (fun e' =>
       match e' with
       | Some e' => complete e' && same_string (config_id e) (config_id e')
       | None => false
       end) es.

(** A stored string holds the value given, both read as C strings, or
    neither is there. *)
Definition holds (store value : option (list byte)) : Prop :=
  option_map cstr store = option_map cstr value.

(** What loading the configuration keeps of a row: its id and its
    observed state. *)
Definition same_device (d d' : DeviceMap) : Prop :=
  id (secret d') = id (secret d) /\ status d' = status d.

(** A row as [housetuya_device_reset] leaves it, given the state that is
    kept: no command in flight, no pulse, no socket. *)
Definition at_rest (d : DeviceMap) : Prop :=
  commanded d = status d /\ pending d = 0 /\ deadline d = 0 /\ socket d < 0.

(** A configuration that lists the lamp of the examples, under a new
    name, and a device that is not in the table. *)
Definition example_config : Config :=
  mkConfig true
    (Some [Some (mkConfigDevice (Some (chars "desk")) (Some (chars "bf12"))
                   (Some (chars "keyA")) (Some (chars "0123456789abcdef"))
                   None);
           None;
           Some (mkConfigDevice (Some (chars "fan")) (Some (chars "bf78"))
                   (Some (chars "keyC")) None None)]).

Definition configured_world : World :=
  Eval vm_compute in
    match housetuya_device_refresh example_config pending_world with
    | Ok (_, w) => w
    | Fault _ => pending_world
    end.

End DeviceConfig.
(** ** [housetuya_model.c] *)

Module Model.
Import Bytes Device.

(** [struct ModelMap] *)
Record ModelMap : Type := mkModel {
  model_id : option (list byte);
  model_name : option (list byte);
  model_control : Z
}.

(** The file-scope state: the array [Models] as it is allocated, with
    [ModelsSpace] its length, [ModelsCount] the number of rows in use,
    and [ModelListChanged]. *)
Record Registry : Type := mkRegistry {
  Models : list ModelMap;
  ModelsCount : Z;
  ModelListChanged : Z
}.

Definition ModelsSpace (r : Registry) : Z := Z.of_nat (length (Models r)).

(** Before the first load: no array. *)
Definition no_models : Registry := mkRegistry [] 0 0.

(** [Models[i]], a fault outside the allocated array. *)
Definition model_row (r : Registry) (i : Z) : res ModelMap :=
  if i <? 0 then Fault OutOfBounds
  else
    match Models r !! Z.to_nat i with
    | Some m => Ok m
    | None => Fault OutOfBounds
    end.

Definition housetuya_model_changed (r : Registry) : Z * Registry :=
  (ModelListChanged r, mkRegistry (Models r) (ModelsCount r) 0).

(** The C library's [tolower], in the C locale. *)
Definition tolower (b : byte) : byte :=
  let z := Z_of_byte b in
  if (65 <=? z) && (z <=? 90) then byte_of_Z (z + 32) else b.

(** [!strcasecmp (a, b)] on two strings. *)
Fixpoint strcasecmp_eq (a b : list byte) : bool :=
  match a, b with
  | [], [] => true
  | x :: a', y :: b' => Byte.eqb (tolower x) (tolower y) && strcasecmp_eq a' b'
  | _, _ => false
  end.

(** The loop of [housetuya_model_search] from row [i] on, over [n]
    rows. *)
Fixpoint search_rows (id_ : list byte) (r : Registry) (i : Z) (n : nat)
    : res Z :=
  match n with
  | O => Ok (-1)
  | S n' =>
      do m <- model_row r i;
      match model_id m with
      | None => Fault NullPointer
      | Some mid =>
          if strcasecmp_eq (cstr id_) (cstr mid) then Ok i
          else search_rows id_ r (i + 1) n'
      end
  end.

Definition housetuya_model_search (id_ : option (list byte)) (r : Registry)
    : res Z :=
  match id_ with
  | Some id_ => search_rows id_ r 0 (Z.to_nat (ModelsCount r))
  | None => if ModelsCount r <=? 0 then Ok (-1) else Fault NullPointer
  end.

Definition housetuya_model_get_name (id_ : option (list byte))
    (r : Registry) : res (option (list byte)) :=
  do i <- housetuya_model_search id_ r;
  if i <? 0 then Ok None
  else do m <- model_row r i; Ok (model_name m).

Definition housetuya_model_get_control (id_ : option (list byte))
    (r : Registry) : res Z :=
  do i <- housetuya_model_search id_ r;
  if i <? 0 then Ok 0
  else do m <- model_row r i; Ok (model_control m).

(** [housetuya_model_add]. When the array is full, it is reallocated to
    [ModelsCount + 16] rows, and the [memset] that follows starts at
    [Models + ModelsSpace], the end of the new array, and clears 16 rows
    from there: a write outside the array. Otherwise the row
    [ModelsCount], allocated and not in use, gets the id. *)
Definition housetuya_model_add (id_ : list byte) (r : Registry)
    : res (Z * Registry) :=
  if ModelsCount r >=? ModelsSpace r then Fault OutOfBounds
  else
    let i := ModelsCount r in
    do m <- model_row r i;
    Ok (i,
        mkRegistry
          (<[Z.to_nat i := mkModel (Some (cstr id_)) (model_name m)
                             (model_control m)]> (Models r))
          (ModelsCount r + 1) (ModelListChanged r)).

(** One object of the [.tuya.models] array: [houseconfig_string] gives a
    null pointer, and [houseconfig_integer] gives 0, for an item that is
    missing. *)
Record ConfigModel : Type := mkConfigModel {
  config_model_id : option (list byte);
  config_model_name : option (list byte);
  config_model_control : Z
}.

(** What [houseconfig] holds: whether a configuration is active, and the
    [.tuya.models] array when there is one; an element that is not found
    is [None]. *)
Record ModelConfig : Type := mkModelConfig {
  models_active : bool;
  models_array : option (list (option ConfigModel))
}.

(** The body of the loop of [housetuya_model_refresh] for one element of
    the array. *)
Definition refresh_model (e : option ConfigModel) (r : Registry)
    : res Registry :=
  match e with
  | None => Ok r
  | Some e =>
      match config_model_id e, config_model_name e with
      | Some id_, Some name_ =>
          if config_model_control e =? 0 then Ok r
          else
            do idx <- housetuya_model_search (Some id_) r;
            do '(idx, r) <-
              (if idx <? 0 then
                 do '(i, r) <- housetuya_model_add id_ r;
                 Ok (i, mkRegistry (Models r) (ModelsCount r) 1)
               else Ok (idx, r));
            do m <- model_row r idx;
            let '(name', changed1) :=
              match model_name m with
              | Some s =>
                  if bytes_eqb (cstr s) (cstr name_)
                  then (model_name m, false)
                  else (Some (cstr name_), true)
              | None => (Some (cstr name_), true)
              end in
            let changed2 :=
              negb (model_control m =? config_model_control e) in
            Ok (mkRegistry
                  (<[Z.to_nat idx :=
                       mkModel (model_id m) name'
                         (config_model_control e)]> (Models r))
                  (ModelsCount r)
                  (if changed1 || changed2 then 1 else ModelListChanged r))
      | _, _ => Ok r
      end
  end.

Fixpoint refresh_models (es : list (option ConfigModel)) (r : Registry)
    : res Registry :=
  match es with
  | [] => Ok r
  | e :: es' => do r' <- refresh_model e r; refresh_models es' r'
  end.

(** The array grown to [needed] rows, the new rows cleared. *)
Definition grown (needed : Z) (r : Registry) : Registry :=
  if needed >? ModelsSpace r
  then mkRegistry
         (Models r
          ++ repeat (mkModel None None 0) (Z.to_nat (needed - ModelsSpace r)))
         (ModelsCount r) (ModelListChanged r)
  else r.

(** [housetuya_model_refresh]: the error text returned, if any, and the
    registry, when [realloc] gives the memory asked for. The return of
    [no more memory], which leaves [Models] null with [ModelsCount] and
    [ModelsSpace] as they were, is left out. *)
Definition housetuya_model_refresh (c : ModelConfig) (r : Registry)
    : res (option string * Registry) :=
  if models_active c then
    match models_array c with
    | None => Ok (Some "cannot find models array"%string, r)
    | Some es =>
        let needed := Z.of_nat (length es) + 16 in
        do r' <- refresh_models es (grown needed r);
        Ok (None, r')
    end
  else Ok (None, mkRegistry (Models r) 0 (ModelListChanged r)).

(** An element of the array that has the three items without which it is
    skipped. *)
Definition complete_model (e : ConfigModel) : bool :=
  match config_model_id e, config_model_name e with
  | Some _, Some _ => negb (config_model_control e =? 0)
  | _, _ => false
  end.

(** An element of the array is about the model [id_], whatever the case
    of the letters. *)
Definition describes_model (e : option ConfigModel) (id_ : list byte)
    : bool :=
  match e with
  | Some e =>
      complete_model e
      && match config_model_id e with
         | Some eid => strcasecmp_eq (cstr id_) (cstr eid)
         | None => false
         end
  | None => false
  end.

(** The last element of the array that is about the model [id_]. *)
Fixpoint last_described (es : list (option ConfigModel)) (id_ : list byte)
    : option ConfigModel :=
  match es with
  | [] => None
  | e :: es' =>
      match last_described es' id_ with
      | Some e' => Some e'
      | None =>
          match e with
          | Some e0 => if describes_model e id_ then Some e0 else None
          | None => None
          end
      end
  end.

(** A stored string holds the value given, both read as C strings, or
    neither is there. *)
Definition holds_name (store value : option (list byte)) : Prop :=
  option_map cstr store = option_map cstr value.

(** The rows in use are within the array and have an id. *)
Definition well_formed (r : Registry) : Prop :=
  0 <= ModelsCount r <= ModelsSpace r
  /\ forall i m,
       (i < Z.to_nat (ModelsCount r))%nat -> Models r !! i = Some m ->
       model_id m <> None.

(** No row in use has the id [id_], whatever the case of the letters. *)
Definition unregistered (id_ : list byte) (r : Registry) : Prop :=
  housetuya_model_search (Some id_) r = Ok (-1).

(** The models of the examples: [n] models named with a letter and a
    number. *)
Definition example_models (letter : string) (n : nat)
    : list (option ConfigModel) :=
  List.map
    (fun k =>
       Some (mkConfigModel
               (Some (chars letter ++ Messages.decimal (Z.of_nat k)))
               (Some (chars "plug")) 1))
    (List.seq 0 n).

Definition example_registry : Registry :=
  Eval vm_compute in
    match housetuya_model_refresh
            (mkModelConfig true (Some (example_models "a" 2))) no_models with
    | Ok (_, r) => r
    | Fault _ => no_models
    end.

(** The registry after 17 models, then 16 others, were loaded. *)
Definition full_registry : Registry :=
  Eval vm_compute in
    match housetuya_model_refresh
            (mkModelConfig true (Some (example_models "a" 17))) no_models with
    | Ok (_, r) =>
        match housetuya_model_refresh
                (mkModelConfig true (Some (example_models "b" 16))) r with
        | Ok (_, r) => r
        | Fault _ => no_models
        end
    | Fault _ => no_models
    end.

End Model.
(** ** Facts on bytes *)

Module BytesFacts.
Import Bytes.

Lemma Z_of_byte_range b : 0 <= Z_of_byte b < 256.
Proof.
  unfold Z_of_byte. pose proof (Byte.to_N_bounded b). lia.
Qed.


Lemma Z_of_byte_of_Z z : Z_of_byte (byte_of_Z z) = z mod 256.
Proof.
  unfold byte_of_Z, Z_of_byte.
  pose proof (Z.mod_pos_bound z 256 ltac:(lia)) as Hr.
  destruct (Byte.of_N (Z.to_N (z mod 256))) as [b|] eqn:E.
  - apply Byte.to_of_N in E. rewrite E. lia.
  - apply Byte.of_N_None_iff in E. lia.
Qed.

Lemma all_bytes_complete b : In b all_bytes.
Proof.
  assert (H : existsb (Byte.eqb b) all_bytes = true)
    by (destruct b; vm_compute; reflexivity).
  apply existsb_exists in H. destruct H as (x & Hin & Heq).
  apply Byte.byte_dec_bl in Heq. subst. exact Hin.
Qed.

(** A property checked on the 256 bytes holds of every byte. *)
Lemma forall_byte (P : byte -> bool) :
  forallb P all_bytes = true -> forall b, P b = true.
Proof.
  intros H b. rewrite forallb_forall in H. apply H, all_bytes_complete.
Qed.

Lemma forall_byte2 (P : byte -> byte -> bool) :
  forallb (fun a => forallb (P a) all_bytes) all_bytes = true ->
  forall a b, P a b = true.
Proof.
  intros H a b.
  apply (forall_byte (P a)).
  apply (forall_byte (fun a => forallb (P a) all_bytes) H).
Qed.


Lemma word_of_bytes_range b3 b2 b1 b0 :
  0 <= word_of_bytes b3 b2 b1 b0 < 2 ^ 32.
Proof.
  unfold word_of_bytes.
  pose proof (Z_of_byte_range b3). pose proof (Z_of_byte_range b2).
  pose proof (Z_of_byte_range b1). pose proof (Z_of_byte_range b0).
  lia.
Qed.

Lemma length_be32 z : length (be32 z) = 4%nat.
Proof. reflexivity. Qed.

(** A word stored by [be32] is read back modulo [2^32]. *)
Lemma rd32_be32 (a b : list byte) z :
  rd32 (a ++ be32 z ++ b) (Z.of_nat (length a)) = Ok (z mod 2 ^ 32).
Proof.
  unfold rd32.
  rewrite !List.length_app, length_be32, Nat2Z.id, drop_app_length.
  replace (0 <=? Z.of_nat (length a)) with true
    by (symmetry; apply Z.leb_le; lia).
  replace (Z.of_nat (length a) + 4 <=? Z.of_nat (length a + (4 + length b)))
    with true by (symmetry; apply Z.leb_le; lia).
  cbn [andb be32 List.app]. f_equal.
  unfold word_of_bytes. rewrite !Z_of_byte_of_Z, !Z.shiftr_div_pow2 by lia.
  change (2 ^ 24) with 16777216. change (2 ^ 16) with 65536.
  change (2 ^ 8) with 256. change (2 ^ 32) with 4294967296.
  Z.div_mod_to_equations. lia.
Qed.

Lemma rd32_at (a : list byte) z (b : list byte) off :
  off = Z.of_nat (length a) ->
  rd32 (a ++ be32 z ++ b) off = Ok (z mod 2 ^ 32).
Proof. intros ->. apply rd32_be32. Qed.

Lemma to_int32_mod z :
  - 2 ^ 31 <= z < 2 ^ 31 -> to_int32 (z mod 2 ^ 32) = z.
Proof.
  intros H. unfold to_int32. rewrite Z.mod_mod by lia.
  change (2 ^ 31) with 2147483648 in *. change (2 ^ 32) with 4294967296.
  destruct (Z.ltb_spec (z mod 4294967296) 2147483648);
    Z.div_mod_to_equations; lia.
Qed.

(** The test for a return code: no bit set above the low byte. *)
Lemma high_bits_clear w :
  0 <= w < 2 ^ 32 -> (Z.land w 0xffffff00 =? 0) = (w <? 256).
Proof.
  intros H.
  assert (E : Z.land w 0xffffff00 = Z.shiftl (Z.shiftr w 8) 8).
  { rewrite <- Z.ldiff_ones_r by lia.
    apply Z.bits_inj'. intros n Hn.
    rewrite Z.land_spec, Z.ldiff_spec.
    destruct (Z.ltb_spec n 32) as [Hlt|Hge].
    - f_equal.
      change 0xffffff00 with (Z.ldiff (Z.ones 32) (Z.ones 8)).
      rewrite Z.ldiff_spec, Z.ones_spec_low by lia. reflexivity.
    - replace (Z.testbit w n) with false; [reflexivity|].
      symmetry. apply (Z.bits_above_log2 w n); [lia|].
      destruct (Z.eq_dec w 0) as [->|Hw]; [cbn; lia|].
      apply Z.log2_lt_pow2; [lia|].
      apply Z.lt_le_trans with (2 ^ 32); [lia|].
      apply Z.pow_le_mono_r; lia. }
  rewrite E, Z.shiftl_mul_pow2, Z.shiftr_div_pow2 by lia.
  change (2 ^ 8) with 256.
  destruct (Z.eqb_spec (w / 256 * 256) 0); destruct (Z.ltb_spec w 256);
    try reflexivity; Z.div_mod_to_equations; lia.
Qed.

Lemma byte_eqb_refl b : Byte.eqb b b = true.
Proof. apply Byte.byte_dec_lb. reflexivity. Qed.

Lemma byte_eqb_eq a b : Byte.eqb a b = true <-> a = b.
Proof. split; [apply Byte.byte_dec_bl | apply Byte.byte_dec_lb]. Qed.

Lemma byte_eqb_neq a b : Byte.eqb a b = false <-> a <> b.
Proof.
  split.
  - apply Byte.eqb_false.
  - intros H. destruct (Byte.eqb a b) eqn:E; [|reflexivity].
    apply byte_eqb_eq in E. contradiction.
Qed.


(** C strings. *)
Lemma cstr_nonzero l : Forall (fun b => b <> x00) (cstr l).
Proof.
  induction l as [|b l IH]; cbn; [constructor|].
  destruct (Byte.eqb b x00) eqn:E; [constructor|].
  constructor; [now apply byte_eqb_neq | exact IH].
Qed.

Lemma cstr_of_nonzero l : Forall (fun b => b <> x00) l -> cstr l = l.
Proof.
  induction 1 as [|b l Hb Hl IH]; [reflexivity|].
  cbn. apply byte_eqb_neq in Hb. now rewrite Hb, IH.
Qed.

Lemma cstr_idem l : cstr (cstr l) = cstr l.
Proof. apply cstr_of_nonzero, cstr_nonzero. Qed.

End BytesFacts.
(** ** The inverse cipher undoes the cipher *)

Module AESFacts.
Import AES.

Lemma to_bits_inj a b : Byte.to_bits a = Byte.to_bits b -> a = b.
Proof.
  intros H. rewrite <- (Byte.of_bits_to_bits a), <- (Byte.of_bits_to_bits b).
  now rewrite H.
Qed.

Lemma to_bits_bxor a b :
  Byte.to_bits (a (+) b) = xor_bits (Byte.to_bits a) (Byte.to_bits b).
Proof. apply Byte.to_bits_of_bits. Qed.

Lemma to_bits_xtime a : Byte.to_bits (xtime a) = xtime_bits (Byte.to_bits a).
Proof. apply Byte.to_bits_of_bits. Qed.

(** Equalities between xor-and-xtime expressions are settled bit by bit. *)
Ltac bitwise :=
  apply to_bits_inj;
  repeat (rewrite ?to_bits_bxor, ?to_bits_xtime);
  repeat match goal with
         | |- context [Byte.to_bits ?a] =>
             let x := fresh "x" in
             generalize (Byte.to_bits a); intros x;
             destruct x as (? & ? & ? & ? & ? & ? & ? & ?)
         end;
  cbv [xor_bits xtime_bits];
  repeat (f_equal; try btauto).

Lemma bxor_cancel a k : a (+) k (+) k = a.
Proof. bitwise. Qed.

Lemma bxor_comm a b : a (+) b = b (+) a.
Proof. bitwise. Qed.

Lemma bxor_assoc a b c : a (+) (b (+) c) = a (+) b (+) c.
Proof. bitwise. Qed.

Lemma inv_mix_column_mix_column w : inv_mix_column (mix_column w) = w.
Proof.
  destruct w as [[[a b] c] d].
  unfold inv_mix_column, mix_column, mul2, mul3, mul9, mul11, mul13, mul14.
  repeat apply f_equal2; bitwise.
Qed.

Lemma inv_sbox_sbox b : inv_sbox (sbox b) = b.
Proof.
  apply Byte.byte_dec_bl.
  apply (BytesFacts.forall_byte (fun b => Byte.eqb (inv_sbox (sbox b)) b)).
  vm_compute. reflexivity.
Qed.

Lemma xor_word_cancel w k : xor_word (xor_word w k) k = w.
Proof.
  destruct w as [[[a b] c] d], k as [[[a' b'] c'] d']. simpl.
  now rewrite !bxor_cancel.
Qed.

Lemma add_round_key_cancel s rk : add_round_key (add_round_key s rk) rk = s.
Proof.
  destruct s as [[[c0 c1] c2] c3], rk as [[[k0 k1] k2] k3]. simpl.
  now rewrite !xor_word_cancel.
Qed.

Lemma inv_shift_rows_shift_rows s : inv_shift_rows (shift_rows s) = s.
Proof.
  destruct s as [[[[[[a0 a1] a2] a3] [[[b0 b1] b2] b3]]
                    [[[c0 c1] c2] c3]] [[[d0 d1] d2] d3]].
  reflexivity.
Qed.

Lemma inv_sub_bytes_sub_bytes s : inv_sub_bytes (sub_bytes s) = s.
Proof.
  destruct s as [[[[[[a0 a1] a2] a3] [[[b0 b1] b2] b3]]
                    [[[c0 c1] c2] c3]] [[[d0 d1] d2] d3]].
  unfold inv_sub_bytes, sub_bytes. simpl.
  now rewrite !inv_sbox_sbox.
Qed.

Lemma inv_mix_columns_mix_columns s : inv_mix_columns (mix_columns s) = s.
Proof.
  destruct s as [[[c0 c1] c2] c3].
  unfold inv_mix_columns, mix_columns, map_block.
  now rewrite !inv_mix_column_mix_column.
Qed.

Lemma inv_round_round rk s : inv_round rk (round rk s) = s.
Proof.
  unfold inv_round, round.
  now rewrite add_round_key_cancel, inv_mix_columns_mix_columns,
    inv_shift_rows_shift_rows, inv_sub_bytes_sub_bytes.
Qed.

Lemma inv_final_round_final_round rk s :
  inv_final_round rk (final_round rk s) = s.
Proof.
  unfold inv_final_round, final_round.
  now rewrite add_round_key_cancel, inv_shift_rows_shift_rows,
    inv_sub_bytes_sub_bytes.
Qed.

Lemma inv_rounds_rounds rks : forall s, inv_rounds rks (rounds rks s) = s.
Proof.
  induction rks as [|rk rks IH]; intros s; [reflexivity|].
  destruct rks as [|rk' rks'].
  - apply inv_final_round_final_round.
  - change (inv_round rk (inv_rounds (rk' :: rks')
              (rounds (rk' :: rks') (round rk s))) = s).
    now rewrite IH, inv_round_round.
Qed.

(** Decrypting a block with the key it was encrypted with gives it back. *)
Lemma inv_cipher_cipher key s : inv_cipher key (cipher key s) = s.
Proof.
  unfold inv_cipher, cipher.
  now rewrite inv_rounds_rounds, add_round_key_cancel.
Qed.

(** FIPS-197, appendix C.1. *)
Example fips197_c1 :
  let key := Blocks.block_of_bytes x00 x01 x02 x03 x04 x05 x06 x07
                                   x08 x09 x0a x0b x0c x0d x0e x0f in
  let plain := Blocks.block_of_bytes x00 x11 x22 x33 x44 x55 x66 x77
                                     x88 x99 xaa xbb xcc xdd xee xff in
  cipher key plain =
    Blocks.block_of_bytes x69 xc4 xe0 xd8 x6a x7b x04 x30
                          xd8 xcd xb7 x80 x70 xb4 xc5 x5a.
Proof. vm_compute. reflexivity. Qed.

(** FIPS-197, appendix B. *)
Example fips197_b :
  let key := Blocks.block_of_bytes x2b x7e x15 x16 x28 xae xd2 xa6
                                   xab xf7 x15 x88 x09 xcf x4f x3c in
  let plain := Blocks.block_of_bytes x32 x43 xf6 xa8 x88 x5a x30 x8d
                                     x31 x31 x98 xa2 xe0 x37 x07 x34 in
  cipher key plain =
    Blocks.block_of_bytes x39 x25 x84 x1d x02 xdc x09 xfb
                          xdc x11 x85 x97 x19 x6a x0b x32.
Proof. vm_compute. reflexivity. Qed.

End AESFacts.

(** ** ECB with PKCS#7 padding *)

Module CryptoFacts.
Import Bytes BytesFacts AES Blocks Crypto.

Lemma unblocks_cons b bs : unblocks (b :: bs) = bytes_of_block b ++ unblocks bs.
Proof. reflexivity. Qed.

Lemma blocks_unblocks bs : blocks (unblocks bs) = bs.
Proof.
  induction bs as [|b bs IH]; [reflexivity|].
  destruct b as [[[[[[a0 a1] a2] a3] [[[b0 b1] b2] b3]]
                    [[[c0 c1] c2] c3]] [[[d0 d1] d2] d3]].
  rewrite unblocks_cons. cbn [bytes_of_block List.app blocks].
  now rewrite IH.
Qed.

Lemma unblocks_blocks_exact n :
  forall l, length l = (16 * n)%nat -> unblocks (blocks l) = l.
Proof.
  induction n as [|n IH]; intros l Hl.
  - destruct l; [reflexivity | discriminate].
  - do 16 (destruct l as [|? l]; [cbn in Hl; lia|]).
    cbn [blocks]. rewrite unblocks_cons.
    cbn [block_of_bytes bytes_of_block List.app].
    rewrite IH; [reflexivity | cbn in Hl; lia].
Qed.

Lemma unblocks_blocks l :
  (length l mod 16 = 0)%nat -> unblocks (blocks l) = l.
Proof.
  intros H. apply (unblocks_blocks_exact (length l / 16)).
  pose proof (Nat.div_mod_eq (length l) 16). lia.
Qed.

Lemma length_unblocks bs : length (unblocks bs) = (16 * length bs)%nat.
Proof.
  induction bs as [|b bs IH]; [reflexivity|].
  rewrite unblocks_cons, List.length_app, IH.
  destruct b as [[[[[[a0 a1] a2] a3] [[[b0 b1] b2] b3]]
                    [[[c0 c1] c2] c3]] [[[d0 d1] d2] d3]].
  cbn [bytes_of_block length]. lia.
Qed.

Lemma length_ecb_encrypt k l :
  (length l mod 16 = 0)%nat -> length (ecb_encrypt k l) = length l.
Proof.
  intros H. unfold ecb_encrypt.
  rewrite length_unblocks, List.length_map.
  rewrite <- (unblocks_blocks l H) at 2. now rewrite length_unblocks.
Qed.

Lemma ecb_decrypt_encrypt k l :
  (length l mod 16 = 0)%nat -> ecb_decrypt k (ecb_encrypt k l) = l.
Proof.
  intros H. unfold ecb_decrypt, ecb_encrypt.
  rewrite blocks_unblocks, List.map_map.
  rewrite (List.map_ext _ (fun b => b)) by (intros; apply AESFacts.inv_cipher_cipher).
  rewrite List.map_id. now apply unblocks_blocks.
Qed.

Lemma length_pkcs7_pad clear :
  length (pkcs7_pad clear)
  = (length clear + (16 - length clear mod 16))%nat.
Proof. unfold pkcs7_pad. now rewrite List.length_app, List.repeat_length. Qed.

Lemma pkcs7_pad_whole clear : (length (pkcs7_pad clear) mod 16 = 0)%nat.
Proof.
  rewrite length_pkcs7_pad.
  pose proof (Nat.div_mod_eq (length clear) 16) as E.
  pose proof (Nat.mod_upper_bound (length clear) 16 ltac:(lia)) as B.
  replace (length clear + (16 - length clear mod 16))%nat
    with ((length clear / 16 + 1) * 16)%nat by lia.
  apply Nat.Div0.mod_mul.
Qed.

Lemma last_app_repeat (b : byte) n l :
  (0 < n)%nat -> List.last (l ++ repeat b n) x00 = b.
Proof.
  intros Hn. destruct n as [|n]; [lia|].
  change (repeat b (S n)) with (b :: repeat b n).
  rewrite (repeat_cons n b), List.app_assoc. apply List.last_last.
Qed.

Lemma forallb_eqb_repeat (b : byte) n : forallb (Byte.eqb b) (repeat b n) = true.
Proof.
  induction n as [|n IH]; [reflexivity|].
  cbn. rewrite IH, (Byte.byte_dec_lb eq_refl). reflexivity.
Qed.

Lemma pkcs7_unpad_pad clear : pkcs7_unpad (pkcs7_pad clear) = Some clear.
Proof.
  pose proof (Nat.mod_upper_bound (length clear) 16 ltac:(lia)) as B.
  unfold pkcs7_unpad. rewrite length_pkcs7_pad. unfold pkcs7_pad.
  set (n := (16 - length clear mod 16)%nat) in *.
  assert (Hn : (1 <= n <= 16)%nat) by (subst n; lia).
  rewrite last_app_repeat by lia.
  rewrite Z_of_byte_of_Z, Z.mod_small by lia.
  rewrite Nat2Z.id.
  replace (Z.of_nat n =? 0) with false by (symmetry; apply Z.eqb_neq; lia).
  replace (16 <? Z.of_nat n) with false by (symmetry; apply Z.ltb_ge; lia).
  cbn [orb].
  replace (length clear + n - n)%nat with (length clear) by lia.
  rewrite drop_app_length, take_app_length, forallb_eqb_repeat.
  reflexivity.
Qed.

Lemma terminate_end (clear : list byte) :
  terminate clear (length clear) = clear ++ [x00].
Proof.
  unfold terminate.
  rewrite firstn_all, (drop_ge clear (S (length clear))) by lia.
  reflexivity.
Qed.

Lemma read_key_16 key :
  length key = 16%nat -> read_key key = Ok (key_block key).
Proof. intros H. unfold read_key. now rewrite H. Qed.

(** Under a 16-byte key, on whole blocks that are in the buffer,
    [housetuya_decrypt] is what follows [EVP_DecryptFinal_ex]. *)
Lemma housetuya_decrypt_whole key encrypted length :
  List.length key = 16%nat ->
  0 < length -> length mod 16 = 0 ->
  length <= Z.of_nat (List.length encrypted) ->
  housetuya_decrypt (Some key) encrypted length
  = let encrypted := take (Z.to_nat length) encrypted in
    match pkcs7_unpad (ecb_decrypt (key_block key) encrypted) with
    | None => Ok (0, update_written (key_block key) encrypted)
    | Some clear =>
        let clear_length := Z.of_nat (List.length clear) in
        match clear with
        | [] => Fault OutOfBounds
        | _ :: _ =>
            let b := Z_of_byte (List.last clear x00) in
            let clear_length :=
              if (0 <? b) && (b <? 16) then clear_length - b
              else clear_length in
            if clear_length <? 0 then Fault OutOfBounds
            else Ok (clear_length, terminate clear (Z.to_nat clear_length))
        end
    end.
Proof.
  intros Hk Hpos Hmod Hlen. unfold housetuya_decrypt.
  rewrite (read_key_16 key Hk). cbn [res_bind].
  replace (length <? 0) with false by (symmetry; apply Z.ltb_ge; lia).
  replace (_ <? length) with false by (symmetry; apply Z.ltb_ge; lia).
  replace (length =? 0) with false by (symmetry; apply Z.eqb_neq; lia).
  rewrite Hmod. reflexivity.
Qed.

(** What the encryption of [clear] is, under a 16-byte key. *)
Lemma housetuya_encrypt_ok key clear :
  length key = 16%nat ->
  housetuya_encrypt (Some key) clear (Z.of_nat (length clear))
  = Ok (ecb_encrypt (key_block key) (pkcs7_pad clear)).
Proof.
  intros Hk. unfold housetuya_encrypt. rewrite (read_key_16 key Hk). cbn [res_bind].
  replace (Z.of_nat (length clear) <? 0) with false
    by (symmetry; apply Z.ltb_ge; lia).
  rewrite Z.ltb_irrefl, Nat2Z.id, firstn_all. reflexivity.
Qed.

(** Decryption of what was encrypted, when the clear text is not empty
    and does not end with a byte between 1 and 15; [rest] is what follows
    the encrypted bytes in the buffer. *)
Lemma housetuya_decrypt_ecb key clear rest :
  length key = 16%nat ->
  clear <> [] ->
  ~ (0 < Z_of_byte (List.last clear x00) < 16) ->
  let encrypted := ecb_encrypt (key_block key) (pkcs7_pad clear) in
  housetuya_decrypt (Some key) (encrypted ++ rest)
    (Z.of_nat (length encrypted))
  = Ok (Z.of_nat (length clear), clear ++ [x00]).
Proof.
  intros Hk Hne Hlast encrypted.
  assert (Hlen : length encrypted = length (pkcs7_pad clear))
    by apply length_ecb_encrypt, pkcs7_pad_whole.
  pose proof (pkcs7_pad_whole clear) as Hw.
  pose proof (length_pkcs7_pad clear) as Hp.
  pose proof (Nat.mod_upper_bound (length clear) 16 ltac:(lia)) as B.
  rewrite housetuya_decrypt_whole;
    [ | exact Hk | lia
      | rewrite Hlen; change 16 with (Z.of_nat 16);
        rewrite <- Nat2Z.inj_mod; now rewrite Hw
      | rewrite List.length_app; lia ].
  cbv zeta.
  rewrite Nat2Z.id, take_app_length.
  subst encrypted. rewrite ecb_decrypt_encrypt by exact Hw.
  rewrite pkcs7_unpad_pad.
  destruct clear as [|c clear']; [contradiction|].
  set (l := c :: clear') in *.
  replace ((0 <? Z_of_byte (List.last l x00)) && (Z_of_byte (List.last l x00) <? 16))
    with false.
  2:{ symmetry. apply andb_false_iff.
      destruct (Z.ltb_spec 0 (Z_of_byte (List.last l x00)));
        destruct (Z.ltb_spec (Z_of_byte (List.last l x00)) 16); auto; lia. }
  replace (Z.of_nat (length l) <? 0) with false
    by (symmetry; apply Z.ltb_ge; lia).
  now rewrite Nat2Z.id, terminate_end.
Qed.

(** Away from the bytes that the second removal of padding takes: for
    every 16-byte key and every clear text that is not empty and whose
    last byte is not between 1 and 15, [housetuya_encrypt] succeeds and
    [housetuya_decrypt], given the same key and the encrypted bytes,
    returns the clear text's length and leaves the clear text followed by
    a NUL. *)
Lemma housetuya_decrypt_encrypt key clear :
  length key = 16%nat ->
  clear <> [] ->
  ~ (0 < Z_of_byte (List.last clear x00) < 16) ->
  exists encrypted,
    housetuya_encrypt (Some key) clear (Z.of_nat (length clear)) = Ok encrypted
    /\ housetuya_decrypt (Some key) encrypted (Z.of_nat (length encrypted))
       = Ok (Z.of_nat (length clear), clear ++ [x00]).
Proof.
  intros Hk Hne Hlast.
  exists (ecb_encrypt (key_block key) (pkcs7_pad clear)). split.
  - now apply housetuya_encrypt_ok.
  - rewrite <- (List.app_nil_r (ecb_encrypt _ _)) at 1.
    now apply housetuya_decrypt_ecb.
Qed.

(** The round trip, as claimed for every key and clear text, fails on a
    clear text that ends with the byte 1. *)
Lemma round_trip_claim_fails :
  ~ round_trip_claim (chars "0123456789abcdef") [x41; x01].
Proof.
  intros H.
  specialize
    (H _ (housetuya_encrypt_ok (chars "0123456789abcdef") [x41; x01] eq_refl)).
  vm_compute in H. discriminate H.
Qed.

(** C8. The round trip of [housetuya_encrypt] and [housetuya_decrypt] is
    broken by the statement of [housetuya_decrypt] under the comment
    [Remove AES padding, if any]: [EVP_DecryptFinal_ex] has removed the
    padding already, and what the statement removes is clear text. Under
    the key [0123456789abcdef], the clear text 41 01 comes back with the
    length 1 and the bytes 41 00; for the clear text 05 the NUL is
    written 4 bytes before the buffer; for the empty clear text the byte
    before the buffer is read. *)
Theorem housetuya_decrypt_removes_clear_text :
  let key := Some (chars "0123456789abcdef") in
  (exists encrypted,
     housetuya_encrypt key [x41; x01] 2 = Ok encrypted
     /\ housetuya_decrypt key encrypted 16 = Ok (1, [x41; x00]))
  /\ (exists encrypted,
        housetuya_encrypt key [x05] 1 = Ok encrypted
        /\ housetuya_decrypt key encrypted 16 = Fault OutOfBounds)
  /\ (exists encrypted,
        housetuya_encrypt key [] 0 = Ok encrypted
        /\ housetuya_decrypt key encrypted 16 = Fault OutOfBounds).
Proof.
  cbv zeta. repeat split; eexists; (split; [reflexivity|]);
    vm_compute; reflexivity.
Qed.

End CryptoFacts.

(** ** The envelope *)

Module MessagesFacts.
Import Bytes BytesFacts AES Blocks Crypto CryptoFacts Messages.

Lemma length_envelope sequence code body :
  length (envelope sequence code body) = (24 + length body)%nat.
Proof.
  unfold envelope. rewrite !List.length_app, !length_be32. lia.
Qed.

(** Closing the envelope gives the layout. *)
Lemma end_envelop_layout sequence code body :
  housetuya_end_envelop_pre34
    (housetuya_start_envelop sequence code ++ body)
    (16 + Z.of_nat (length body))
  = envelope sequence code body.
Proof.
  unfold housetuya_end_envelop_pre34, housetuya_start_envelop, envelope.
  set (words := be32 21930 ++ be32 sequence ++ be32 code).
  set (len := be32 (16 + Z.of_nat (length body) - 8)).
  assert (Hw : length words = 12%nat) by reflexivity.
  assert (Hl : length len = 4%nat) by reflexivity.
  replace (be32 21930 ++ be32 sequence ++ be32 code ++ [x00; x00; x00; x00])
    with (words ++ [x00; x00; x00; x00])
    by (unfold words; now rewrite <- !List.app_assoc).
  replace (be32 21930 ++ be32 sequence ++ be32 code ++ len ++ body
           ++ be32 (Crc.housetuya_crc body) ++ be32 43605)
    with ((words ++ len ++ body)
          ++ be32 (Crc.housetuya_crc body) ++ be32 43605)
    by (unfold words; now rewrite <- !List.app_assoc).
  rewrite (drop_app_length' (words ++ [x00; x00; x00; x00]) body 16)
    by (rewrite List.length_app, Hw; reflexivity).
  rewrite <- (List.app_assoc words _ body).
  rewrite (take_app_length' words _ 12 Hw).
  rewrite (List.app_assoc words len body).
  rewrite (drop_app_length' (words ++ len) body 16)
    by (rewrite List.length_app, Hw, Hl; reflexivity).
  rewrite (take_ge body) by lia.
  rewrite (take_ge ((words ++ len) ++ body))
    by (rewrite !List.length_app, Hw, Hl; lia).
  now rewrite <- !List.app_assoc.
Qed.


(** Every frame the encoder leaves is a closed envelope. *)
Lemma housetuya_encode_shape size access code sequence data frame :
  housetuya_encode size access code sequence data = Ok frame ->
  frame = [] \/ exists body, frame = envelope sequence code body.
Proof.
  unfold housetuya_encode.
  destruct (_ >? _); [intros [= <-]; now left|].
  destruct (negb (code =? TUYA_QUERY) && negb (code =? TUYA_UPDATE)).
  - destruct (version access) as [v|]; [|discriminate].
    cbn [res_bind].
    destruct (housetuya_encrypt _ _ _) as [enc|]; [|discriminate].
    cbn [res_bind]. intros [= <-]. right. exists (strncpy_15 v ++ enc).
    rewrite <- end_envelop_layout.
    apply f_equal2; [reflexivity | rewrite List.length_app; lia].
  - cbn [res_bind].
    destruct (housetuya_encrypt _ _ _) as [enc|]; [|discriminate].
    cbn [res_bind]. intros [= <-]. right. exists enc.
    rewrite <- end_envelop_layout.
    apply f_equal2; [reflexivity | lia].
Qed.


Lemma crc_covers_envelope sequence code body :
  crc_covers 16 (envelope sequence code body).
Proof.
  unfold crc_covers. rewrite length_envelope.
  replace (24 + length body - 8)%nat with (16 + length body)%nat by lia.
  unfold envelope.
  rewrite !List.app_assoc.
  rewrite <- (List.app_assoc _ (be32 (Crc.housetuya_crc body))).
  set (head := ((be32 21930 ++ be32 sequence) ++ be32 code)
                 ++ be32 (16 + Z.of_nat (length body) - 8)).
  assert (Hh : length head = 16%nat) by reflexivity.
  assert (Hl : length (head ++ body) = (16 + length body)%nat)
    by (rewrite List.length_app; lia).
  rewrite <- Hl, drop_app_length, take_app_length.
  rewrite <- Hh, drop_app_length.
  reflexivity.
Qed.

(** C2, as amended. In every frame that the encoder produces, the CRC
    field holds the CRC-32 of the bytes from offset 16 up to that field:
    the extended header, when there is one, and the encrypted payload.
    The prefix, the sequence, the command and the length words are not
    covered. *)
Theorem crc_of_encoded_frame size access code sequence data frame :
  housetuya_encode size access code sequence data = Ok frame ->
  frame <> [] ->
  crc_covers 16 frame.
Proof.
  intros H Hne.
  destruct (housetuya_encode_shape _ _ _ _ _ _ H) as [->|[body ->]];
    [contradiction|].
  apply crc_covers_envelope.
Qed.


Lemma rd32_skip (a m : list byte) off :
  0 <= off ->
  rd32 (a ++ m) (Z.of_nat (length a) + off) = rd32 m off.
Proof.
  intros Hoff. unfold rd32.
  rewrite List.length_app, Nat2Z.inj_add.
  replace (0 <=? Z.of_nat (length a) + off) with (0 <=? off)
    by (destruct (Z.leb_spec 0 off); destruct (Z.leb_spec 0 (Z.of_nat (length a) + off)); lia).
  replace (Z.of_nat (length a) + off + 4 <=? Z.of_nat (length a) + Z.of_nat (length m))
    with (off + 4 <=? Z.of_nat (length m))
    by (destruct (Z.leb_spec (off + 4) (Z.of_nat (length m)));
        destruct (Z.leb_spec (Z.of_nat (length a) + off + 4)
                    (Z.of_nat (length a) + Z.of_nat (length m))); lia).
  rewrite Z2Nat.inj_add, Nat2Z.id by lia.
  now rewrite drop_app_add.
Qed.

Section Envelope.

Variables (sequence code : Z) (body : list byte).
Hypothesis Hseq : - 2 ^ 31 <= sequence < 2 ^ 31.
Hypothesis Hcode : - 2 ^ 31 <= code < 2 ^ 31.
Hypothesis Hbody : Z.of_nat (length body) < 2 ^ 31 - 8.

Let frame := envelope sequence code body.
Let trailer := be32 (Crc.housetuya_crc body) ++ be32 0x0000aa55.




End Envelope.



(** On a string without NUL, [strcmp] finds equality exactly when the
    memory holds the string followed by a NUL. *)
Lemma strcmp_eq_true s : forall mem,
  Forall (fun b => b <> x00) s ->
  strcmp_eq s mem = Ok true <-> c_string_at s mem.
Proof.
  induction s as [|c s IH]; intros mem Hs.
  - destruct mem as [|m mem]; cbn.
    + split; [discriminate | intros [rest H]; discriminate].
    + split.
      * intros [= H]. apply byte_eqb_eq in H. subst. now exists mem.
      * intros [rest [= -> _]]. reflexivity.
  - inversion Hs as [|? ? Hc Hs']; subst.
    destruct mem as [|m mem]; cbn.
    + split; [discriminate | intros [rest H]; discriminate].
    + destruct (Byte.eqb c m) eqn:E.
      * apply byte_eqb_eq in E. subst m. rewrite (IH mem Hs'). split.
        -- intros [rest ->]. now exists rest.
        -- intros [rest [= ->]]. now exists rest.
      * apply byte_eqb_neq in E. split; [discriminate|].
        intros [rest [= Hm _]]. congruence.
Qed.

Lemma strcmp_eq_total s : forall mem,
  (length s < length mem)%nat -> exists b, strcmp_eq s mem = Ok b.
Proof.
  induction s as [|c s IH]; intros mem Hlen.
  - destruct mem as [|m mem]; [cbn in Hlen; lia|]. cbn. eauto.
  - destruct mem as [|m mem]; [cbn in Hlen; lia|]. cbn.
    destruct (Byte.eqb c m); [|eauto]. apply IH. cbn in Hlen. lia.
Qed.

Lemma length_strncpy_15 v : length (strncpy_15 v) = 15%nat.
Proof.
  unfold strncpy_15. rewrite length_take, List.length_app, List.repeat_length. lia.
Qed.










(** The commands are C strings: no NUL inside, a closing brace last. *)
Lemma digits_nonzero d :
  Forall (fun b => b <> x00) (list_byte_of_string (NilEmpty.string_of_uint d)).
Proof.
  unfold list_byte_of_string.
  induction d; cbn; constructor; try exact IHd; discriminate.
Qed.

Lemma decimal_nonzero z : Forall (fun b => b <> x00) (decimal z).
Proof.
  unfold decimal, NilZero.string_of_int, NilZero.string_of_uint.
  destruct (Z.to_int z) as [d|d].
  - destruct d; try apply digits_nonzero.
    repeat constructor; discriminate.
  - unfold list_byte_of_string. cbn. constructor; [discriminate|].
    destruct d; try apply digits_nonzero.
    repeat constructor; discriminate.
Qed.





Lemma last_app_brace (l : list byte) : List.last (l ++ chars "}") x00 = "}"%byte.
Proof. apply List.last_last. Qed.








Lemma crc_of_encoded_frame_witness : crc_covers 16 example_query_frame.
Proof.
  apply (crc_of_encoded_frame 1024 example_secret TUYA_QUERY 0
           (snprintf_1024 (query_command example_secret 1700000000))).
  - vm_compute. reflexivity.
  - discriminate.
Defined.

(** C2, as stated, fails on the QUERY frame of the example: its CRC field
    is not the CRC of the bytes from offset 4 on. *)
Lemma crc_claim_fails :
  housetuya_query 1024 example_secret 0 1700000000 = Ok example_query_frame
  /\ ~ crc_covers 4 example_query_frame.
Proof.
  split; [vm_compute; reflexivity|].
  unfold crc_covers. vm_compute. intros H. discriminate H.
Qed.




(** With a secret, a result that is not positive is turned into 0. *)
Lemma extract_with_secret_nonnegative size secret raw length e :
  housetuya_extract size (Some secret) raw length = Ok e ->
  0 <= extracted_length e.
Proof.
  unfold housetuya_extract.
  destruct (length <=? 0); [intros [= <-]; cbn; lia|].
  destruct (housetuya_open_envelop _ _ _) as [o|]; [|discriminate].
  cbn [res_bind].
  destruct (opened_length o <=? 0); [intros [= <-]; cbn; lia|].
  destruct (housetuya_decrypt _ _ _) as [[datalen buffer]|]; [|discriminate].
  cbn [res_bind].
  destruct (Z.leb_spec datalen 0); intros [= <-]; cbn; lia.
Qed.

(** C3 fails on the code. On a 20-byte datagram made of a header that
    announces 4 bytes and of the suffix, decoded without a secret as on
    the plain-text discovery port, [housetuya_open_envelop] returns -4;
    [housetuya_extract] does not turn that into 0, as it does when it has
    a secret, and hands -4 to [memcpy] as the number of bytes to copy. *)
Theorem extract_short_frame_faults :
  housetuya_open_envelop None short_frame 20
    = Ok (mkOpened (-4) 16 (Some 0) (Some 0))
  /\ housetuya_extract 1024 None short_frame 20 = Fault OutOfBounds.
Proof. split; vm_compute; reflexivity. Qed.

(** C9, as amended. For every inbound frame that passes the envelope
    checks (a frame that fails them leaves [*data] unset, offset 0 here),
    decoded with a version string that can be compared within the buffer,
    15 bytes are skipped exactly when the payload as received, before any
    decryption, begins with the characters of the version string followed
    by a NUL (the test is [strcmp]); the bytes after that NUL are not
    looked at. Otherwise the payload is passed whole. *)
Theorem extended_header_sniff v raw length whole :
  housetuya_open_envelop None raw length = Ok whole ->
  opened_data whole <> 0 ->
  Z.of_nat (List.length (cstr v))
    < Z.of_nat (List.length raw) - opened_data whole ->
  let payload := drop (Z.to_nat (opened_data whole)) raw in
  exists sniffed,
    housetuya_open_envelop (Some v) raw length = Ok sniffed
    /\ (c_string_at (cstr v) payload ->
        sniffed = mkOpened (opened_length whole - 15) (opened_data whole + 15)
                    (opened_sequence whole) (opened_code whole))
    /\ (~ c_string_at (cstr v) payload -> sniffed = whole).
Proof.
  unfold housetuya_open_envelop.
  destruct (rd32 raw 0) as [prefix|]; [|discriminate]. cbn [res_bind].
  destruct (negb (to_int32 prefix =? 21930));
    [intros [= <-] Hdata; now cbn in Hdata|].
  destruct (rd32 raw 4) as [sequence|]; [|discriminate]. cbn [res_bind].
  destruct (rd32 raw 8) as [code|]; [|discriminate]. cbn [res_bind].
  destruct (rd32 raw 12) as [payload_length|]; [|discriminate].
  cbn [res_bind].
  destruct (negb (to_int32 payload_length =? length - 16));
    [intros [= <-] Hdata; now cbn in Hdata|].
  destruct (rd32 raw (length - 8 + 4)) as [suffix|]; [|discriminate].
  cbn [res_bind].
  destruct (negb (to_int32 suffix =? 43605));
    [intros [= <-] Hdata; now cbn in Hdata|].
  unfold open_payload.
  destruct (rd32 raw 16) as [word4|]; [|discriminate]. cbn [res_bind].
  destruct (if negb (Z.land word4 4294967040 =? 0)
            then (16, length - (16 + 8)) else (20, length - (20 + 8)))
    as [data len] eqn:Epair.
  intros [= <-] Hdata Hroom.
  cbn [opened_data opened_length opened_sequence opened_code] in *.
  set (payload := drop (Z.to_nat data) raw).
  assert (Hd : 0 <= data)
    by (destruct (negb _) in Epair; injection Epair as <- <-; lia).
  destruct (strcmp_eq_total (cstr v) (drop (Z.to_nat data) raw)) as [b Hb].
  { rewrite length_drop. lia. }
  fold payload in Hb. rewrite Hb. cbn [res_bind].
  pose proof (strcmp_eq_true (cstr v) payload (cstr_nonzero v)) as Hiff.
  destruct b.
  - eexists. split; [reflexivity|]. split; [reflexivity|].
    intros Hn. exfalso. apply Hn, Hiff, Hb.
  - eexists. split; [reflexivity|]. split; [|reflexivity].
    intros Hc. apply Hiff in Hc. congruence.
Qed.

Lemma extended_header_sniff_witness :
  exists sniffed,
    housetuya_open_envelop (Some (chars "3.3")) example_control_frame 103
      = Ok sniffed
    /\ (c_string_at (chars "3.3") (drop 16 example_control_frame) ->
        sniffed = mkOpened 64 31 (Some 5) (Some 7))
    /\ (~ c_string_at (chars "3.3") (drop 16 example_control_frame) ->
        sniffed = mkOpened 79 16 (Some 5) (Some 7)).
Proof.
  apply (extended_header_sniff (chars "3.3") example_control_frame 103
           (mkOpened 79 16 (Some 5) (Some 7))).
  - vm_compute. reflexivity.
  - cbn. lia.
  - vm_compute. reflexivity.
Defined.

(** C9, as stated, fails on a frame whose payload starts with the
    version and a NUL followed by other bytes: 15 bytes are skipped,
    although neither the payload as received nor its decryption begins
    with the 15 bytes of the version field. *)
Lemma sniff_claim_fails :
  ~ sniff_claim_decrypted example_secret (chars "3.3") junk_header_frame 55
  /\ ~ sniff_claim_received (chars "3.3") junk_header_frame 55.
Proof.
  assert (Hwhole : housetuya_open_envelop None junk_header_frame 55
                   = Ok (mkOpened 31 16 (Some 0) (Some 8)))
    by (vm_compute; reflexivity).
  assert (Hsniffed : housetuya_open_envelop (Some (chars "3.3"))
                       junk_header_frame 55
                     = Ok (mkOpened 16 31 (Some 0) (Some 8)))
    by (vm_compute; reflexivity).
  split; intros H; destruct (H _ _ Hwhole Hsniffed) as [Hskip _].
  - destruct (Hskip eq_refl) as (n & clear & Hd & Hc).
    vm_compute in Hd. injection Hd as <- <-. vm_compute in Hc.
    discriminate Hc.
  - specialize (Hskip eq_refl). vm_compute in Hskip. discriminate Hskip.
Qed.

End MessagesFacts.

(** ** The device engine *)

Module DeviceFacts.
Import Bytes Messages Device.

(** *** Rows *)

Lemma row_lookup w i d :
  0 <= i -> Devices w !! Z.to_nat i = Some d -> row w i = Ok d.
Proof.
  intros Hi Hd. unfold row.
  replace (i <? 0) with false by (symmetry; apply Z.ltb_ge; lia).
  now rewrite Hd.
Qed.

Lemma row_beyond w : row w (DevicesCount w) = Fault RowBeyondTable.
Proof.
  unfold row, DevicesCount.
  replace (_ <? 0) with false by (symmetry; apply Z.ltb_ge; lia).
  rewrite Nat2Z.id.
  now rewrite (proj2 (lookup_ge_None (Devices w) (length (Devices w)))).
Qed.

Lemma at_row_ok {A} i (f : Cell -> A * Cell) w d :
  0 <= i -> Devices w !! Z.to_nat i = Some d ->
  at_row i f w
  = Ok (fst (f (d, Log w)),
        mkWorld (<[Z.to_nat i := fst (snd (f (d, Log w)))]> (Devices w))
                (DeviceListChanged w) (LastRetry w)
                (snd (snd (f (d, Log w))))).
Proof.
  intros Hi Hd. unfold at_row. rewrite (row_lookup w i d Hi Hd).
  cbn [res_bind]. now destruct (f (d, Log w)) as [a [d' log']].
Qed.

(** *** What does not touch the command state of a row

    The observed and commanded states, the two deadlines and the time of
    detection are not written by the functions that manage the socket. *)

Lemma close_intent c :
  intent (fst (housetuya_device_close c)) = intent (fst c).
Proof.
  destruct c as [dev log]. unfold housetuya_device_close.
  now destruct (0 <=? socket dev).
Qed.

Lemma close_socket c : socket (fst (housetuya_device_close c)) < 0.
Proof.
  destruct c as [dev log]. unfold housetuya_device_close.
  destruct (Z.leb_spec 0 (socket dev)); cbn; lia.
Qed.

Section Env.

Variable env : Env.

Lemma preamble_intent c :
  intent (fst (snd (housetuya_device_preamble env c))) = intent (fst c).
Proof.
  destruct c as [dev log]. unfold housetuya_device_preamble.
  destruct (ipaddress dev =? 0); [reflexivity|].
  destruct (negb (encrypted dev =? 0) && _); [reflexivity|].
  set (dev1 := if control dev <=? 0 then _ else dev).
  assert (H1 : intent dev1 = intent dev)
    by (subst dev1; now destruct (control dev <=? 0)).
  destruct (control dev1 <=? 0); [exact H1|].
  pose proof (close_intent (dev1, log)) as H2.
  destruct (housetuya_device_close (dev1, log)) as [dev2 log2].
  cbn [fst] in H2.
  destruct (_ <? 0); cbn [fst snd]; now rewrite <- H1, <- H2.
Qed.

Lemma sense_intent device now c :
  intent (fst (housetuya_device_sense env device now c)) = intent (fst c).
Proof.
  unfold housetuya_device_sense.
  pose proof (preamble_intent c) as H.
  destruct (housetuya_device_preamble env c) as [ready [dev log]].
  cbn [fst snd] in H. now destruct ready.
Qed.

Lemma control_intent device state now c :
  intent (fst (housetuya_device_control env device state now c))
  = intent (fst c).
Proof.
  unfold housetuya_device_control.
  pose proof (preamble_intent c) as H.
  destruct (housetuya_device_preamble env c) as [ready [dev log]].
  cbn [fst snd] in H. now destruct ready.
Qed.

Lemma sweep_sense_intent now i c :
  intent (fst (sweep_sense env now i c)) = intent (fst c).
Proof.
  destruct c as [dev log]. unfold sweep_sense.
  destruct (now >=? last_sense dev + 35); [|reflexivity].
  destruct ((pending dev =? 0) && negb (ipaddress dev =? 0)).
  - pose proof (sense_intent i now (housetuya_device_close (dev, log))) as H.
    rewrite close_intent in H.
    now destruct (housetuya_device_sense env i now _) as [dev' log'].
  - reflexivity.
Qed.

End Env.


(** C7. A value delivered to [housetuya_device_status_update] for a
    device of the table becomes its [status], and [detected] becomes the
    current time, whether the value is new or not. When the value differs
    from the [status] held: if a command is pending and the value is the
    commanded one, [pending] is cleared, [commanded] is kept and CONFIRMED
    is logged; otherwise [commanded] becomes the value, [pending] is
    cleared and CHANGED is logged. *)
Theorem status_update_effect device status_ now w d :
  0 <= device ->
  Devices w !! Z.to_nat device = Some d ->
  exists w' d',
    housetuya_device_status_update device status_ now w = Ok w'
    /\ Devices w' = <[Z.to_nat device := d']> (Devices w)
    /\ status d' = status_
    /\ detected d' = now
    /\ (status_ = status d ->
        commanded d' = commanded d /\ pending d' = pending d
        /\ Log w' = Log w)
    /\ (status_ <> status d ->
        pending d <> 0 -> status_ = commanded d ->
        pending d' = 0 /\ commanded d' = commanded d
        /\ Log w' = houselog_event (name d) "CONFIRMED" :: Log w)
    /\ (status_ <> status d ->
        ~ (pending d <> 0 /\ status_ = commanded d) ->
        commanded d' = status_ /\ pending d' = 0
        /\ Log w' = houselog_event (name d) "CHANGED" :: Log w).
Proof.
  intros Hdev Hd. unfold housetuya_device_status_update.
  replace (device <? 0) with false by (symmetry; apply Z.ltb_ge; lia).
  rewrite (at_row_ok device _ w d Hdev Hd). cbn [res_bind].
  eexists. eexists. split; [reflexivity|]. cbn [Devices Log].
  split; [reflexivity|].
  unfold status_update_row.
  destruct (Z.eqb_spec status_ (status d)) as [Hsame|Hnew]; cbn [negb].
  - cbn. repeat split; intros; intuition congruence.
  - destruct (Z.eqb_spec (pending d) 0) as [Hidle|Hpending]; cbn [negb andb].
    + cbn. repeat split; intros; intuition congruence.
    + destruct (Z.eqb_spec status_ (commanded d)) as [Hconf|Hother];
        cbn; repeat split; intros; intuition congruence.
Qed.

Lemma status_update_effect_witness :
  exists w' d',
    housetuya_device_status_update 0 0 1001 pending_world = Ok w'
    /\ Devices w' = <[0%nat := d']> (Devices pending_world)
    /\ status d' = 0
    /\ detected d' = 1001
    /\ (0 = 1 ->
        commanded d' = 1 /\ pending d' = 1005 /\ Log w' = [])
    /\ (0 <> 1 -> 1005 <> 0 -> 0 = 1 ->
        pending d' = 0 /\ commanded d' = 1
        /\ Log w' = [houselog_event (Some (chars "lamp")) "CONFIRMED"])
    /\ (0 <> 1 -> ~ (1005 <> 0 /\ 0 = 1) ->
        commanded d' = 0 /\ pending d' = 0
        /\ Log w' = [houselog_event (Some (chars "lamp")) "CHANGED"]).
Proof.
  apply (status_update_effect 0 0 1001 pending_world
           pending_lamp).
  - lia.
  - reflexivity.
Defined.

Section Setting.

Variable env : Env.

(** C6. For a device of the table with a command pending,
    [housetuya_device_set] returns 1 after it has set [commanded] to the
    state and [deadline] to [now + pulse] (0 without a pulse) and logged
    the SET event: [pending], the socket and the [out] buffer with its
    length are left as they were, no other row changes, and nothing else
    is logged, so no connection is opened and no frame staged. *)
Theorem set_while_pending device state pulse now w d :
  0 <= device ->
  Devices w !! Z.to_nat device = Some d ->
  pending d <> 0 ->
  exists w' d',
    housetuya_device_set env device state pulse now w = Ok (1, w')
    /\ Devices w' = <[Z.to_nat device := d']> (Devices w)
    /\ commanded d' = state
    /\ deadline d' = (if pulse >? 0 then now + pulse else 0)
    /\ pending d' = pending d
    /\ socket d' = socket d
    /\ out d' = out d
    /\ outlength d' = outlength d
    /\ Log w' = houselog_event (name d) "SET" :: Log w.
Proof.
  intros Hdev Hd Hpending.
  assert (Hcount : device < DevicesCount w).
  { unfold DevicesCount. apply lookup_lt_Some in Hd. lia. }
  unfold housetuya_device_set.
  replace (device <? 0) with false by (symmetry; apply Z.ltb_ge; lia).
  replace (device >? DevicesCount w) with false
    by (symmetry; rewrite Z.gtb_ltb; apply Z.ltb_ge; lia).
  cbn [orb]. rewrite (at_row_ok device _ w d Hdev Hd).
  unfold set_row.
  assert (Hp : forall dl,
            (pending (set_commanded state (set_deadline dl d)) =? 0) = false)
    by (intros dl; apply Z.eqb_neq; exact Hpending).
  destruct (pulse >? 0); rewrite Hp; cbn [negb fst snd];
    (eexists; eexists; split; [reflexivity|]); cbn; repeat split.
Qed.

End Setting.

Lemma set_while_pending_witness :
  exists w' d',
    housetuya_device_set example_env 0 0 2 1001 pending_world = Ok (1, w')
    /\ Devices w' = <[0%nat := d']> (Devices pending_world)
    /\ commanded d' = 0
    /\ deadline d' = 1003
    /\ pending d' = 1005
    /\ socket d' = -1
    /\ out d' = []
    /\ outlength d' = 0
    /\ Log w' = [houselog_event (Some (chars "lamp")) "SET"].
Proof.
  apply (set_while_pending example_env 0 0 2 1001 pending_world
           pending_lamp).
  - lia.
  - reflexivity.
  - cbn. lia.
Defined.

(** C10 fails on the code. For the index equal to
    [housetuya_device_count ()], the first that is out of range, none of
    the five functions returns its failure value: the guard
    [point > DevicesCount] lets it through and each reads
    [Devices[DevicesCount]], a row beyond the table. *)
Theorem accessors_read_beyond_table w :
  let point := housetuya_device_count w in
  housetuya_device_name point w = Fault RowBeyondTable
  /\ housetuya_device_commanded point w = Fault RowBeyondTable
  /\ housetuya_device_deadline point w = Fault RowBeyondTable
  /\ housetuya_device_failure point w = Fault RowBeyondTable
  /\ housetuya_device_get point w = Fault RowBeyondTable.
Proof.
  cbv zeta. unfold housetuya_device_count.
  unfold housetuya_device_name, housetuya_device_commanded,
    housetuya_device_deadline, housetuya_device_failure,
    housetuya_device_get.
  replace (DevicesCount w <? 0) with false
    by (symmetry; apply Z.ltb_ge; unfold DevicesCount; lia).
  replace (DevicesCount w >? DevicesCount w) with false
    by (symmetry; rewrite Z.gtb_ltb; apply Z.ltb_irrefl).
  cbn [orb]. rewrite row_beyond. repeat split.
Qed.

(** Every other index out of range is refused, and every index in range
    is served. *)
Lemma accessors_guard point w :
  point < 0 \/ DevicesCount w < point ->
  housetuya_device_name point w = Ok None
  /\ housetuya_device_commanded point w = Ok 0
  /\ housetuya_device_deadline point w = Ok 0
  /\ housetuya_device_failure point w = Ok None
  /\ housetuya_device_get point w = Ok 0.
Proof.
  intros H.
  unfold housetuya_device_name, housetuya_device_commanded,
    housetuya_device_deadline, housetuya_device_failure,
    housetuya_device_get.
  replace ((point <? 0) || (point >? DevicesCount w)) with true; [repeat split|].
  symmetry. apply orb_true_iff. rewrite Z.gtb_ltb.
  destruct H; [left; apply Z.ltb_lt | right; apply Z.ltb_lt]; lia.
Qed.

(** *** The sweep on one row *)

Section Sweep.

Variable env : Env.

Lemma reset_fields status_ c :
  let d' := fst (housetuya_device_reset status_ c) in
  status d' = status_ /\ commanded d' = status_ /\ pending d' = 0
  /\ deadline d' = 0 /\ detected d' = detected (fst c) /\ socket d' < 0.
Proof.
  destruct c as [dev log]. unfold housetuya_device_reset. cbv zeta.
  set (c1 := (set_pending 0 (set_deadline 0
                (set_status status_ (set_commanded status_ dev))), log)).
  pose proof (close_intent c1) as H. pose proof (close_socket c1) as Hs.
  destruct (housetuya_device_close c1) as [d' log'].
  cbn [fst] in *. unfold intent in H. cbn in H.
  injection H as -> -> -> -> ->. repeat split. exact Hs.
Qed.

(** The visit of a device last detected more than 100 seconds ago. *)
Lemma visit_silent_row now i d log :
  detected d > 0 -> detected d < now - 100 ->
  let d' := fst (snd (visit env now i (d, log))) in
  status d' = 0 /\ commanded d' = 0 /\ pending d' = 0 /\ deadline d' = 0
  /\ detected d' = 0 /\ socket d' < 0.
Proof.
  intros Hpos Hold. unfold visit. cbn [fst snd].
  pose proof (sweep_sense_intent env now i (d, log)) as H1.
  destruct (sweep_sense env now i (d, log)) as [d1 log1].
  cbn [fst] in H1. unfold intent in H1. injection H1 as Hs Hc Hp Hdl Hdt.
  unfold sweep_silence. rewrite Hdt.
  replace (detected d >? 0) with true
    by (symmetry; rewrite Z.gtb_ltb; apply Z.ltb_lt; lia).
  replace (detected d <? now - 100) with true
    by (symmetry; apply Z.ltb_lt; lia).
  cbn [andb].
  pose proof (reset_fields 0
                (housetuya_device_close
                   (d1, houselog_event (name d1) "SILENT" :: log1))) as Hr.
  cbv zeta in Hr.
  destruct (housetuya_device_reset 0 _) as [d2 log2]. cbn [fst] in Hr.
  destruct Hr as (Hs2 & Hc2 & Hp2 & Hdl2 & _ & Hsock).
  unfold sweep_pulse. cbn. rewrite Hdl2. cbn.
  unfold sweep_reconcile. cbn. rewrite Hs2, Hc2. cbn.
  repeat split; assumption.
Qed.

(** The visit of a device whose pulse has ended and that is not found
    silent at this visit. *)
Lemma visit_pulse_row now i d log :
  deadline d > 0 -> now >= deadline d ->
  ~ (detected d > 0 /\ detected d < now - 100) ->
  let d' := fst (snd (visit env now i (d, log))) in
  commanded d' = 0 /\ deadline d' = 0 /\ pending d' = now + 5.
Proof.
  intros Hset Hdue Hheard. unfold visit. cbn [fst snd].
  pose proof (sweep_sense_intent env now i (d, log)) as H1.
  destruct (sweep_sense env now i (d, log)) as [d1 log1].
  cbn [fst] in H1. unfold intent in H1. injection H1 as Hs Hc Hp Hdl Hdt.
  unfold sweep_silence. rewrite Hdt.
  replace ((detected d >? 0) && (detected d <? now - 100)) with false.
  2:{ symmetry. apply andb_false_iff. rewrite Z.gtb_ltb.
      destruct (Z.ltb_spec 0 (detected d)); [|now left].
      destruct (Z.ltb_spec (detected d) (now - 100)); [|now right].
      exfalso. apply Hheard. lia. }
  unfold sweep_pulse. rewrite Hdl.
  replace (deadline d >? 0) with true
    by (symmetry; rewrite Z.gtb_ltb; apply Z.ltb_lt; lia).
  replace (now >=? deadline d) with true
    by (symmetry; rewrite Z.geb_leb; apply Z.leb_le; lia).
  cbn [andb].
  set (d2 := set_deadline 0 (set_pending (now + 5) (set_commanded 0 d1))).
  set (log2 := houselog_event (name d1) "RESET" :: log1).
  assert (H2 : commanded d2 = 0 /\ deadline d2 = 0 /\ pending d2 = now + 5)
    by (subst d2; cbn; auto).
  unfold sweep_reconcile.
  destruct (negb (status d2 =? commanded d2)); [|exact H2].
  replace (pending d2 >? now) with true
    by (symmetry; rewrite Z.gtb_ltb; apply Z.ltb_lt;
        replace (pending d2) with (now + 5) by (symmetry; apply H2); lia).
  destruct (negb (detected d2 =? 0)); [|exact H2].
  pose proof (control_intent env i (commanded d2) now
                (d2, houselog_event (name d2) "RETRY" :: log2)) as H3.
  destruct (housetuya_device_control env i (commanded d2) now _) as [d3 log3].
  cbn [fst] in H3 |- *. unfold intent in H3.
  injection H3 as _ Hc3 Hp3 Hdl3 _.
  rewrite Hc3, Hdl3, Hp3. exact H2.
Qed.

End Sweep.

Section Pulse.

Variable env : Env.

Lemma visit_at_row now i w d :
  0 <= i -> Devices w !! Z.to_nat i = Some d ->
  let d' := fst (snd (visit env now i (d, Log w))) in
  exists w',
    at_row i (visit env now i) w = Ok (tt, w')
    /\ row w' i = Ok d'
    /\ Devices w' = <[Z.to_nat i := d']> (Devices w)
    /\ Log w' = snd (snd (visit env now i (d, Log w))).
Proof.
  intros Hi Hd d'. rewrite (at_row_ok i _ w d Hi Hd).
  eexists. split; [reflexivity|]. cbn [Devices Log]. split; [|split; reflexivity].
  apply row_lookup; [exact Hi|]. cbn [Devices].
  apply list_lookup_insert_eq. now apply lookup_lt_Some in Hd.
Qed.

(** C5, as amended. Whenever the periodic sweep visits a device whose
    [deadline] is set and reached, and that it does not find silent at
    that visit ([detected] is 0 or not older than [now - 100]), afterwards
    the device has [commanded = 0], [deadline = 0] and
    [pending = now + 5]. *)
Theorem pulse_expiry now i w d :
  0 <= i ->
  Devices w !! Z.to_nat i = Some d ->
  deadline d > 0 -> now >= deadline d ->
  ~ (detected d > 0 /\ detected d < now - 100) ->
  exists w' d',
    at_row i (visit env now i) w = Ok (tt, w')
    /\ row w' i = Ok d'
    /\ commanded d' = 0 /\ deadline d' = 0 /\ pending d' = now + 5.
Proof.
  intros Hi Hd Hset Hdue Hheard.
  destruct (visit_at_row now i w d Hi Hd) as (w' & Hvisit & Hrow & _).
  exists w'. eexists. split; [exact Hvisit|]. split; [exact Hrow|].
  now apply visit_pulse_row.
Qed.

End Pulse.

Lemma pulse_expiry_witness :
  exists w' d',
    at_row 0 (visit example_env 1001 0) heard_pulsed_world = Ok (tt, w')
    /\ row w' 0 = Ok d'
    /\ commanded d' = 0 /\ deadline d' = 0 /\ pending d' = 1001 + 5.
Proof.
  apply (pulse_expiry example_env 1001 0 heard_pulsed_world
           heard_pulsed_lamp).
  - lia.
  - reflexivity.
  - cbn. lia.
  - cbn. lia.
  - cbn. lia.
Defined.

(** C5, as stated, fails for a device whose pulse ends when it has not
    been detected for more than 100 seconds (detected at 900, deadline
    1000, sweep at 1001): the visit finds it silent first and clears
    [pending] and [deadline], and no command is armed. *)
Lemma pulse_claim_fails : ~ pulse_claim example_env 1001 0 pulsed_world.
Proof.
  intros H.
  destruct (H pulsed_lamp eq_refl)
    as (w' & d' & Hvisit & Hrow & _ & _ & Hpending);
    [cbn; lia | cbn; lia |].
  vm_compute in Hvisit. injection Hvisit as <-.
  vm_compute in Hrow. injection Hrow as <-.
  vm_compute in Hpending. discriminate Hpending.
Qed.

(** *** No CONTROL frame for a device marked silent *)




Section Quiet.

Variable env : Env.
Variable i : Z.







End Quiet.

(** *** Runs of the engine *)

Lemma at_row_inv {A} j (f : Cell -> A * Cell) w a w' :
  at_row j f w = Ok (a, w') ->
  exists dj,
    0 <= j /\ Devices w !! Z.to_nat j = Some dj
    /\ a = fst (f (dj, Log w))
    /\ Devices w' = <[Z.to_nat j := fst (snd (f (dj, Log w)))]> (Devices w)
    /\ Log w' = snd (snd (f (dj, Log w))).
Proof.
  unfold at_row, row.
  destruct (Z.ltb_spec j 0); [discriminate|].
  destruct (Devices w !! Z.to_nat j) as [dj|] eqn:E; [|discriminate].
  cbn [res_bind]. destruct (f (dj, Log w)) as [a' [d' log']] eqn:Ef.
  intros [= <- <-]. exists dj. rewrite Ef. cbn. repeat split; auto; lia.
Qed.

Lemma row_inv w i d :
  row w i = Ok d -> 0 <= i /\ Devices w !! Z.to_nat i = Some d.
Proof.
  unfold row. destruct (Z.ltb_spec i 0); [discriminate|].
  destruct (Devices w !! Z.to_nat i) eqn:E; [|discriminate].
  intros [= <-]. auto.
Qed.

Lemma row_insert_other w w' i j dj d :
  Devices w' = <[Z.to_nat j := dj]> (Devices w) ->
  0 <= j -> j <> i -> row w i = Ok d -> row w' i = Ok d.
Proof.
  intros Hw Hj Hne Hrow. apply row_inv in Hrow as [Hi Hd].
  apply row_lookup; [exact Hi|].
  rewrite Hw, list_lookup_insert_ne by lia. exact Hd.
Qed.


Section Runs.

Variable env : Env.
Variable i : Z.








End Runs.



(** *** The whole sweep *)

Section Periodic.

Variable env : Env.

(** The sweep over the rows from [from] on returns, and the row of every
    device in that range is left as its visit leaves it. *)
Lemma sweep_visits now n : forall from w,
  0 <= from ->
  from + Z.of_nat n = DevicesCount w ->
  exists w',
    sweep env now from n w = Ok w'
    /\ length (Devices w') = length (Devices w)
    /\ (forall j dj, j < from -> row w j = Ok dj -> row w' j = Ok dj)
    /\ (forall i d, from <= i -> row w i = Ok d ->
        exists log, row w' i = Ok (fst (snd (visit env now i (d, log))))).
Proof.
  induction n as [|n IH]; intros from w Hfrom Hcount.
  - exists w. split; [reflexivity|]. split; [reflexivity|]. split; [auto|].
    intros i d Hi Hrow. apply row_inv in Hrow as [_ Hd].
    apply lookup_lt_Some in Hd. unfold DevicesCount in Hcount. lia.
  - assert (Hlt : (Z.to_nat from < length (Devices w))%nat)
      by (unfold DevicesCount in Hcount; lia).
    destruct (lookup_lt_is_Some_2 _ _ Hlt) as [dfrom Hdfrom].
    cbn [sweep].
    destruct (visit_at_row env now from w dfrom Hfrom Hdfrom)
      as (w1 & Hvisit & Hrow1 & Hdevs1 & _).
    rewrite Hvisit. cbn [res_bind].
    assert (Hlen1 : length (Devices w1) = length (Devices w))
      by (rewrite Hdevs1; apply length_insert).
    destruct (IH (from + 1) w1 ltac:(lia)) as (w' & Hsweep & Hlen & Hlow & Hhigh).
    { unfold DevicesCount in *. rewrite Hlen1. lia. }
    exists w'. split; [exact Hsweep|]. split; [congruence|]. split.
    + intros j dj Hj Hrow. apply Hlow; [lia|].
      apply (row_insert_other w w1 j from _ dj Hdevs1 Hfrom); [lia | exact Hrow].
    + intros i d Hi Hrow.
      destruct (Z.eq_dec i from) as [->|Hne].
      * apply row_inv in Hrow as [_ Hd].
        assert (d = dfrom) by congruence. subst d.
        exists (Log w). apply Hlow; [lia | exact Hrow1].
      * apply Hhigh; [lia|].
        apply (row_insert_other w w1 i from _ d Hdevs1 Hfrom); [lia | exact Hrow].
Qed.

(** [housetuya_device_periodic] always returns; when 5 seconds have
    passed since the last sweep, the row of every device is left as its
    visit leaves it. *)
Lemma periodic_visits now w i d :
  LastRetry w + 5 <= now ->
  row w i = Ok d ->
  exists w' log,
    housetuya_device_periodic env now w = Ok w'
    /\ row w' i = Ok (fst (snd (visit env now i (d, log)))).
Proof.
  intros Hgate Hrow. unfold housetuya_device_periodic.
  replace (now <? LastRetry w + 5) with false
    by (symmetry; apply Z.ltb_ge; lia).
  cbn [Devices].
  set (w0 := mkWorld (Devices w) (DeviceListChanged w) now (Log w)).
  destruct (sweep_visits now (length (Devices w)) 0 w0 ltac:(lia))
    as (w' & Hsweep & _ & _ & Hhigh); [reflexivity|].
  pose proof (row_inv _ _ _ Hrow) as [Hi Hd].
  destruct (Hhigh i d Hi (row_lookup w0 i d Hi Hd)) as [log Hrow'].
  exists w', log. split; assumption.
Qed.

Lemma periodic_total now w :
  exists w', housetuya_device_periodic env now w = Ok w'.
Proof.
  unfold housetuya_device_periodic.
  destruct (now <? LastRetry w + 5); [eauto|].
  cbn [Devices].
  set (w0 := mkWorld (Devices w) (DeviceListChanged w) now (Log w)).
  destruct (sweep_visits now (length (Devices w)) 0 w0 ltac:(lia))
    as (w' & Hsweep & _); [reflexivity|].
  eauto.
Qed.

(** The two visits of C4 and C5, seen from the whole sweep. *)
Lemma periodic_silence now w i d :
  LastRetry w + 5 <= now ->
  row w i = Ok d ->
  detected d > 0 -> detected d < now - 100 ->
  exists w' d',
    housetuya_device_periodic env now w = Ok w'
    /\ row w' i = Ok d'
    /\ status d' = 0 /\ commanded d' = 0 /\ pending d' = 0
    /\ deadline d' = 0 /\ detected d' = 0 /\ socket d' < 0.
Proof.
  intros Hgate Hrow Hpos Hold.
  destruct (periodic_visits now w i d Hgate Hrow) as (w' & log & Hp & Hrow').
  exists w'. eexists. split; [exact Hp|]. split; [exact Hrow'|].
  now apply visit_silent_row.
Qed.

Lemma periodic_pulse now w i d :
  LastRetry w + 5 <= now ->
  row w i = Ok d ->
  deadline d > 0 -> now >= deadline d ->
  ~ (detected d > 0 /\ detected d < now - 100) ->
  exists w' d',
    housetuya_device_periodic env now w = Ok w'
    /\ row w' i = Ok d'
    /\ commanded d' = 0 /\ deadline d' = 0 /\ pending d' = now + 5.
Proof.
  intros Hgate Hrow Hset Hdue Hheard.
  destruct (periodic_visits now w i d Hgate Hrow) as (w' & log & Hp & Hrow').
  exists w'. eexists. split; [exact Hp|]. split; [exact Hrow'|].
  now apply visit_pulse_row.
Qed.

End Periodic.

End DeviceFacts.
(** ** More on the codec: lengths, bounds and what the decoder reads *)

Module CodecFacts.
Import Bytes BytesFacts AES Blocks Crypto CryptoFacts Messages MessagesFacts.
Import Frames.

(** *** [housetuya_encrypt] and [housetuya_decrypt] *)

Lemma padded_length (n : nat) :
  Z.of_nat (n + (16 - n mod 16)) = 16 * (Z.of_nat n / 16 + 1).
Proof.
  pose proof (Nat.mod_upper_bound n 16 ltac:(lia)) as Hm.
  rewrite Nat2Z.inj_add, Nat2Z.inj_sub by lia.
  rewrite (Nat2Z.inj_mod n 16).
  change (Z.of_nat 16) with 16.
  pose proof (Z.div_mod (Z.of_nat n) 16 ltac:(lia)). lia.
Qed.

Lemma encrypted_length k (clear : list byte) :
  Z.of_nat (length (ecb_encrypt k (pkcs7_pad clear)))
  = 16 * (Z.of_nat (length clear) / 16 + 1).
Proof.
  rewrite length_ecb_encrypt by apply pkcs7_pad_whole.
  rewrite length_pkcs7_pad. apply padded_length.
Qed.

Lemma encrypt_inv key clear length encrypted :
  housetuya_encrypt (Some key) clear length = Ok encrypted ->
  0 <= length ->
  exists k,
    read_key key = Ok k
    /\ length <= Z.of_nat (List.length clear)
    /\ encrypted = ecb_encrypt k (pkcs7_pad (take (Z.to_nat length) clear)).
Proof.
  unfold housetuya_encrypt.
  destruct (read_key key) as [k|] eqn:Hk; [|discriminate]. cbn [res_bind].
  intros H Hpos.
  replace (length <? 0) with false in H by (symmetry; apply Z.ltb_ge; lia).
  destruct (_ <? length) eqn:Hlen; [discriminate|]. apply Z.ltb_ge in Hlen.
  injection H as <-. eauto.
Qed.

(** X1. What [housetuya_encrypt] writes, when it reads within the key
    string and the clear text: nothing with a null key, which OpenSSL
    refuses, or with a negative [length], and 0 is returned; otherwise
    [length] rounded up to the next multiple of 16, a whole block more
    when [length] is one already. *)
Theorem housetuya_encrypt_length key clear length encrypted :
  housetuya_encrypt key clear length = Ok encrypted ->
  Z.of_nat (List.length encrypted)
  = match key with
    | None => 0
    | Some _ => if length <? 0 then 0 else 16 * (length / 16 + 1)
    end.
Proof.
  intros H. destruct key as [key|]; [|now injection H as <-].
  destruct (length <? 0) eqn:Hneg.
  - revert H. unfold housetuya_encrypt.
    destruct (read_key key); [|discriminate]. cbn [res_bind].
    rewrite Hneg. now intros [= <-].
  - apply Z.ltb_ge in Hneg.
    destruct (encrypt_inv _ _ _ _ H Hneg) as (k & _ & Hlen & ->).
    rewrite encrypted_length, length_take.
    now replace (Z.of_nat (Z.to_nat length `min` List.length clear))
      with length by lia.
Qed.

Lemma housetuya_encrypt_length_witness :
  Z.of_nat
    (List.length
       (ecb_encrypt (key_block (chars "0123456789abcdef"))
          (pkcs7_pad (take (Z.to_nat 16) (chars "0123456789abcdef")))))
  = 32.
Proof.
  apply (housetuya_encrypt_length (Some (chars "0123456789abcdef"))
           (chars "0123456789abcdef") 16).
  reflexivity.
Defined.

Lemma length_blocks_fuel n : forall l : list byte,
  (length l <= n)%nat -> (16 * length (blocks l) <= length l)%nat.
Proof.
  induction n as [|n IH]; intros l Hl.
  - destruct l; [cbn; lia | cbn in Hl; lia].
  - do 16 (destruct l as [|? l]; [cbn; lia|]).
    cbn [blocks length]. cbn [length] in Hl.
    specialize (IH l ltac:(lia)). lia.
Qed.

Lemma length_ecb_decrypt_le k l :
  (length (ecb_decrypt k l) <= length l)%nat.
Proof.
  unfold ecb_decrypt. rewrite length_unblocks, List.length_map.
  apply (length_blocks_fuel (length l)). lia.
Qed.

Lemma pkcs7_unpad_length padded clear :
  pkcs7_unpad padded = Some clear ->
  (length clear < length padded)%nat \/ padded = [].
Proof.
  unfold pkcs7_unpad.
  destruct (_ || _) eqn:Hn; [discriminate|].
  destruct (forallb _ _); [|discriminate].
  intros [= <-]. apply orb_false_elim in Hn as [H0 H16].
  apply Z.eqb_neq in H0. apply Z.ltb_ge in H16.
  pose proof (Z_of_byte_range (List.last padded x00)).
  destruct padded as [|b p]; [now right|left].
  rewrite length_take. cbn [length]. lia.
Qed.

Lemma terminate_lookup (clear : list byte) n :
  (n <= length clear)%nat -> terminate clear n !! n = Some x00.
Proof.
  intros H. unfold terminate.
  rewrite lookup_app_r by (rewrite length_take; lia).
  rewrite length_take. replace (n - n `min` length clear)%nat with 0%nat by lia.
  reflexivity.
Qed.

Lemma length_terminate_le (clear : list byte) n :
  (length (terminate clear n) <= S (length clear))%nat.
Proof.
  unfold terminate.
  rewrite !List.length_app, length_take, length_drop. cbn [length]. lia.
Qed.

Lemma length_update_written k (encrypted : list byte) :
  (length (update_written k encrypted) <= length encrypted - 1)%nat.
Proof.
  unfold update_written.
  pose proof (length_ecb_decrypt_le k
    (take (16 * ((length encrypted - 1) / 16)) encrypted)) as H.
  rewrite length_take in H.
  pose proof (Nat.Div0.mul_div_le (length encrypted - 1) 16). lia.
Qed.

Lemma unpad_shorter k (encrypted c : list byte) :
  encrypted <> [] -> (length encrypted mod 16 = 0)%nat ->
  pkcs7_unpad (ecb_decrypt k encrypted) = Some c ->
  (length c < length encrypted)%nat.
Proof.
  intros Hne Hmod Hun. apply pkcs7_unpad_length in Hun.
  pose proof (length_ecb_decrypt_le k encrypted) as Hd.
  destruct Hun as [Hun|Hun]; [lia|].
  exfalso. revert Hun. unfold ecb_decrypt.
  destruct encrypted as [|b0 l0]; [contradiction|].
  assert (16 <= length (b0 :: l0))%nat.
  { destruct (Nat.lt_ge_cases (length (b0 :: l0)) 16) as [E|E]; [|exact E].
    rewrite Nat.mod_small in Hmod by exact E. cbn [length] in Hmod. lia. }
  do 15 (destruct l0 as [|? l0]; [cbn [length] in *; lia|]).
  cbn [blocks List.map]. rewrite unblocks_cons.
  destruct (inv_cipher k _) as [[[[[[? ?] ?] ?] [[[? ?] ?] ?]]
                [[[? ?] ?] ?]] [[[? ?] ?] ?]].
  cbn. discriminate.
Qed.

(** What [housetuya_decrypt] returns: 0 with what [EVP_DecryptUpdate]
    wrote, or a clear text shorter than [length], cut and NUL-terminated
    at the length returned. *)
Lemma decrypt_inv key encrypted length n clear :
  housetuya_decrypt key encrypted length = Ok (n, clear) ->
  (n = 0 /\ Z.of_nat (List.length clear) <= Z.max 0 (length - 1))
  \/ (0 < length /\ length mod 16 = 0
      /\ exists c,
           (List.length c < Z.to_nat length)%nat
           /\ 0 <= n <= Z.of_nat (List.length c)
           /\ clear = terminate c (Z.to_nat n)).
Proof.
  unfold housetuya_decrypt.
  destruct key as [key|]; [|intros [= <- <-]; left; cbn; lia].
  destruct (read_key key) as [k|]; [|discriminate]. cbn [res_bind].
  destruct (length <? 0) eqn:Hneg; [intros [= <- <-]; left; cbn; lia|].
  apply Z.ltb_ge in Hneg.
  destruct (_ <? length) eqn:Hlen; [discriminate|]. apply Z.ltb_ge in Hlen.
  assert (Hw : Z.of_nat (List.length
                 (update_written k (take (Z.to_nat length) encrypted)))
               <= Z.max 0 (length - 1)).
  { pose proof (length_update_written k (take (Z.to_nat length) encrypted))
      as H. rewrite length_take in H. lia. }
  destruct ((length =? 0) || negb (length mod 16 =? 0)) eqn:Hbad.
  { intros [= <- <-]. now left. }
  apply orb_false_elim in Hbad as [Hpos Hmod].
  apply Z.eqb_neq in Hpos. apply negb_false_iff, Z.eqb_eq in Hmod.
  destruct (pkcs7_unpad _) as [c|] eqn:Hun.
  2:{ intros [= <- <-]. now left. }
  assert (Hc : (List.length c < Z.to_nat length)%nat).
  { apply unpad_shorter in Hun.
    - rewrite length_take in Hun. lia.
    - intros E. apply (f_equal List.length) in E.
      rewrite length_take in E. cbn in E. lia.
    - rewrite length_take.
      replace (Z.to_nat length `min` List.length encrypted)%nat
        with (Z.to_nat length) by lia.
      apply Nat2Z.inj. rewrite Nat2Z.inj_mod, Z2Nat.id by lia. exact Hmod. }
  destruct c as [|c0 c']; [discriminate|].
  remember (c0 :: c') as cl eqn:Hcl.
  set (b := Z_of_byte (List.last cl x00)).
  pose proof (Z_of_byte_range (List.last cl x00)) as Hb. fold b in Hb.
  destruct ((0 <? b) && (b <? 16)) eqn:Hstrip.
  - destruct (_ <? 0) eqn:Hn; [discriminate|]. apply Z.ltb_ge in Hn.
    intros [= <- <-]. right. split; [lia|]. split; [exact Hmod|].
    exists cl. split; [exact Hc|]. split; [lia | reflexivity].
  - destruct (_ <? 0) eqn:Hn; [discriminate|].
    intros [= <- <-]. right. split; [lia|]. split; [exact Hmod|].
    exists cl. split; [exact Hc|]. split; [lia | reflexivity].
Qed.

(** When [housetuya_decrypt] leaves its buffer, under a key that can be
    read and with [length] bytes to read: OpenSSL has accepted the
    padding, and the text left is empty or shorter than its last byte, a
    byte between 1 and 15, says. *)
Lemma decrypt_fault key encrypted length why :
  (15 <= List.length key)%nat ->
  length <= Z.of_nat (List.length encrypted) ->
  housetuya_decrypt (Some key) encrypted length = Fault why ->
  exists c,
    pkcs7_unpad
      (ecb_decrypt (key_block key) (take (Z.to_nat length) encrypted))
    = Some c
    /\ (c = []
        \/ 0 < Z_of_byte (List.last c x00) < 16
           /\ Z.of_nat (List.length c) < Z_of_byte (List.last c x00)).
Proof.
  intros Hk Hlen. unfold housetuya_decrypt, read_key.
  replace (_ <? 16)%nat with false by (symmetry; apply Nat.ltb_ge; lia).
  cbn [res_bind].
  destruct (length <? 0); [discriminate|].
  replace (_ <? length) with false by (symmetry; apply Z.ltb_ge; lia).
  destruct (_ || _); [discriminate|].
  destruct (pkcs7_unpad _) as [c|]; [|discriminate].
  intros H. exists c. split; [reflexivity|].
  destruct c as [|c0 c']; [now left|right].
  remember (c0 :: c') as cl eqn:Hcl.
  destruct ((0 <? _) && (_ <? 16)) eqn:Hstrip.
  - apply andb_true_iff in Hstrip as [H0 H16].
    apply Z.ltb_lt in H0, H16.
    destruct (_ <? 0) eqn:Hn; [|discriminate]. apply Z.ltb_lt in Hn. lia.
  - destruct (_ <? 0) eqn:Hn; [|discriminate]. apply Z.ltb_lt in Hn. lia.
Qed.

(** X2. With a key string of 15 characters or more and [length] bytes to
    read, what [housetuya_decrypt] does is one of two things. It stays
    within the first [length] bytes of [clear] and returns 0 (always so
    when [length] is not a positive multiple of 16) or a positive length
    below [length], with a NUL written just after it. Or it leaves the
    buffer: OpenSSL has accepted the padding and the text left is empty,
    so that [clear[-1]] is read, or is shorter than its last byte, between
    1 and 15, says, so that the NUL is written before [clear] and the
    length, were it returned, is negative. *)
Theorem housetuya_decrypt_bounds key encrypted length :
  (15 <= List.length key)%nat ->
  length <= Z.of_nat (List.length encrypted) ->
  match housetuya_decrypt (Some key) encrypted length with
  | Ok (n, clear) =>
      0 <= n
      /\ (n = 0 \/ n < length)
      /\ (length <= 0 \/ length mod 16 <> 0 -> n = 0)
      /\ (0 < n -> clear !! Z.to_nat n = Some x00)
      /\ Z.of_nat (List.length clear) <= Z.max 0 length
  | Fault _ =>
      0 < length /\ length mod 16 = 0
      /\ exists c,
           pkcs7_unpad
             (ecb_decrypt (key_block key) (take (Z.to_nat length) encrypted))
           = Some c
           /\ (c = []
               \/ 0 < Z_of_byte (List.last c x00) < 16
                  /\ Z.of_nat (List.length c)
                     < Z_of_byte (List.last c x00))
  end.
Proof.
  intros Hk Hlen.
  destruct (housetuya_decrypt (Some key) encrypted length)
    as [[n clear]|why] eqn:H.
  - destruct (decrypt_inv _ _ _ _ _ H)
      as [[-> Hw]|(Hpos & Hmod & c & Hc & Hn & ->)].
    + split; [lia|]. split; [now left|]. split; [easy|]. split; lia.
    + split; [lia|]. split; [lia|]. split; [lia|]. split.
      * intros _. apply terminate_lookup. lia.
      * pose proof (length_terminate_le c (Z.to_nat n)). lia.
  - pose proof (decrypt_fault key encrypted length why Hk Hlen H) as Hf.
    split; [|split; [|exact Hf]]; revert H;
      unfold housetuya_decrypt, read_key;
      replace (_ <? 16)%nat with false by (symmetry; apply Nat.ltb_ge; lia);
      cbn [res_bind];
      (destruct (Z.ltb_spec length 0); [discriminate|]);
      replace (_ <? length) with false by (symmetry; apply Z.ltb_ge; lia);
      destruct (Z.eqb_spec length 0); cbn [orb]; try discriminate;
      destruct (Z.eqb_spec (length mod 16) 0); cbn [negb];
      try discriminate; intros _; lia.
Qed.

Lemma housetuya_decrypt_bounds_witness :
  match
    housetuya_decrypt (Some (chars "0123456789abcdef"))
      (ecb_encrypt (key_block (chars "0123456789abcdef"))
         (pkcs7_pad (chars "{}"))) 16
  with
  | Ok (n, clear) =>
      0 <= n
      /\ (n = 0 \/ n < 16)
      /\ (16 <= 0 \/ 16 mod 16 <> 0 -> n = 0)
      /\ (0 < n -> clear !! Z.to_nat n = Some x00)
      /\ Z.of_nat (List.length clear) <= Z.max 0 16
  | Fault _ =>
      0 < 16 /\ 16 mod 16 = 0
      /\ exists c,
           pkcs7_unpad
             (ecb_decrypt (key_block (chars "0123456789abcdef"))
                (take (Z.to_nat 16)
                   (ecb_encrypt (key_block (chars "0123456789abcdef"))
                      (pkcs7_pad (chars "{}")))))
           = Some c
           /\ (c = []
               \/ 0 < Z_of_byte (List.last c x00) < 16
                  /\ Z.of_nat (List.length c)
                     < Z_of_byte (List.last c x00))
  end.
Proof.
  apply (housetuya_decrypt_bounds (chars "0123456789abcdef")
           (ecb_encrypt (key_block (chars "0123456789abcdef"))
              (pkcs7_pad (chars "{}")))
           16).
  - vm_compute. lia.
  - vm_compute. discriminate.
Defined.

(** X3. Under a 16-byte key, for a clear text that ends with a byte [b]
    between 1 and 15, [housetuya_decrypt] of what [housetuya_encrypt]
    wrote takes that byte for padding: it returns the clear text's length
    less [b] and writes its NUL there, and when [b] exceeds that length
    the write lands before the buffer. *)
Theorem housetuya_decrypt_strips key clear :
  length key = 16%nat ->
  let b := Z_of_byte (List.last clear x00) in
  0 < b < 16 ->
  exists encrypted,
    housetuya_encrypt (Some key) clear (Z.of_nat (length clear)) = Ok encrypted
    /\ housetuya_decrypt (Some key) encrypted (Z.of_nat (length encrypted))
       = if b <=? Z.of_nat (length clear)
         then Ok (Z.of_nat (length clear) - b,
                  terminate clear (Z.to_nat (Z.of_nat (length clear) - b)))
         else Fault OutOfBounds.
Proof.
  intros Hk b Hb.
  exists (ecb_encrypt (key_block key) (pkcs7_pad clear)).
  split; [now apply housetuya_encrypt_ok|].
  set (encrypted := ecb_encrypt (key_block key) (pkcs7_pad clear)).
  assert (Hlen : length encrypted = length (pkcs7_pad clear))
    by apply length_ecb_encrypt, pkcs7_pad_whole.
  pose proof (pkcs7_pad_whole clear) as Hw.
  pose proof (length_pkcs7_pad clear) as Hp.
  pose proof (Nat.mod_upper_bound (length clear) 16 ltac:(lia)) as B.
  rewrite housetuya_decrypt_whole;
    [ | exact Hk | lia
      | rewrite Hlen; change 16 with (Z.of_nat 16);
        rewrite <- Nat2Z.inj_mod; now rewrite Hw
      | lia ].
  cbv zeta. rewrite Nat2Z.id, firstn_all.
  subst encrypted. rewrite ecb_decrypt_encrypt by exact Hw.
  rewrite pkcs7_unpad_pad.
  destruct clear as [|c clear'].
  { cbn in b. change (Z_of_byte x00) with 0 in b. lia. }
  remember (c :: clear') as l eqn:Hl.
  fold b.
  replace ((0 <? b) && (b <? 16)) with true
    by (symmetry; apply andb_true_iff; split; apply Z.ltb_lt; lia).
  destruct (Z.leb_spec b (Z.of_nat (length l))).
  - now replace (Z.of_nat (length l) - b <? 0) with false
      by (symmetry; apply Z.ltb_ge; lia).
  - now replace (Z.of_nat (length l) - b <? 0) with true
      by (symmetry; apply Z.ltb_lt; lia).
Qed.

Lemma housetuya_decrypt_strips_witness :
  exists encrypted,
    housetuya_encrypt (Some (chars "0123456789abcdef")) [x41; x42; x01] 3
      = Ok encrypted
    /\ housetuya_decrypt (Some (chars "0123456789abcdef")) encrypted
         (Z.of_nat (length encrypted))
       = Ok (2, [x41; x42; x00]).
Proof.
  apply (housetuya_decrypt_strips (chars "0123456789abcdef") [x41; x42; x01]).
  - reflexivity.
  - vm_compute. split; reflexivity.
Defined.

(** *** [housetuya_encode] *)

Lemma encrypted_whole key (data : list byte) encrypted :
  housetuya_encrypt key data (Z.of_nat (length data)) = Ok encrypted ->
  Z.of_nat (length encrypted)
  = match key with
    | None => 0
    | Some _ => 16 * (Z.of_nat (length data) / 16 + 1)
    end.
Proof.
  intros He. destruct key as [key|]; [|now injection He as <-].
  destruct (encrypt_inv _ _ _ _ He ltac:(lia)) as (k & _ & _ & ->).
  now rewrite Nat2Z.id, firstn_all, encrypted_length.
Qed.

Lemma encode_inv size access code sequence data frame :
  housetuya_encode size access code sequence data = Ok frame ->
  Z.of_nat (length (cstr data)) <= size - 15 ->
  exists header encrypted,
    frame = envelope sequence code (header ++ encrypted)
    /\ length header
       = (if negb (code =? TUYA_QUERY) && negb (code =? TUYA_UPDATE)
          then 15%nat else 0%nat)
    /\ Z.of_nat (length encrypted)
       = match key access with
         | None => 0
         | Some _ => 16 * (Z.of_nat (length (cstr data)) / 16 + 1)
         end.
Proof.
  unfold housetuya_encode. intros H Hfit.
  replace (_ >? _) with false in H
    by (symmetry; rewrite Z.gtb_ltb; apply Z.ltb_ge; lia).
  destruct (negb (code =? TUYA_QUERY) && negb (code =? TUYA_UPDATE)).
  - destruct (version access) as [v|]; [|discriminate].
    cbn [res_bind] in H.
    destruct (housetuya_encrypt _ _ _) as [enc|] eqn:He; [|discriminate].
    cbn [res_bind] in H. injection H as <-.
    exists (strncpy_15 v), enc.
    split; [|split; [apply length_strncpy_15 | now apply encrypted_whole]].
    rewrite <- end_envelop_layout.
    apply f_equal2; [reflexivity | rewrite List.length_app; lia].
  - cbn [res_bind] in H.
    destruct (housetuya_encrypt _ _ _) as [enc|] eqn:He; [|discriminate].
    cbn [res_bind] in H. injection H as <-.
    exists [], enc.
    split; [|split; [reflexivity | now apply encrypted_whole]].
    rewrite <- end_envelop_layout.
    apply f_equal2; [reflexivity | cbn [List.app]; lia].
Qed.

Lemma encode_refused size access code sequence data frame :
  housetuya_encode size access code sequence data = Ok frame ->
  size - 15 < Z.of_nat (length (cstr data)) -> frame = [].
Proof.
  unfold housetuya_encode. intros H Hfit.
  replace (_ >? _) with true in H
    by (symmetry; rewrite Z.gtb_ltb; apply Z.ltb_lt; lia).
  now injection H.
Qed.

Lemma encode_length size access code sequence data frame :
  housetuya_encode size access code sequence data = Ok frame ->
  Z.of_nat (length (cstr data)) <= size - 15 ->
  Z.of_nat (length frame)
  = 24 + (if negb (code =? TUYA_QUERY) && negb (code =? TUYA_UPDATE)
          then 15 else 0)
    + match key access with
      | None => 0
      | Some _ => 16 * (Z.of_nat (length (cstr data)) / 16 + 1)
      end.
Proof.
  intros H Hfit.
  destruct (encode_inv _ _ _ _ _ _ H Hfit) as (header & enc & -> & Hh & He).
  rewrite length_envelope, List.length_app, !Nat2Z.inj_add, He.
  rewrite Hh. destruct (_ && _); lia.
Qed.

(** X4. The length of a frame of [housetuya_encode]: 16 bytes of header,
    15 more for every command but QUERY and UPDATE, the text's length
    rounded up to the next multiple of 16 (a whole block more when it is
    one already), and 8 bytes of trailer. With a null key nothing is
    encrypted and the envelope is closed around an empty payload: 24
    bytes, or 39. A text longer than [size - 15] gives no frame. *)
Theorem housetuya_encode_length size access code sequence data frame :
  housetuya_encode size access code sequence data = Ok frame ->
  Z.of_nat (length frame)
  = if Z.of_nat (length (cstr data)) >? size - 15 then 0
    else 24 + (if negb (code =? TUYA_QUERY) && negb (code =? TUYA_UPDATE)
               then 15 else 0)
         + match key access with
           | None => 0
           | Some _ => 16 * (Z.of_nat (length (cstr data)) / 16 + 1)
           end.
Proof.
  intros H. rewrite Z.gtb_ltb.
  destruct (Z.ltb_spec (size - 15) (Z.of_nat (length (cstr data)))).
  - now rewrite (encode_refused _ _ _ _ _ _ H).
  - now apply (encode_length _ _ _ _ _ _ H).
Qed.

Lemma housetuya_encode_length_witness :
  Z.of_nat (length example_control_frame) = 24 + 15 + 16 * (63 / 16 + 1).
Proof.
  apply (housetuya_encode_length 1024 example_secret TUYA_CONTROL 5
           (snprintf_1024 (control_command example_secret 1700000000 1 1))
           example_control_frame).
  vm_compute. reflexivity.
Defined.

(** X5. The size check of [housetuya_encode] does not keep the frame
    within [size] bytes: with a key, a text of more than [size - 40]
    characters that passes the check ([size - 15] at most) is encoded,
    with its extended header, into a frame longer than [size]. *)
Theorem housetuya_encode_exceeds_size size access code sequence data frame :
  housetuya_encode size access code sequence data = Ok frame ->
  key access <> None ->
  code <> TUYA_QUERY -> code <> TUYA_UPDATE ->
  size - 40 < Z.of_nat (length (cstr data)) <= size - 15 ->
  size < Z.of_nat (length frame).
Proof.
  intros H Hkey Hq Hu [Hlo Hhi].
  rewrite (encode_length _ _ _ _ _ _ H Hhi).
  destruct (key access); [|contradiction].
  apply Z.eqb_neq in Hq, Hu. rewrite Hq, Hu. cbn [negb andb].
  pose proof (Z.div_mod (Z.of_nat (length (cstr data))) 16 ltac:(lia)).
  pose proof (Z.mod_pos_bound (Z.of_nat (length (cstr data))) 16 ltac:(lia)).
  lia.
Qed.

Lemma housetuya_encode_exceeds_size_witness :
  exists frame,
    housetuya_encode 64 example_secret TUYA_CONTROL 0 example_long_data
      = Ok frame
    /\ 64 < Z.of_nat (length frame).
Proof.
  eexists. split; [reflexivity|].
  apply (housetuya_encode_exceeds_size 64 example_secret TUYA_CONTROL 0
           example_long_data).
  - reflexivity.
  - discriminate.
  - discriminate.
  - discriminate.
  - vm_compute. split; [reflexivity | discriminate].
Defined.

(** *** [housetuya_open_envelop] and [housetuya_extract] *)

Lemma rd32_range buffer off w : rd32 buffer off = Ok w -> 0 <= w < 2 ^ 32.
Proof.
  unfold rd32. destruct (_ && _); [|discriminate].
  destruct (drop _ _) as [|b3 [|b2 [|b1 [|b0 ?]]]]; try discriminate.
  intros [= <-]. apply word_of_bytes_range.
Qed.

Lemma rd32_inside (buffer rest : list byte) off :
  0 <= off -> off + 4 <= Z.of_nat (length buffer) ->
  (exists w, rd32 buffer off = Ok w)
  /\ rd32 (buffer ++ rest) off = rd32 buffer off.
Proof.
  intros H0 H4. unfold rd32.
  rewrite List.length_app, Nat2Z.inj_add.
  replace (0 <=? off) with true by (symmetry; apply Z.leb_le; lia).
  replace (off + 4 <=? Z.of_nat (length buffer)) with true
    by (symmetry; apply Z.leb_le; lia).
  replace (off + 4 <=? Z.of_nat (length buffer) + Z.of_nat (length rest))
    with true by (symmetry; apply Z.leb_le; lia).
  cbn [andb]. rewrite drop_app_le by lia.
  pose proof (length_drop buffer (Z.to_nat off)) as Hd.
  destruct (drop (Z.to_nat off) buffer) as [|b3 [|b2 [|b1 [|b0 ?]]]];
    cbn [length] in Hd; try lia.
  split; [eauto | reflexivity].
Qed.

Lemma strcmp_eq_inside s : forall mem rest,
  (length s < length mem)%nat ->
  strcmp_eq s (mem ++ rest) = strcmp_eq s mem.
Proof.
  induction s as [|c s IH]; intros mem rest Hlen.
  - destruct mem as [|m mem]; [cbn in Hlen; lia|]. reflexivity.
  - destruct mem as [|m mem]; [cbn in Hlen; lia|]. cbn.
    destruct (Byte.eqb c m); [|reflexivity]. apply IH. cbn in Hlen. lia.
Qed.

Lemma decrypt_inside key (mem rest : list byte) n :
  n <= Z.of_nat (length mem) ->
  housetuya_decrypt key (mem ++ rest) n = housetuya_decrypt key mem n.
Proof.
  intros Hn. unfold housetuya_decrypt.
  destruct key as [key|]; [|reflexivity].
  destruct (read_key key); [|reflexivity]. cbn [res_bind].
  destruct (Z.ltb_spec n 0); [reflexivity|].
  rewrite List.length_app, Nat2Z.inj_add.
  replace (Z.of_nat (length mem) + Z.of_nat (length rest) <? n) with false
    by (symmetry; apply Z.ltb_ge; lia).
  replace (Z.of_nat (length mem) <? n) with false
    by (symmetry; apply Z.ltb_ge; lia).
  now rewrite take_app_le by lia.
Qed.

Section Received.

Variables (crc : list byte) (sequence code : Z) (body : list byte).
Hypothesis Hcrc : length crc = 4%nat.
Hypothesis Hseq : - 2 ^ 31 <= sequence < 2 ^ 31.
Hypothesis Hcode : - 2 ^ 31 <= code < 2 ^ 31.
Hypothesis Hbody : Z.of_nat (length body) < 2 ^ 31 - 8.

Let frame := envelope_with crc sequence code body.
Let header :=
  be32 0x000055aa ++ be32 sequence ++ be32 code
  ++ be32 (16 + Z.of_nat (length body) - 8).
Let trailer := crc ++ be32 0x0000aa55.

Lemma frame_parts : frame = header ++ body ++ trailer.
Proof. unfold frame, envelope_with, header, trailer.
  now rewrite <- !List.app_assoc. Qed.

Lemma length_header : length header = 16%nat.
Proof. reflexivity. Qed.

Lemma length_trailer : length trailer = 8%nat.
Proof. unfold trailer. rewrite List.length_app, Hcrc. reflexivity. Qed.

Lemma length_frame : Z.of_nat (length frame) = 24 + Z.of_nat (length body).
Proof.
  rewrite frame_parts, !List.length_app, length_header, length_trailer. lia.
Qed.

Lemma open_received version :
  housetuya_open_envelop version frame (Z.of_nat (length frame))
  = open_payload version frame (Z.of_nat (length frame))
      (Some sequence) (Some code).
Proof.
  unfold housetuya_open_envelop.
  assert (H0 : rd32 frame 0 = Ok (0x55aa mod 2 ^ 32))
    by apply (rd32_at [] 0x55aa _ 0 eq_refl).
  assert (H4 : rd32 frame 4 = Ok (sequence mod 2 ^ 32))
    by apply (rd32_at (be32 0x55aa) sequence _ 4 eq_refl).
  assert (H8 : rd32 frame 8 = Ok (code mod 2 ^ 32)).
  { unfold frame, envelope_with. rewrite List.app_assoc.
    apply (rd32_at (be32 21930 ++ be32 sequence) code _ 8 eq_refl). }
  assert (H12 : rd32 frame 12
                = Ok ((16 + Z.of_nat (length body) - 8) mod 2 ^ 32)).
  { unfold frame, envelope_with.
    rewrite (List.app_assoc (be32 21930)), (List.app_assoc (be32 21930 ++ _)).
    apply (rd32_at ((be32 21930 ++ be32 sequence) ++ be32 code) _ _ 12 eq_refl). }
  pose proof length_frame as Hlen.
  assert (Hs : rd32 frame (Z.of_nat (length frame) - 8 + 4)
               = Ok (0xaa55 mod 2 ^ 32)).
  { rewrite Hlen. rewrite frame_parts. unfold trailer.
    rewrite !List.app_assoc.
    rewrite <- (List.app_nil_r (be32 43605)).
    apply rd32_at. rewrite !List.length_app, length_header, Hcrc. lia. }
  rewrite H0. cbn [res_bind]. change (to_int32 (21930 mod 2 ^ 32) =? 21930) with true.
  cbn [negb]. rewrite H4, H8. cbn [res_bind]. rewrite H12. cbn [res_bind].
  rewrite !to_int32_mod by lia.
  replace (16 + Z.of_nat (length body) - 8 =? Z.of_nat (length frame) - 16)
    with true by (symmetry; apply Z.eqb_eq; lia).
  cbn [negb]. rewrite Hs. cbn [res_bind].
  change (to_int32 (43605 mod 2 ^ 32) =? 43605) with true. reflexivity.
Qed.

Lemma drop_frame d :
  (16 <= d <= 16 + length body)%nat ->
  drop d frame = drop (d - 16) body ++ trailer.
Proof.
  intros Hd. rewrite frame_parts.
  replace d with (length header + (d - 16))%nat at 1
    by (rewrite length_header; lia).
  rewrite drop_app_add. apply drop_app_le. lia.
Qed.

Lemma word4_received :
  4 <= Z.of_nat (length body) -> rd32 frame 16 = rd32 body 0.
Proof.
  intros H4. rewrite frame_parts.
  change (rd32 (header ++ body ++ trailer) 16)
    with (rd32 (header ++ body ++ trailer) (Z.of_nat (length header) + 0)).
  rewrite (rd32_skip header (body ++ trailer) 0 ltac:(lia)).
  now apply rd32_inside.
Qed.

(** Without a version, an accepted frame is opened after its header, or
    after the return code when the first word of the body is one. *)
Lemma open_plain w seqo codeo :
  rd32 body 0 = Ok w ->
  open_payload None frame (Z.of_nat (length frame)) seqo codeo
  = Ok (if w <? 256
        then mkOpened (Z.of_nat (length body) - 4) 20 seqo codeo
        else mkOpened (Z.of_nat (length body)) 16 seqo codeo).
Proof.
  intros Hw. unfold open_payload.
  assert (H4 : 4 <= Z.of_nat (length body)).
  { revert Hw. unfold rd32. destruct (_ && _) eqn:E; [|discriminate].
    apply andb_true_iff in E as [_ E]. apply Z.leb_le in E. lia. }
  rewrite (word4_received H4), Hw. cbn [res_bind].
  rewrite (high_bits_clear w (rd32_range _ _ _ Hw)), length_frame.
  destruct (w <? 256); cbn [negb]; f_equal; f_equal; lia.
Qed.

Lemma strcmp_received s d :
  (16 <= d)%nat -> (length s + (d - 16) < length body)%nat ->
  strcmp_eq s (drop d frame) = strcmp_eq s (drop (d - 16) body).
Proof.
  intros Hd Hs. rewrite drop_frame by lia.
  apply strcmp_eq_inside. rewrite length_drop. lia.
Qed.

Lemma decrypt_received key d n :
  16 <= d -> 0 < n -> d + n = 16 + Z.of_nat (length body) ->
  housetuya_decrypt key (drop (Z.to_nat d) frame) n
  = housetuya_decrypt key (drop (Z.to_nat d - 16) body) n.
Proof.
  intros Hd Hn Hdn. rewrite drop_frame by lia.
  apply decrypt_inside. rewrite length_drop. lia.
Qed.

Lemma memcpy_received d n :
  16 <= d -> 0 <= n -> d + n = 16 + Z.of_nat (length body) ->
  memcpy (drop (Z.to_nat d) frame) n = Ok (drop (Z.to_nat d - 16) body).
Proof.
  intros Hd Hn Hdn. rewrite drop_frame by lia. unfold memcpy.
  rewrite List.length_app, length_drop, length_trailer.
  replace (n <? 0) with false by (symmetry; apply Z.ltb_ge; lia).
  replace (_ <? n) with false by (symmetry; apply Z.ltb_ge; lia).
  cbn [orb]. f_equal. apply take_app_length'. rewrite length_drop. lia.
Qed.

End Received.

Lemma envelope_as_received sequence code body :
  envelope sequence code body
  = envelope_with (be32 (Crc.housetuya_crc body)) sequence code body.
Proof. reflexivity. Qed.

(** X6. Every frame that [housetuya_encode] makes with a key passes the
    checks of [housetuya_open_envelop]: opened without a version, it
    gives back the sequence number and the command code, and a payload
    that is not empty and ends where the trailer starts. *)
Theorem encoded_frame_opens size access code sequence data frame :
  housetuya_encode size access code sequence data = Ok frame ->
  key access <> None ->
  frame <> [] ->
  - 2 ^ 31 <= sequence < 2 ^ 31 ->
  - 2 ^ 31 <= code < 2 ^ 31 ->
  size < 2 ^ 31 - 64 ->
  exists o,
    housetuya_open_envelop None frame (Z.of_nat (length frame)) = Ok o
    /\ opened_sequence o = Some sequence
    /\ opened_code o = Some code
    /\ 0 < opened_length o
    /\ opened_data o + opened_length o = Z.of_nat (length frame) - 8.
Proof.
  intros H Hkey Hne Hseq Hcode Hsize.
  destruct (Z.ltb_spec (size - 15) (Z.of_nat (length (cstr data)))) as [Hbig|Hfit].
  { now rewrite (encode_refused _ _ _ _ _ _ H Hbig) in Hne. }
  destruct (encode_inv _ _ _ _ _ _ H Hfit) as (header & enc & -> & Hh & He).
  destruct (key access); [|contradiction].
  set (body := header ++ enc).
  assert (Hb : 16 <= Z.of_nat (length body) < 2 ^ 31 - 8).
  { unfold body. rewrite List.length_app, Nat2Z.inj_add, He.
    pose proof (Z.div_mod (Z.of_nat (length (cstr data))) 16 ltac:(lia)).
    pose proof (Z.mod_pos_bound (Z.of_nat (length (cstr data))) 16 ltac:(lia)).
    assert (0 <= Z.of_nat (length (cstr data)) / 16)
      by (apply Z.div_pos; lia).
    destruct (_ && _); rewrite Hh; lia. }
  rewrite envelope_as_received.
  rewrite open_received by (try apply length_be32; lia).
  destruct (rd32_inside body [] 0 ltac:(lia) ltac:(lia)) as [[w Hw] _].
  rewrite (open_plain _ _ _ _ (length_be32 _) w _ _ Hw).
  rewrite length_frame by apply length_be32.
  destruct (w <? 256); eexists; (split; [reflexivity|]); cbn; repeat split; lia.
Qed.

Lemma encoded_frame_opens_witness :
  exists o,
    housetuya_open_envelop None example_control_frame
      (Z.of_nat (length example_control_frame)) = Ok o
    /\ opened_sequence o = Some 5
    /\ opened_code o = Some TUYA_CONTROL
    /\ 0 < opened_length o
    /\ opened_data o + opened_length o
       = Z.of_nat (length example_control_frame) - 8.
Proof.
  apply (encoded_frame_opens 1024 example_secret TUYA_CONTROL 5
           (snprintf_1024 (control_command example_secret 1700000000 1 1))).
  - reflexivity.
  - discriminate.
  - discriminate.
  - split; [discriminate | reflexivity].
  - split; [discriminate | reflexivity].
  - reflexivity.
Defined.

Lemma open_payload_span version buffer length seqo codeo o :
  open_payload version buffer length seqo codeo = Ok o ->
  16 <= opened_data o
  /\ opened_data o + opened_length o = length - 8
  /\ opened_sequence o = seqo /\ opened_code o = codeo.
Proof.
  unfold open_payload.
  destruct (rd32 buffer 16) as [w|]; [|discriminate]. cbn [res_bind].
  destruct (negb _); (destruct version as [v|];
    [destruct (strcmp_eq _ _) as [[|]|]; [| |discriminate]|]);
    cbn [res_bind]; intros [= <-]; cbn; repeat split; lia.
Qed.

Lemma open_envelop_span version buffer length o :
  housetuya_open_envelop version buffer length = Ok o ->
  opened_length o = 0
  \/ (16 <= opened_data o
      /\ opened_data o + opened_length o = length - 8).
Proof.
  unfold housetuya_open_envelop.
  destruct (rd32 buffer 0) as [prefix|]; [|discriminate]. cbn [res_bind].
  destruct (negb _); [intros [= <-]; now left|].
  destruct (rd32 buffer 4) as [s|]; [|discriminate]. cbn [res_bind].
  destruct (rd32 buffer 8) as [c|]; [|discriminate]. cbn [res_bind].
  destruct (rd32 buffer 12) as [l|]; [|discriminate]. cbn [res_bind].
  destruct (negb _); [intros [= <-]; now left|].
  destruct (rd32 buffer _) as [x|]; [|discriminate]. cbn [res_bind].
  destruct (negb _); [intros [= <-]; now left|].
  intros H. apply open_payload_span in H. right. tauto.
Qed.

(** X7. With a secret, the length that [housetuya_extract] returns is
    never negative and, unless it is 0, is less than the frame's length
    by more than the 24 bytes of header and trailer; a positive length
    has a NUL in [buffer] just after it, whatever [size] is. *)
Theorem housetuya_extract_bounds size secret raw length e :
  housetuya_extract size (Some secret) raw length = Ok e ->
  0 <= extracted_length e
  /\ (extracted_length e = 0 \/ extracted_length e < length - 24)
  /\ (0 < extracted_length e ->
      extracted_buffer e !! Z.to_nat (extracted_length e) = Some x00).
Proof.
  unfold housetuya_extract.
  destruct (length <=? 0); [intros [= <-]; cbn; lia|].
  destruct (housetuya_open_envelop _ _ _) as [o|] eqn:Ho; [|discriminate].
  cbn [res_bind].
  destruct (opened_length o <=? 0) eqn:Hz; [intros [= <-]; cbn; lia|].
  apply Z.leb_gt in Hz.
  destruct (housetuya_decrypt _ _ _) as [[datalen buffer]|] eqn:Hd;
    [|discriminate].
  cbn [res_bind].
  apply open_envelop_span in Ho.
  destruct (Z.leb_spec datalen 0); intros [= <-]; cbn; [lia|].
  destruct (decrypt_inv _ _ _ _ _ Hd)
    as [[-> _]|(Hpos & Hmod & c & Hc & Hn & ->)]; [lia|].
  split; [lia|]. split; [lia|]. intros _.
  assert (Hnul : terminate c (Z.to_nat datalen) !! Z.to_nat datalen
                 = Some x00) by (apply terminate_lookup; lia).
  destruct (datalen <? size); [|exact Hnul].
  apply terminate_lookup. apply lookup_lt_Some in Hnul. lia.
Qed.

Lemma housetuya_extract_bounds_witness :
  0 <= 63
  /\ (63 = 0 \/ 63 < 103 - 24)
  /\ (0 < 63 ->
      (control_command example_secret 1700000000 1 1 ++ [x00])
        !! Z.to_nat 63 = Some x00).
Proof.
  apply (housetuya_extract_bounds 1600 example_secret example_control_frame
           103
           (mkExtracted 63
              (control_command example_secret 1700000000 1 1 ++ [x00])
              (Some TUYA_CONTROL) (Some 5))).
  vm_compute. reflexivity.
Defined.

(** X8. Without a secret (the plain discovery port), a frame laid out as
    an envelope around a body of four bytes or more, whatever is in its
    CRC field, is decoded to its body: without the first four bytes when
    they are a return code (a word below 256), whole otherwise; a NUL
    follows when [size] leaves room for it. *)
Theorem housetuya_extract_plain size crc sequence code body :
  length crc = 4%nat ->
  - 2 ^ 31 <= sequence < 2 ^ 31 ->
  - 2 ^ 31 <= code < 2 ^ 31 ->
  4 <= Z.of_nat (length body) < 2 ^ 31 - 8 ->
  exists w,
    rd32 body 0 = Ok w
    /\ let payload := if w <? 256 then drop 4 body else body in
       housetuya_extract size None (envelope_with crc sequence code body)
         (24 + Z.of_nat (length body))
       = Ok (mkExtracted (Z.of_nat (length payload))
               (if Z.of_nat (length payload) <? size
                then payload ++ [x00] else payload)
               (Some code) (Some sequence)).
Proof.
  intros Hcrc Hseq Hcode [H4 Hbody].
  destruct (rd32_inside body [] 0 ltac:(lia) H4) as [[w Hw] _].
  exists w. split; [exact Hw|]. intros payload.
  unfold housetuya_extract.
  replace (_ <=? 0) with false by (symmetry; apply Z.leb_gt; lia).
  rewrite <- (length_frame crc sequence code body Hcrc).
  rewrite open_received by assumption.
  rewrite (open_plain _ _ _ _ Hcrc w _ _ Hw). cbn [res_bind].
  subst payload. destruct (w <? 256); cbn [opened_length opened_data].
  - rewrite (memcpy_received crc sequence code body Hcrc 20) by lia.
    cbn [res_bind]. change (Z.to_nat 20 - 16)%nat with 4%nat.
    rewrite length_drop, Nat2Z.inj_sub by lia. reflexivity.
  - rewrite (memcpy_received crc sequence code body Hcrc 16) by lia.
    cbn [res_bind]. reflexivity.
Qed.

Lemma housetuya_extract_plain_witness :
  exists w,
    rd32 (be32 0 ++ chars "{}") 0 = Ok w
    /\ let payload :=
         if w <? 256 then drop 4 (be32 0 ++ chars "{}")
         else be32 0 ++ chars "{}" in
       housetuya_extract 1024 None example_beacon_frame
         (24 + Z.of_nat (length (be32 0 ++ chars "{}")))
       = Ok (mkExtracted (Z.of_nat (length payload))
               (if Z.of_nat (length payload) <? 1024
                then payload ++ [x00] else payload)
               (Some 19) (Some 0)).
Proof.
  apply (housetuya_extract_plain 1024 [x12; x34; x56; x78] 0 19
           (be32 0 ++ chars "{}")).
  - reflexivity.
  - split; [discriminate | reflexivity].
  - split; [discriminate | reflexivity].
  - split; [discriminate | reflexivity].
Defined.

(** X9. [housetuya_extract] does not look at the CRC field: two frames
    that differ only there are decoded alike, with or without a secret.
    The body is taken long enough for the first word and the version
    string to be read within it. *)
Theorem housetuya_extract_ignores_crc
    size secret crc crc' sequence code body :
  length crc = 4%nat -> length crc' = 4%nat ->
  - 2 ^ 31 <= sequence < 2 ^ 31 ->
  - 2 ^ 31 <= code < 2 ^ 31 ->
  4 <= Z.of_nat (length body) < 2 ^ 31 - 8 ->
  (forall s v, secret = Some s -> version s = Some v ->
     (length (cstr v) + 4 < length body)%nat) ->
  housetuya_extract size secret (envelope_with crc sequence code body)
    (24 + Z.of_nat (length body))
  = housetuya_extract size secret (envelope_with crc' sequence code body)
      (24 + Z.of_nat (length body)).
Proof.
  intros Hcrc Hcrc' Hseq Hcode [H4 Hbody] Hv.
  destruct (rd32_inside body [] 0 ltac:(lia) H4) as [[w Hw] _].
  destruct secret as [s|].
  2:{ unfold housetuya_extract.
      replace (_ <=? 0) with false by (symmetry; apply Z.leb_gt; lia).
      rewrite <- (length_frame crc sequence code body Hcrc) at 1.
      rewrite <- (length_frame crc' sequence code body Hcrc').
      rewrite !open_received by assumption.
      rewrite (open_plain crc _ _ _ Hcrc w _ _ Hw).
      rewrite (open_plain crc' _ _ _ Hcrc' w _ _ Hw). cbn [res_bind].
      destruct (w <? 256); cbn [opened_length opened_data].
      - now rewrite (memcpy_received crc sequence code body Hcrc 20),
          (memcpy_received crc' sequence code body Hcrc' 20) by lia.
      - now rewrite (memcpy_received crc sequence code body Hcrc 16),
          (memcpy_received crc' sequence code body Hcrc' 16) by lia. }
  unfold housetuya_extract.
  replace (_ <=? 0) with false by (symmetry; apply Z.leb_gt; lia).
  rewrite <- (length_frame crc sequence code body Hcrc) at 1.
  rewrite <- (length_frame crc' sequence code body Hcrc').
  rewrite !open_received by assumption.
  rewrite !length_frame by assumption.
  unfold open_payload.
  rewrite !word4_received, Hw by assumption. cbn [res_bind].
  specialize (Hv s).
  assert (Hdec : forall d n, 16 <= d -> d + n = 16 + Z.of_nat (length body) ->
    (if n <=? 0 then Ok (mkExtracted 0 [] (Some code) (Some sequence))
     else
       do '(datalen, buffer) <-
         housetuya_decrypt (key s)
           (drop (Z.to_nat d) (envelope_with crc sequence code body)) n;
       if datalen <=? 0
       then Ok (mkExtracted 0 buffer (Some code) (Some sequence))
       else Ok (mkExtracted datalen
                  (if datalen <? size
                   then terminate buffer (Z.to_nat datalen) else buffer)
                  (Some code) (Some sequence)))
    = (if n <=? 0 then Ok (mkExtracted 0 [] (Some code) (Some sequence))
     else
       do '(datalen, buffer) <-
         housetuya_decrypt (key s)
           (drop (Z.to_nat d) (envelope_with crc' sequence code body)) n;
       if datalen <=? 0
       then Ok (mkExtracted 0 buffer (Some code) (Some sequence))
       else Ok (mkExtracted datalen
                  (if datalen <? size
                   then terminate buffer (Z.to_nat datalen) else buffer)
                  (Some code) (Some sequence)))).
  { intros d n Hd Hdn. destruct (Z.leb_spec n 0); [reflexivity|].
    now rewrite !decrypt_received by (assumption || lia). }
  destruct (version s) as [v|].
  - specialize (Hv v eq_refl eq_refl).
    destruct (negb _); cbv beta iota zeta.
    + change (Z.to_nat 16) with 16%nat.
      rewrite !strcmp_received by (assumption || lia).
      destruct (strcmp_eq _ _) as [[|]|]; cbn [res_bind]; [| |reflexivity];
        cbn [opened_length opened_data opened_code opened_sequence];
        apply Hdec; lia.
    + change (Z.to_nat 20) with 20%nat.
      rewrite !strcmp_received by (assumption || lia).
      destruct (strcmp_eq _ _) as [[|]|]; cbn [res_bind]; [| |reflexivity];
        cbn [opened_length opened_data opened_code opened_sequence];
        apply Hdec; lia.
  - destruct (negb _); cbv beta iota zeta; cbn [res_bind];
      cbn [opened_length opened_data opened_code opened_sequence];
      apply Hdec; lia.
Qed.

Lemma housetuya_extract_ignores_crc_witness :
  housetuya_extract 1600 (Some example_secret)
    (envelope_with [x00; x00; x00; x00] 5 TUYA_CONTROL example_control_body)
    (24 + Z.of_nat (length example_control_body))
  = housetuya_extract 1600 (Some example_secret)
      (envelope_with (be32 (Crc.housetuya_crc example_control_body)) 5
         TUYA_CONTROL example_control_body)
      (24 + Z.of_nat (length example_control_body)).
Proof.
  apply (housetuya_extract_ignores_crc 1600 (Some example_secret)
           [x00; x00; x00; x00]
           (be32 (Crc.housetuya_crc example_control_body))
           5 TUYA_CONTROL example_control_body).
  - reflexivity.
  - reflexivity.
  - split; [discriminate | reflexivity].
  - split; [discriminate | reflexivity].
  - split; [discriminate | reflexivity].
  - intros s v [= <-] [= <-]. cbn. lia.
Defined.

End CodecFacts.

(** ** More on the device engine: what every callback keeps *)

Module EngineFacts.
Import Bytes Messages Device DeviceFacts DeviceViews.

(** *** Searches *)

Lemma search_spec (p : DeviceMap -> bool) l : forall i,
  (search p l i = -1 \/ i <= search p l i < i + Z.of_nat (length l))
  /\ (forall r, 0 <= i -> search p l i = r -> 0 <= r ->
      exists d, l !! Z.to_nat (r - i) = Some d /\ p d = true)
  /\ (0 <= i -> search p l i < 0 -> Forall (fun d => p d = false) l).
Proof.
  induction l as [|d l IH]; intros i; cbn [search length].
  - split; [now left|]. split; [intros; lia | constructor].
  - destruct (p d) eqn:Hp.
    + split; [right; lia|]. split.
      * intros r Hi <- _. exists d. now rewrite Z.sub_diag.
      * intros; lia.
    + destruct (IH (i + 1)) as (Hr & Hf & Hn). split; [|split].
      * destruct Hr as [Hr|Hr]; [now left | right; lia].
      * intros r Hi Hs Hr0.
        destruct (Hf r ltac:(lia) Hs Hr0) as (d' & Hd' & Hp').
        exists d'. split; [|exact Hp'].
        assert (i + 1 <= r) by (destruct Hr as [Hr|Hr]; lia).
        replace (Z.to_nat (r - i)) with (S (Z.to_nat (r - (i + 1)))) by lia.
        exact Hd'.
      * intros Hi Hs. constructor; [exact Hp | apply Hn; lia].
Qed.

Lemma search_found (p : DeviceMap -> bool) l r :
  search p l 0 = r -> 0 <= r ->
  exists d, l !! Z.to_nat r = Some d /\ p d = true.
Proof.
  intros Hs Hr. destruct (search_spec p l 0) as (_ & Hf & _).
  destruct (Hf r ltac:(lia) Hs Hr) as (d & Hd & Hp).
  rewrite Z.sub_0_r in Hd. eauto.
Qed.

Lemma search_none (p : DeviceMap -> bool) l :
  search p l 0 < 0 -> Forall (fun d => p d = false) l.
Proof. intros H. now apply (search_spec p l 0). Qed.

Lemma search_first (p : DeviceMap -> bool) l : forall i (n : nat) d,
  l !! n = Some d -> p d = true ->
  (forall m dm, (m < n)%nat -> l !! m = Some dm -> p dm = false) ->
  search p l i = i + Z.of_nat n.
Proof.
  induction l as [|d0 l IH]; intros i n d Hd Hp Hbefore; [discriminate|].
  destruct n as [|n]; cbn [search].
  - injection Hd as ->. rewrite Hp. lia.
  - rewrite (Hbefore 0%nat d0 ltac:(lia) eq_refl).
    rewrite (IH (i + 1) n d Hd Hp); [lia|].
    intros m dm Hm Hdm. apply (Hbefore (S m) dm); [lia | exact Hdm].
Qed.

(** *** Rows *)

Lemma keeps_refl d : keeps d d.
Proof. split; auto. Qed.

Lemma keeps_trans d1 d2 d3 : keeps d1 d2 -> keeps d2 d3 -> keeps d1 d3.
Proof.
  intros [H1 H2] [H3 H4]. split; [congruence | auto].
Qed.

Lemma close_keeps c : keeps (fst c) (fst (housetuya_device_close c)).
Proof.
  destruct c as [dev log]. unfold housetuya_device_close.
  destruct (0 <=? socket dev); [|apply keeps_refl].
  split; [reflexivity|]. intros _ _. reflexivity.
Qed.

Lemma close_closed c :
  let d' := fst (housetuya_device_close c) in
  staged_on_socket (fst c) -> socket d' < 0 /\ outlength d' = 0.
Proof.
  destruct c as [dev log]. unfold housetuya_device_close, staged_on_socket.
  cbn [fst]. destruct (Z.leb_spec 0 (socket dev)); cbn; intros; lia.
Qed.

Lemma reset_keeps status_ c :
  keeps (fst c) (fst (housetuya_device_reset status_ c)).
Proof.
  destruct c as [dev log]. unfold housetuya_device_reset.
  eapply keeps_trans; [|apply close_keeps]. cbn [fst].
  split; [reflexivity | auto].
Qed.

Section Rows.

Variable env : Env.

Lemma preamble_keeps c :
  keeps (fst c) (fst (snd (housetuya_device_preamble env c))).
Proof.
  destruct c as [dev log]. unfold housetuya_device_preamble. cbn [fst].
  destruct (ipaddress dev =? 0); [apply keeps_refl|].
  destruct (negb (encrypted dev =? 0) && _); [apply keeps_refl|].
  set (dev1 := if control dev <=? 0 then _ else dev).
  assert (H1 : keeps dev dev1).
  { subst dev1. destruct (control dev <=? 0); [|apply keeps_refl].
    split; [reflexivity | auto]. }
  destruct (control dev1 <=? 0); [exact H1|].
  pose proof (close_keeps (dev1, log)) as H2.
  pose proof (close_socket (dev1, log)) as H3.
  destruct (housetuya_device_close (dev1, log)) as [dev2 log2].
  cbn [fst] in H2, H3.
  eapply keeps_trans; [exact H1|]. eapply keeps_trans; [exact H2|].
  destruct (Z.ltb_spec (env_connect env log2 (host dev2)) 0);
    cbn [fst snd]; (split; [reflexivity|]); unfold staged_on_socket; cbn.
  - intros Hst _. now apply Hst.
  - intros _ ?. lia.
Qed.

Lemma preamble_ready c :
  fst (housetuya_device_preamble env c) = true ->
  0 <= socket (fst (snd (housetuya_device_preamble env c))).
Proof.
  destruct c as [dev log]. unfold housetuya_device_preamble.
  destruct (ipaddress dev =? 0); [discriminate|].
  destruct (negb (encrypted dev =? 0) && _); [discriminate|].
  destruct (control _ <=? 0); [discriminate|].
  destruct (housetuya_device_close _) as [dev2 log2].
  destruct (Z.ltb_spec (env_connect env log2 (host dev2)) 0);
    [discriminate|]. cbn. lia.
Qed.

Lemma sense_keeps device now c :
  keeps (fst c) (fst (housetuya_device_sense env device now c)).
Proof.
  unfold housetuya_device_sense.
  pose proof (preamble_keeps c) as H. pose proof (preamble_ready c) as Hr.
  destruct (housetuya_device_preamble env c) as [ready [dev log]].
  cbn [fst snd] in H, Hr. destruct ready; [|exact H].
  eapply keeps_trans; [exact H|]. cbn [negb fst].
  split; [reflexivity|]. unfold staged_on_socket. cbn.
  specialize (Hr eq_refl). intros _ ?. lia.
Qed.

Lemma control_keeps device state now c :
  keeps (fst c) (fst (housetuya_device_control env device state now c)).
Proof.
  unfold housetuya_device_control.
  pose proof (preamble_keeps c) as H. pose proof (preamble_ready c) as Hr.
  destruct (housetuya_device_preamble env c) as [ready [dev log]].
  cbn [fst snd] in H, Hr. destruct ready; [|exact H].
  eapply keeps_trans; [exact H|]. cbn [negb fst].
  split; [reflexivity|]. unfold staged_on_socket. cbn.
  specialize (Hr eq_refl). intros _ ?. lia.
Qed.

Lemma set_row_keeps device state pulse now c :
  keeps (fst c) (fst (snd (set_row env device state pulse now c))).
Proof.
  destruct c as [dev log]. unfold set_row. cbn [fst].
  set (dev1 := if pulse >? 0 then _ else _).
  assert (H1 : keeps dev dev1)
    by (subst dev1; destruct (pulse >? 0); (split; [reflexivity | auto])).
  destruct (negb (pending _ =? 0)); cbn [fst snd].
  { eapply keeps_trans; [exact H1|]. split; [reflexivity | auto]. }
  destruct (negb (detected _ =? 0)); cbn [fst snd].
  - eapply keeps_trans; [exact H1|].
    eapply keeps_trans; [|apply control_keeps]. cbn [fst].
    split; [reflexivity | auto].
  - eapply keeps_trans; [exact H1|]. split; [reflexivity | auto].
Qed.

Lemma sweep_sense_keeps now i c :
  keeps (fst c) (fst (sweep_sense env now i c)).
Proof.
  destruct c as [dev log]. unfold sweep_sense. cbn [fst].
  destruct (now >=? last_sense dev + 35); [|apply keeps_refl].
  destruct ((pending dev =? 0) && negb (ipaddress dev =? 0)).
  - pose proof (sense_keeps i now (housetuya_device_close (dev, log))) as H.
    pose proof (close_keeps (dev, log)) as H0.
    destruct (housetuya_device_sense env i now _) as [dev' log'].
    cbn [fst] in *. eapply keeps_trans; [exact H0|].
    eapply keeps_trans; [exact H|]. split; [reflexivity | auto].
  - cbn [fst]. split; [reflexivity | auto].
Qed.

Lemma sweep_silence_keeps now i c :
  keeps (fst c) (fst (sweep_silence now i c)).
Proof.
  destruct c as [dev log]. unfold sweep_silence. cbn [fst].
  destruct (_ && _); [|apply keeps_refl].
  pose proof (close_keeps (dev, houselog_event (name dev) "SILENT" :: log))
    as H0.
  pose proof (reset_keeps 0
                (housetuya_device_close
                   (dev, houselog_event (name dev) "SILENT" :: log))) as H1.
  destruct (housetuya_device_reset 0 _) as [dev' log'].
  cbn [fst] in *. eapply keeps_trans; [exact H0|].
  eapply keeps_trans; [exact H1|]. split; [reflexivity | auto].
Qed.

Lemma sweep_pulse_keeps now i c :
  keeps (fst c) (fst (sweep_pulse now i c)).
Proof.
  destruct c as [dev log]. unfold sweep_pulse. cbn [fst].
  destruct (_ && _); [|apply keeps_refl]. split; [reflexivity | auto].
Qed.

Lemma sweep_reconcile_keeps now i c :
  keeps (fst c) (fst (sweep_reconcile env now i c)).
Proof.
  destruct c as [dev log]. unfold sweep_reconcile. cbn [fst].
  destruct (negb (status dev =? commanded dev)); [|apply keeps_refl].
  destruct (pending dev >? now).
  - destruct (negb (detected dev =? 0)); [|apply keeps_refl].
    apply (control_keeps i (commanded dev) now
             (dev, houselog_event (name dev) "RETRY" :: log)).
  - destruct (negb (pending dev =? 0)); [|apply keeps_refl].
    pose proof (close_keeps (dev, houselog_event (name dev) "TIMEOUT" :: log))
      as H0.
    destruct (housetuya_device_close _) as [dev1 log1]. cbn [fst] in H0.
    eapply keeps_trans; [exact H0|].
    apply (reset_keeps (status dev1) (dev1, log1)).
Qed.

Lemma visit_keeps now i c :
  keeps (fst c) (fst (snd (visit env now i c))).
Proof.
  unfold visit. cbn [fst snd].
  eapply keeps_trans; [apply sweep_sense_keeps|].
  eapply keeps_trans; [apply sweep_silence_keeps|].
  eapply keeps_trans; [apply sweep_pulse_keeps|].
  apply sweep_reconcile_keeps.
Qed.

End Rows.

Lemma status_update_row_keeps status_ now c :
  keeps (fst c) (fst (snd (status_update_row status_ now c))).
Proof.
  destruct c as [dev log]. unfold status_update_row. cbn [fst].
  destruct (negb (status_ =? status dev)); [|split; [reflexivity | auto]].
  destruct (negb (pending dev =? 0) && (status_ =? commanded dev));
    (split; [reflexivity | auto]).
Qed.

Lemma discovery_row_keeps b now c :
  keeps (fst c) (fst (snd (discovery_row b now c))).
Proof.
  destruct c as [dev log]. unfold discovery_row. cbn [fst].
  destruct (housetuya_device_refresh_string _ _) as [m c1].
  destruct (housetuya_device_refresh_string _ _) as [v c2].
  destruct (negb (_ =? sin_addr b)).
  - destruct (housetuya_device_refresh_string _ _) as [h c3].
    destruct (detected _ =? 0); (split; [reflexivity | auto]).
  - destruct (detected _ =? 0); (split; [reflexivity | auto]).
Qed.

(** *** The table *)

Lemma keeps_table_refl l : Forall2 keeps l l.
Proof. induction l; constructor; auto using keeps_refl. Qed.

Lemma keeps_table_trans l1 l2 l3 :
  Forall2 keeps l1 l2 -> Forall2 keeps l2 l3 -> Forall2 keeps l1 l3.
Proof. apply Forall2_trans. exact keeps_trans. Qed.

Lemma at_row_rows {A} j (f : Cell -> A * Cell) w a w' :
  (forall c, keeps (fst c) (fst (snd (f c)))) ->
  at_row j f w = Ok (a, w') ->
  Forall2 keeps (Devices w) (Devices w')
  /\ DeviceListChanged w' = DeviceListChanged w
  /\ LastRetry w' = LastRetry w.
Proof.
  intros Hf H.
  assert (Hflags : DeviceListChanged w' = DeviceListChanged w
                   /\ LastRetry w' = LastRetry w).
  { revert H. unfold at_row. destruct (row w j); [|discriminate].
    cbn [res_bind]. destruct (f _) as [a' [d' log']].
    now intros [= _ <-]. }
  split; [|exact Hflags].
  destruct (at_row_inv j f w a w' H) as (dj & Hj & Hdj & _ & -> & _).
  rewrite <- (list_insert_id (Devices w) (Z.to_nat j) dj Hdj) at 1.
  apply Forall2_insert; [apply keeps_table_refl|].
  apply (Hf (dj, Log w)).
Qed.

Section Table.

Variable env : Env.

Lemma sweep_rows now n : forall from w w',
  sweep env now from n w = Ok w' ->
  Forall2 keeps (Devices w) (Devices w') /\ LastRetry w' = LastRetry w
  /\ DeviceListChanged w' = DeviceListChanged w.
Proof.
  induction n as [|n IH]; intros from w w'; cbn [sweep].
  - intros [= <-]. split; [apply keeps_table_refl | auto].
  - destruct (at_row from (visit env now from) w) as [[[] w1]|] eqn:Hv;
      [|discriminate].
    cbn [res_bind]. intros Hs.
    destruct (at_row_rows _ _ _ _ _ (visit_keeps env now from) Hv)
      as (H1 & Hc1 & Hr1).
    destruct (IH _ _ _ Hs) as (H2 & Hr2 & Hc2).
    split; [eapply keeps_table_trans; eassumption|]. split; congruence.
Qed.

Lemma periodic_rows now w w' :
  housetuya_device_periodic env now w = Ok w' ->
  Forall2 keeps (Devices w) (Devices w').
Proof.
  unfold housetuya_device_periodic.
  destruct (now <? LastRetry w + 5); [intros [= <-]; apply keeps_table_refl|].
  intros H. now apply sweep_rows in H.
Qed.

Lemma set_rows device state pulse now w r w' :
  housetuya_device_set env device state pulse now w = Ok (r, w') ->
  Forall2 keeps (Devices w) (Devices w').
Proof.
  unfold housetuya_device_set.
  destruct (_ || _); [intros [= _ <-]; apply keeps_table_refl|].
  intros H. now apply at_row_rows in H; [|apply set_row_keeps].
Qed.

End Table.

Lemma status_update_rows device status_ now w w' :
  housetuya_device_status_update device status_ now w = Ok w' ->
  Forall2 keeps (Devices w) (Devices w').
Proof.
  unfold housetuya_device_status_update.
  destruct (device <? 0); [intros [= <-]; apply keeps_table_refl|].
  destruct (at_row device _ w) as [[[] w1]|] eqn:H; [|discriminate].
  cbn [res_bind]. intros [= <-].
  now apply at_row_rows in H; [|apply status_update_row_keeps].
Qed.

Lemma close_rows device w w' :
  at_row device (fun c => (tt, housetuya_device_close c)) w = Ok (tt, w') ->
  Forall2 keeps (Devices w) (Devices w').
Proof.
  intros H. apply at_row_rows in H; [tauto|].
  intros c. apply close_keeps.
Qed.

Lemma receive_rows fd r now w w' :
  housetuya_device_receive fd r now w = Ok w' ->
  Forall2 keeps (Devices w) (Devices w').
Proof.
  unfold housetuya_device_receive.
  destruct (_ <? 0); [intros [= <-]; apply keeps_table_refl|].
  destruct (read_length r <=? 0).
  { destruct (at_row _ _ w) as [[[] w1]|] eqn:H; [|discriminate].
    cbn [res_bind]. intros [= <-]. now apply close_rows in H. }
  destruct (reply_code r =? TUYA_CONTROL);
    [intros [= <-]; apply keeps_table_refl|].
  destruct (reply_length r <=? 4); [intros [= <-]; apply keeps_table_refl|].
  destruct (at_row _ _ w) as [[[] w1]|] eqn:H; [|discriminate].
  cbn [res_bind]. apply close_rows in H.
  destruct (_ && _); [now intros [= <-]|].
  destruct (reply_dps r); try (now intros [= <-]).
  intros Hu. apply status_update_rows in Hu.
  eapply keeps_table_trans; eassumption.
Qed.

Lemma send_rows fd w w' :
  housetuya_device_send fd w = Ok w' ->
  Forall2 keeps (Devices w) (Devices w').
Proof.
  unfold housetuya_device_send.
  destruct (_ <? 0); [intros [= <-]; apply keeps_table_refl|].
  destruct (at_row _ _ w) as [[[] w1]|] eqn:H; [|discriminate].
  cbn [res_bind]. intros [= <-].
  apply at_row_rows in H; [tauto|].
  intros [dev log]. cbn [fst].
  destruct (outlength dev >? 0); cbn [fst snd];
    [|apply keeps_refl].
  split; [reflexivity|]. intros _ _. reflexivity.
Qed.

(** The row that [housetuya_device_discovery] adds for an unknown id. *)
Lemma discovery_rows b now w w' :
  housetuya_device_discovery b now w = Ok w' ->
  if housetuya_device_id_search (Some (gwId b)) w <? 0
  then
    exists new,
      Forall2 keeps (Devices w ++ [new]) (Devices w')
      /\ identity new
         = (Some (cstr (chars "new_" ++ decimal (DevicesCount w))),
            Some (cstr (gwId b)), None)
      /\ socket new = -1 /\ outlength new = 0
  else Forall2 keeps (Devices w) (Devices w').
Proof.
  unfold housetuya_device_discovery.
  destruct (_ <? 0).
  - unfold housetuya_device_add.
    set (new := set_socket (-1) _).
    destruct (at_row _ _ _) as [[changed w1]|] eqn:H; [|discriminate].
    cbn [res_bind]. intros Hw'.
    apply at_row_rows in H; [|apply discovery_row_keeps].
    destruct H as (H & _). cbn [Devices] in H.
    exists new. split; [|now subst new].
    destruct changed; injection Hw' as <-; exact H.
  - destruct (at_row _ _ _) as [[changed w1]|] eqn:H; [|discriminate].
    cbn [res_bind]. intros Hw'.
    apply at_row_rows in H; [|apply discovery_row_keeps].
    destruct H as (H & _).
    destruct changed; injection Hw' as <-; exact H.
Qed.

Lemma step_rows env e w w' :
  step env e w = Ok w' ->
  Forall2 keeps (Devices w) (Devices w')
  \/ exists b now new,
       e = Discovered b now
       /\ housetuya_device_id_search (Some (gwId b)) w < 0
       /\ Forall2 keeps (Devices w ++ [new]) (Devices w')
       /\ identity new
          = (Some (cstr (chars "new_" ++ decimal (DevicesCount w))),
             Some (cstr (gwId b)), None)
       /\ socket new = -1 /\ outlength new = 0.
Proof.
  destruct e as [now|device state pulse now|b now|fd|fd r now]; cbn [step].
  - intros H. left. now apply periodic_rows in H.
  - destruct (housetuya_device_set _ _ _ _ _ _) as [[r w1]|] eqn:H;
      [|discriminate].
    cbn [res_bind]. intros [= <-]. left. now apply set_rows in H.
  - intros H. apply discovery_rows in H.
    destruct (Z.ltb_spec (housetuya_device_id_search (Some (gwId b)) w) 0).
    + destruct H as (new & H). right. exists b, now, new. tauto.
    + now left.
  - intros H. left. now apply send_rows in H.
  - intros H. left. now apply receive_rows in H.
Qed.

(** *** Which calls fault *)

Lemma at_row_total {A} i (f : Cell -> A * Cell) w :
  0 <= i < DevicesCount w -> exists r, at_row i f w = Ok r.
Proof.
  intros Hi. unfold DevicesCount in Hi.
  destruct (lookup_lt_is_Some_2 (Devices w) (Z.to_nat i) ltac:(lia))
    as [d Hd].
  rewrite (at_row_ok i f w d ltac:(lia) Hd). eauto.
Qed.

Ltac row_total H :=
  match goal with
  | |- context [at_row ?i ?f ?w] =>
      let r := fresh "r" in
      let E := fresh "E" in
      destruct (at_row_total i f w H) as [r E]; rewrite E;
      destruct r as [? ?]; cbn [res_bind]
  end.

Lemma search_range (p : DeviceMap -> bool) w :
  search p (Devices w) 0 < 0
  \/ 0 <= search p (Devices w) 0 < DevicesCount w.
Proof.
  destruct (search_spec p (Devices w) 0) as ([H|H] & _);
    unfold DevicesCount; lia.
Qed.

Lemma send_total fd w : exists w', housetuya_device_send fd w = Ok w'.
Proof.
  unfold housetuya_device_send, housetuya_device_socket_search.
  destruct (search_range (fun d => socket d =? fd) w) as [H|H].
  - replace (_ <? 0) with true by (symmetry; apply Z.ltb_lt; lia). eauto.
  - replace (_ <? 0) with false by (symmetry; apply Z.ltb_ge; lia).
    row_total H. eauto.
Qed.

Lemma status_update_total device status_ now w :
  device < DevicesCount w ->
  exists w', housetuya_device_status_update device status_ now w = Ok w'.
Proof.
  intros Hd. unfold housetuya_device_status_update.
  destruct (Z.ltb_spec device 0); [eauto|].
  assert (Hr : 0 <= device < DevicesCount w) by lia.
  row_total Hr. eauto.
Qed.

Lemma receive_total fd r now w :
  exists w', housetuya_device_receive fd r now w = Ok w'.
Proof.
  unfold housetuya_device_receive, housetuya_device_socket_search.
  destruct (search_range (fun d => socket d =? fd) w) as [H|H].
  { replace (_ <? 0) with true by (symmetry; apply Z.ltb_lt; lia). eauto. }
  replace (_ <? 0) with false by (symmetry; apply Z.ltb_ge; lia).
  set (device := search _ _ _) in *.
  destruct (at_row_total device (fun c => (tt, housetuya_device_close c)) w H)
    as [[[] w1] Hc].
  destruct (read_length r <=? 0); [rewrite Hc; cbn [res_bind]; eauto|].
  destruct (reply_code r =? TUYA_CONTROL); [eauto|].
  destruct (reply_length r <=? 4); [eauto|].
  rewrite Hc. cbn [res_bind].
  destruct (_ && _); [eauto|].
  destruct (reply_dps r); eauto.
  apply status_update_total.
  apply close_rows in Hc. apply Forall2_length in Hc.
  unfold DevicesCount in *. lia.
Qed.

Lemma discovery_total b now w :
  exists w', housetuya_device_discovery b now w = Ok w'.
Proof.
  unfold housetuya_device_discovery, housetuya_device_id_search.
  destruct (search_range (fun d => same_string (Some (gwId b)) (id (secret d))) w)
    as [H|H].
  - replace (_ <? 0) with true by (symmetry; apply Z.ltb_lt; lia).
    unfold housetuya_device_add.
    set (w1 := mkWorld (Devices w ++ _) _ _ _).
    assert (Hr : 0 <= DevicesCount w < DevicesCount w1).
    { unfold DevicesCount. subst w1. cbn [Devices].
      rewrite List.length_app. cbn. lia. }
    row_total Hr. eauto.
  - replace (_ <? 0) with false by (symmetry; apply Z.ltb_ge; lia).
    row_total H. eauto.
Qed.

(** X10. The only call into the engine that reads or writes a row beyond
    the table is [housetuya_device_set] with [DevicesCount] as the
    device, which its guard lets through. The periodic sweep, the
    discovery of a beacon and the two socket callbacks always find their
    row, and so does [housetuya_device_set] for every other device
    number (one outside the table changes nothing). *)
Theorem engine_faults env e w :
  (sets_beyond_table e w -> step env e w = Fault RowBeyondTable)
  /\ (~ sets_beyond_table e w -> exists w', step env e w = Ok w').
Proof.
  split.
  - destruct e as [now|device state pulse now|b now|fd|fd r now];
      cbn [sets_beyond_table]; try contradiction.
    intros ->. cbn [step]. unfold housetuya_device_set.
    replace (_ || _) with false.
    2:{ symmetry. apply orb_false_iff. split.
        - apply Z.ltb_ge. unfold DevicesCount. lia.
        - rewrite Z.gtb_ltb. apply Z.ltb_irrefl. }
    unfold at_row. now rewrite row_beyond.
  - destruct e as [now|device state pulse now|b now|fd|fd r now];
      cbn [sets_beyond_table step]; intros Hin.
    + apply periodic_total.
    + unfold housetuya_device_set.
      destruct (Z.ltb_spec device 0); [cbn [orb res_bind]; eauto|].
      rewrite Z.gtb_ltb.
      destruct (Z.ltb_spec (DevicesCount w) device);
        cbn [orb res_bind]; [eauto|].
      assert (Hr : 0 <= device < DevicesCount w)
        by (cbn [sets_beyond_table] in Hin; lia).
      row_total Hr. eauto.
    + apply discovery_total.
    + apply send_total.
    + apply receive_total.
Qed.

Lemma engine_faults_witness :
  step example_env (SetPoint 1 0 0 1001) example_world
    = Fault RowBeyondTable
  /\ exists w', step example_env (SetPoint 0 0 0 1001) example_world = Ok w'.
Proof.
  split.
  - apply (proj1 (engine_faults example_env (SetPoint 1 0 0 1001)
                    example_world)).
    reflexivity.
  - apply (proj2 (engine_faults example_env (SetPoint 0 0 0 1001)
                    example_world)).
    cbn. discriminate.
Defined.

(** *** What a run keeps *)

Lemma keeps_fields d d' :
  keeps d d' ->
  name d' = name d /\ id (secret d') = id (secret d)
  /\ key (secret d') = key (secret d).
Proof. intros [H _]. unfold identity in H. now injection H. Qed.

Lemma step_persists env e w w' :
  step env e w = Ok w' ->
  exists rest, Forall2 keeps (Devices w ++ rest) (Devices w').
Proof.
  intros H. destruct (step_rows _ _ _ _ H) as [H1|(b & now & new & _ & _ & H1 & _)].
  - exists []. now rewrite List.app_nil_r.
  - now exists [new].
Qed.

Lemma run_persists env es : forall w w',
  run env es w = Ok w' ->
  exists rest, Forall2 keeps (Devices w ++ rest) (Devices w').
Proof.
  induction es as [|e es IH]; intros w w'; cbn [run].
  - intros [= <-]. exists []. rewrite List.app_nil_r. apply keeps_table_refl.
  - destruct (step env e w) as [w1|] eqn:Hs; [|discriminate].
    cbn [res_bind]. intros Hr.
    destruct (step_persists _ _ _ _ Hs) as (r1 & H1).
    destruct (IH _ _ Hr) as (r2 & H2).
    exists (r1 ++ r2). rewrite List.app_assoc.
    eapply keeps_table_trans; [|exact H2].
    apply Forall2_app; [exact H1 | apply keeps_table_refl].
Qed.

(** X11. No run of the engine removes a device or changes who it is:
    every row of the table is still there afterwards, at the same index,
    with the same name, id and key; the table can only grow. *)
Theorem run_keeps_devices env es w w' :
  run env es w = Ok w' ->
  DevicesCount w <= DevicesCount w'
  /\ forall i d,
       row w i = Ok d ->
       exists d',
         row w' i = Ok d'
         /\ name d' = name d /\ id (secret d') = id (secret d)
         /\ key (secret d') = key (secret d).
Proof.
  intros H. destruct (run_persists _ _ _ _ H) as (rest & Hk).
  split.
  - apply Forall2_length in Hk. rewrite List.length_app in Hk.
    unfold DevicesCount. lia.
  - intros i d Hrow. apply row_inv in Hrow as [Hi Hd].
    destruct (Forall2_lookup_l _ _ _ (Z.to_nat i) d Hk) as (d' & Hd' & Hkk).
    { now apply lookup_app_l_Some. }
    exists d'. split; [now apply row_lookup | now apply keeps_fields].
Qed.

Lemma run_keeps_devices_witness :
  DevicesCount silent_world <= DevicesCount replied_world
  /\ forall i d,
       row silent_world i = Ok d ->
       exists d',
         row replied_world i = Ok d'
         /\ name d' = name d /\ id (secret d') = id (secret d)
         /\ key (secret d') = key (secret d).
Proof.
  apply (run_keeps_devices example_env reply_then_set).
  vm_compute. reflexivity.
Defined.

Lemma step_staged env e w w' :
  step env e w = Ok w' -> all_staged_on_socket w -> all_staged_on_socket w'.
Proof.
  intros H Hw. unfold all_staged_on_socket in *.
  assert (Hall : forall l k, Forall2 keeps l k ->
            Forall staged_on_socket l -> Forall staged_on_socket k).
  { intros l k Hk. induction Hk as [|x y l k [_ Hxy] _ IH]; [auto|].
    intros Hl. apply Forall_cons in Hl as [Hx Hl]. constructor; auto. }
  destruct (step_rows _ _ _ _ H)
    as [H1|(b & now & new & _ & _ & H1 & _ & Hs & Ho)].
  - now apply (Hall _ _ H1).
  - apply (Hall _ _ H1). apply Forall_app. split; [exact Hw|].
    constructor; [|constructor]. intros _. exact Ho.
Qed.

(** X12. A frame waits in [out] only on a socket: if no row of the table
    has a positive [outlength] without a socket, the same holds after
    every run (closing a socket drops the frame, and a frame is staged
    only once the connection is made). *)
Theorem run_staged_on_socket env es : forall w w',
  all_staged_on_socket w ->
  run env es w = Ok w' ->
  all_staged_on_socket w'.
Proof.
  induction es as [|e es IH]; intros w w' Hw; cbn [run].
  - now intros [= <-].
  - destruct (step env e w) as [w1|] eqn:Hs; [|discriminate].
    cbn [res_bind]. apply IH. now apply (step_staged env e w).
Qed.

Lemma run_staged_on_socket_witness : all_staged_on_socket replied_world.
Proof.
  apply (run_staged_on_socket example_env reply_then_set silent_world).
  - repeat constructor.
  - vm_compute. reflexivity.
Defined.

Lemma bytes_eqb_sym a : forall b, bytes_eqb a b = bytes_eqb b a.
Proof.
  induction a as [|x a IH]; intros [|y b]; cbn; try reflexivity.
  rewrite IH. f_equal.
  destruct (Byte.eqb x y) eqn:E.
  - apply BytesFacts.byte_eqb_eq in E as ->.
    symmetry. apply BytesFacts.byte_eqb_refl.
  - symmetry. apply BytesFacts.byte_eqb_neq.
    apply BytesFacts.byte_eqb_neq in E. congruence.
Qed.

Lemma same_string_sym a b : same_string a b = same_string b a.
Proof. destruct a, b; cbn; auto using bytes_eqb_sym. Qed.

Lemma same_string_cstr a b :
  same_string (Some (cstr a)) b = same_string (Some a) b.
Proof. destruct b; cbn; [|reflexivity]. now rewrite BytesFacts.cstr_idem. Qed.

Lemma distinct_ids_keeps l k q1 q2 q3 q1' q2' q3' :
  Forall2 keeps l k ->
  distinct_ids (mkWorld l q1 q2 q3) -> distinct_ids (mkWorld k q1' q2' q3').
Proof.
  intros Hk Hd i j di dj Hi Hj Hs. cbn [Devices] in *.
  destruct (Forall2_lookup_r _ _ _ i di Hk Hi) as (di0 & Hi0 & Hki).
  destruct (Forall2_lookup_r _ _ _ j dj Hk Hj) as (dj0 & Hj0 & Hkj).
  apply keeps_fields in Hki as (_ & Hidi & _).
  apply keeps_fields in Hkj as (_ & Hidj & _).
  apply (Hd i j di0 dj0 Hi0 Hj0). cbn [Devices]. congruence.
Qed.

Lemma step_distinct env e w w' :
  step env e w = Ok w' -> distinct_ids w -> distinct_ids w'.
Proof.
  intros H Hw. destruct w as [l q1 q2 q3], w' as [k q1' q2' q3'].
  destruct (step_rows _ _ _ _ H)
    as [H1|(b & now & new & _ & Hnew & H1 & Hid & _)];
    cbn [Devices] in H1.
  - now apply (distinct_ids_keeps l k q1 q2 q3).
  - apply (distinct_ids_keeps (l ++ [new]) k q1 q2 q3); [exact H1|].
    apply search_none in Hnew. cbn [Devices] in Hnew.
    assert (Hnid : id (secret new) = Some (cstr (gwId b)))
      by (unfold identity in Hid; now injection Hid).
    assert (Hfresh : forall n d, l !! n = Some d ->
              same_string (id (secret new)) (id (secret d)) = false).
    { intros n d Hd. rewrite Hnid, same_string_cstr.
      rewrite Forall_lookup in Hnew. now apply (Hnew n d). }
    intros i j di dj Hi Hj Hs. cbn [Devices] in Hi, Hj.
    apply lookup_app_Some in Hi as [Hi|[Hil Hi]];
      apply lookup_app_Some in Hj as [Hj|[Hjl Hj]].
    + now apply (Hw i j di dj).
    + apply list_lookup_singleton_Some in Hj as [_ <-].
      rewrite same_string_sym, (Hfresh i di Hi) in Hs. discriminate.
    + apply list_lookup_singleton_Some in Hi as [_ <-].
      rewrite (Hfresh j dj Hj) in Hs. discriminate.
    + apply list_lookup_singleton_Some in Hi as [Hi _].
      apply list_lookup_singleton_Some in Hj as [Hj _]. lia.
Qed.

(** X13. The engine never holds two devices with the same id: if the ids
    of the table are pairwise different, they still are after every run.
    A beacon adds a row only when no row has its [gwId]. *)
Theorem run_distinct_ids env es : forall w w',
  distinct_ids w ->
  run env es w = Ok w' ->
  distinct_ids w'.
Proof.
  induction es as [|e es IH]; intros w w' Hw; cbn [run].
  - now intros [= <-].
  - destruct (step env e w) as [w1|] eqn:Hs; [|discriminate].
    cbn [res_bind]. apply IH. now apply (step_distinct env e w).
Qed.

Lemma run_distinct_ids_witness : distinct_ids replied_world.
Proof.
  apply (run_distinct_ids example_env reply_then_set silent_world).
  - intros [|i] [|j] di dj Hi Hj _; try reflexivity; discriminate.
  - vm_compute. reflexivity.
Defined.

(** *** The sweep: a command that is not confirmed in time *)

Section Timeout.

Variable env : Env.



End Timeout.


(** *** Staging a command *)





Section Staging.

Variable env : Env.








End Staging.



(** *** [housetuya_device_set] on a device with no command pending *)

Section Idle.

Variable env : Env.


End Idle.


(** *** The rate of the sweep *)

(** X17. Once the periodic sweep has run at [now], a call less than 5
    seconds later does nothing at all. *)
Theorem periodic_gate env now now' w w1 :
  LastRetry w + 5 <= now ->
  housetuya_device_periodic env now w = Ok w1 ->
  now' < now + 5 ->
  housetuya_device_periodic env now' w1 = Ok w1.
Proof.
  intros Hgate H Hsoon. revert H. unfold housetuya_device_periodic at 1.
  replace (now <? LastRetry w + 5) with false
    by (symmetry; apply Z.ltb_ge; lia).
  intros H. apply sweep_rows in H as (_ & Hr & _). cbn [LastRetry] in Hr.
  unfold housetuya_device_periodic. rewrite Hr.
  now replace (now' <? now + 5) with true by (symmetry; apply Z.ltb_lt; lia).
Qed.

Lemma periodic_gate_witness :
  housetuya_device_periodic example_env 1004 swept_world = Ok swept_world.
Proof.
  apply (periodic_gate example_env 1001 1004 example_world swept_world).
  - cbn. lia.
  - vm_compute. reflexivity.
  - lia.
Defined.

(** *** The socket callbacks *)

Lemma search_insert (p : DeviceMap -> bool) l n d d' :
  l !! n = Some d -> p d' = p d ->
  forall i, search p (<[n := d']> l) i = search p l i.
Proof.
  revert n. induction l as [|x l IH]; intros n Hn Hp i; [reflexivity|].
  destruct n as [|n]; cbn [search].
  - injection Hn as ->. cbn. now rewrite Hp.
  - cbn. destruct (p x); [reflexivity|]. now apply IH.
Qed.

(** X18. When a socket becomes writable, the frame staged for its device
    is written once, whole, and the socket is turned to reading; [out] is
    then empty, so that a second call for the same socket writes
    nothing. *)
Theorem send_writes_once fd w d :
  let i := housetuya_device_socket_search fd w in
  0 <= i ->
  row w i = Ok d ->
  0 < outlength d ->
  exists w1 w2,
    housetuya_device_send fd w = Ok w1
    /\ Devices w1 = <[Z.to_nat i := set_outlength 0 d]> (Devices w)
    /\ Log w1
       = echttp_listen fd 1 housetuya_device_receive_handler
           :: write fd (take (Z.to_nat (outlength d)) (out d)) :: Log w
    /\ housetuya_device_send fd w1 = Ok w2
    /\ Devices w2 = Devices w1
    /\ Log w2 = echttp_listen fd 1 housetuya_device_receive_handler :: Log w1.
Proof.
  intros i Hi Hrow Hout. apply row_inv in Hrow as [_ Hd].
  assert (Hsend : forall w' d',
            housetuya_device_socket_search fd w' = i ->
            Devices w' !! Z.to_nat i = Some d' ->
            housetuya_device_send fd w'
            = Ok (mkWorld
                    (<[Z.to_nat i :=
                         if outlength d' >? 0 then set_outlength 0 d' else d']>
                       (Devices w'))
                    (DeviceListChanged w') (LastRetry w')
                    (echttp_listen fd 1 housetuya_device_receive_handler
                       :: (if outlength d' >? 0
                           then write fd (take (Z.to_nat (outlength d')) (out d'))
                                  :: Log w'
                           else Log w')))).
  { intros w' d' Hs Hd'. unfold housetuya_device_send. rewrite Hs.
    replace (i <? 0) with false by (symmetry; apply Z.ltb_ge; lia).
    rewrite (at_row_ok i _ w' d' Hi Hd'). cbn [res_bind].
    now destruct (outlength d' >? 0). }
  pose proof (Hsend w d eq_refl Hd) as H1.
  replace (outlength d >? 0) with true in H1
    by (symmetry; rewrite Z.gtb_ltb; apply Z.ltb_lt; lia).
  eexists. eexists. split; [exact H1|]. cbn [Devices Log].
  split; [reflexivity|]. split; [reflexivity|].
  set (w1 := mkWorld _ _ _ _) in *.
  assert (Hs1 : housetuya_device_socket_search fd w1 = i).
  { unfold housetuya_device_socket_search. subst w1. cbn [Devices].
    now rewrite (search_insert _ _ _ d). }
  assert (Hd1 : Devices w1 !! Z.to_nat i = Some (set_outlength 0 d)).
  { subst w1. cbn [Devices]. apply list_lookup_insert_eq.
    now apply lookup_lt_Some in Hd. }
  rewrite (Hsend w1 _ Hs1 Hd1). cbn [outlength set_outlength Z.gtb Z.compare].
  split; [reflexivity|]. cbn [Devices Log]. split; [|reflexivity].
  now apply list_insert_id.
Qed.

Lemma send_writes_once_witness :
  exists w1 w2,
    housetuya_device_send 7 querying_world = Ok w1
    /\ Devices w1 = <[0%nat := set_outlength 0 querying_lamp]> [querying_lamp]
    /\ Log w1
       = [echttp_listen 7 1 housetuya_device_receive_handler;
          write 7 example_query_frame]
    /\ housetuya_device_send 7 w1 = Ok w2
    /\ Devices w2 = Devices w1
    /\ Log w2 = echttp_listen 7 1 housetuya_device_receive_handler :: Log w1.
Proof.
  apply (send_writes_once 7 querying_world querying_lamp).
  - vm_compute. discriminate.
  - reflexivity.
  - reflexivity.
Defined.

(** X19. A STATUS or QUERY reply that carries the Boolean of the data
    point, received on the socket of a device that has no command
    pending and holds another state, is taken as the new state and as
    the new commanded state (a change made by hand is not fought): the
    socket is closed, [detected] is the time of the reply, and nothing is
    pending. *)
Theorem receive_state_change fd r now w d b :
  let i := housetuya_device_socket_search fd w in
  0 <= fd -> 0 <= i ->
  row w i = Ok d ->
  0 < read_length r ->
  reply_code r = TUYA_STATUS \/ reply_code r = TUYA_QUERY ->
  4 < reply_length r ->
  reply_dps r = Boolean b ->
  b <> status d ->
  pending d = 0 ->
  exists w' d',
    housetuya_device_receive fd r now w = Ok w'
    /\ row w' i = Ok d'
    /\ status d' = b /\ commanded d' = b /\ pending d' = 0
    /\ detected d' = now /\ deadline d' = deadline d
    /\ socket d' = -1 /\ outlength d' = 0
    /\ Log w'
       = houselog_event (name d) "CHANGED"
           :: close fd :: echttp_forget fd :: Log w.
Proof.
  intros i Hfd Hi Hrow Hread Hcode Hlen Hdps Hb Hp.
  apply row_inv in Hrow as [_ Hd].
  assert (Hsock : socket d = fd).
  { destruct (search_found _ _ i eq_refl Hi) as (d0 & Hd0 & Hs).
    rewrite Hd in Hd0. injection Hd0 as <-. now apply Z.eqb_eq in Hs. }
  unfold housetuya_device_receive. fold i.
  replace (i <? 0) with false by (symmetry; apply Z.ltb_ge; lia).
  replace (read_length r <=? 0) with false by (symmetry; apply Z.leb_gt; lia).
  replace (reply_code r =? TUYA_CONTROL) with false
    by (symmetry; apply Z.eqb_neq; destruct Hcode as [-> | ->]; discriminate).
  replace (reply_length r <=? 4) with false by (symmetry; apply Z.leb_gt; lia).
  rewrite (at_row_ok i _ w d Hi Hd). cbn [res_bind fst snd].
  replace (negb (reply_code r =? TUYA_STATUS) && negb (reply_code r =? TUYA_QUERY))
    with false by (destruct Hcode as [-> | ->]; reflexivity).
  rewrite Hdps.
  unfold housetuya_device_close. rewrite Hsock.
  replace (0 <=? fd) with true by (symmetry; apply Z.leb_le; lia).
  cbn [fst snd].
  set (d1 := set_outlength 0 (set_socket (-1) d)).
  set (w1 := mkWorld _ _ _ _).
  assert (Hd1 : Devices w1 !! Z.to_nat i = Some d1).
  { subst w1. cbn [Devices]. apply list_lookup_insert_eq.
    now apply lookup_lt_Some in Hd. }
  unfold housetuya_device_status_update.
  replace (i <? 0) with false by (symmetry; apply Z.ltb_ge; lia).
  rewrite (at_row_ok i _ w1 d1 Hi Hd1). cbn [res_bind fst snd].
  unfold status_update_row. cbn [status pending commanded d1 set_outlength
    set_socket].
  replace (b =? status d) with false by (symmetry; now apply Z.eqb_neq).
  rewrite Hp. cbn [negb andb Z.eqb].
  eexists. eexists. split; [reflexivity|]. split.
  { apply row_lookup; [exact Hi|]. cbn [Devices].
    apply list_lookup_insert_eq. now apply lookup_lt_Some in Hd1. }
  cbn. repeat split; reflexivity.
Qed.

Lemma receive_state_change_witness :
  exists w' d',
    housetuya_device_receive 7 (mkReply 100 TUYA_STATUS 60 (Boolean 0)) 1002
      querying_world = Ok w'
    /\ row w' 0 = Ok d'
    /\ status d' = 0 /\ commanded d' = 0 /\ pending d' = 0
    /\ detected d' = 1002 /\ deadline d' = 0
    /\ socket d' = -1 /\ outlength d' = 0
    /\ Log w'
       = [houselog_event (Some (chars "lamp")) "CHANGED";
          close 7; echttp_forget 7].
Proof.
  apply (receive_state_change 7 (mkReply 100 TUYA_STATUS 60 (Boolean 0)) 1002
           querying_world querying_lamp 0).
  - lia.
  - vm_compute. discriminate.
  - reflexivity.
  - cbn. lia.
  - now left.
  - cbn. lia.
  - reflexivity.
  - cbn. lia.
  - reflexivity.
Defined.

(** *** Beacons *)

Lemma bytes_eqb_refl a : bytes_eqb a a = true.
Proof.
  induction a as [|x a IH]; [reflexivity|]. cbn.
  now rewrite BytesFacts.byte_eqb_refl, IH.
Qed.

Lemma refresh_string_same v :
  housetuya_device_refresh_string (Some (cstr v)) (Some v)
  = (Some (cstr v), false).
Proof.
  unfold housetuya_device_refresh_string.
  now rewrite BytesFacts.cstr_idem, bytes_eqb_refl.
Qed.

(** What [housetuya_device_discovery] writes in the row of the beacon's
    device, and what it leaves. *)
Lemma discovery_row_fields b now d log :
  let r := discovery_row b now (d, log) in
  let d' := fst (snd r) in
  detected d' = now /\ encrypted d' = encrypt b /\ ipaddress d' = sin_addr b
  /\ version (secret d')
     = fst (housetuya_device_refresh_string (version (secret d))
              (Some (beacon_version b)))
  /\ model d'
     = fst (housetuya_device_refresh_string (model d) (Some (productKey b)))
  /\ (ipaddress d <> sin_addr b ->
      host d'
      = fst (housetuya_device_refresh_string (host d)
               (Some (printed_addr b))))
  /\ (ipaddress d = sin_addr b -> host d' = host d)
  /\ identity d' = identity d
  /\ (status d', commanded d', pending d', deadline d')
     = (status d, commanded d, pending d, deadline d)
  /\ (socket d', out d', outlength d', control d', description d')
     = (socket d, out d, outlength d, control d, description d)
  /\ last_sense d' = (if detected d =? 0 then 0 else last_sense d)
  /\ snd (snd r)
     = (if detected d =? 0
        then houselog_event (name d) "DETECTED" :: log else log).
Proof.
  unfold discovery_row.
  destruct (housetuya_device_refresh_string (model d) _) as [m c1].
  cbn [version secret set_model].
  destruct (housetuya_device_refresh_string (version (secret d)) _)
    as [v c2].
  cbn [ipaddress set_encrypted set_secret set_model host].
  destruct (Z.eqb_spec (ipaddress d) (sin_addr b)) as [Hip|Hip]; cbn [negb].
  - cbn [detected set_encrypted set_secret set_model].
    destruct (detected d =? 0); cbn; repeat split; auto; try tauto.
  - destruct (housetuya_device_refresh_string (host d) _) as [h c3].
    cbn [detected set_encrypted set_secret set_model set_host set_ipaddress].
    destruct (detected d =? 0); cbn; repeat split; auto; try tauto.
Qed.

(** X20. A beacon whose [gwId] is the id of no device adds one row at the
    end of the table and raises [DeviceListChanged]. The row is named
    [new_] with its index, holds the beacon's id, product key, version,
    encryption flag and address, has no key, no socket, no command, and
    is detected at the time of the beacon; searching the id then finds
    it. *)
Theorem discovery_of_unknown b now w :
  housetuya_device_id_search (Some (gwId b)) w < 0 ->
  exists w' d',
    housetuya_device_discovery b now w = Ok w'
    /\ Devices w' = Devices w ++ [d']
    /\ DeviceListChanged w' = 1
    /\ name d' = Some (chars "new_" ++ decimal (DevicesCount w))
    /\ secret d'
       = mkSecret (Some (cstr (gwId b))) None
           (Some (cstr (beacon_version b)))
    /\ model d' = Some (cstr (productKey b))
    /\ encrypted d' = encrypt b
    /\ ipaddress d' = sin_addr b
    /\ (sin_addr b <> 0 -> host d' = Some (cstr (printed_addr b)))
    /\ detected d' = now
    /\ socket d' = -1
    /\ intent d' = (0, 0, 0, 0, now)
    /\ Log w' = houselog_event (name d') "DETECTED" :: Log w
    /\ housetuya_device_id_search (Some (gwId b)) w' = DevicesCount w.
Proof.
  intros Hnew. unfold housetuya_device_discovery.
  replace (_ <? 0) with true by (symmetry; apply Z.ltb_lt; lia).
  unfold housetuya_device_add.
  set (name_ := chars "new_" ++ decimal (DevicesCount w)).
  assert (Hname : cstr name_ = name_).
  { apply BytesFacts.cstr_of_nonzero. subst name_. apply Forall_app. split.
    - repeat constructor; discriminate.
    - apply MessagesFacts.decimal_nonzero. }
  rewrite Hname.
  set (new := set_socket (-1) _).
  set (w0 := mkWorld (Devices w ++ [new]) 1 (LastRetry w) (Log w)).
  assert (Hlook : Devices w0 !! Z.to_nat (DevicesCount w) = Some new).
  { subst w0. cbn [Devices]. unfold DevicesCount. rewrite Nat2Z.id.
    now apply list_lookup_middle. }
  rewrite (at_row_ok (DevicesCount w) _ w0 new
             ltac:(unfold DevicesCount; lia) Hlook).
  cbn [res_bind].
  destruct (discovery_row_fields b now new (Log w0))
    as (Hdt & He & Hip & Hv & Hm & Hh & _ & Hid & Hst & Hso & _ & Hlog).
  set (r := discovery_row b now (new, Log w0)) in *.
  cbn zeta in Hdt, He, Hip, Hv, Hm, Hh, Hid, Hst, Hso, Hlog.
  set (d' := fst (snd r)) in *.
  assert (Hchanged : fst r = true).
  { subst r. unfold discovery_row.
    destruct (housetuya_device_refresh_string (model new) _) as [m c1].
    cbn [version secret set_model new set_socket set_secret set_name
         DeviceEmptyContext].
    cbn [housetuya_device_refresh_string].
    destruct (negb _); [destruct (housetuya_device_refresh_string _ _)|];
      destruct (_ =? 0); cbn [fst]; now rewrite orb_true_r. }
  rewrite Hchanged.
  assert (Hins : <[Z.to_nat (DevicesCount w) := d']> (Devices w0)
                 = Devices w ++ [d']).
  { subst w0. cbn [Devices]. unfold DevicesCount. rewrite Nat2Z.id.
    replace (length (Devices w)) with (length (Devices w) + 0)%nat at 1 by lia.
    now rewrite insert_app_r. }
  exists (mkWorld (Devices w ++ [d']) 1 (LastRetry w) (snd (snd r))), d'.
  unfold identity in Hid. injection Hid as Hn Hi Hk.
  injection Hst as Hs1 Hs2 Hs3 Hs4. injection Hso as Hk1 _ _ _ _.
  cbn [Devices DeviceListChanged Log LastRetry].
  split; [now rewrite Hins|]. split; [reflexivity|]. split; [reflexivity|].
  split; [exact Hn|].
  split.
  { destruct (secret d') as [i0 k0 v0] eqn:Es. cbn in Hi, Hk, Hv.
    now rewrite Hi, Hk, Hv. }
  split; [rewrite Hm; subst new; cbn [model set_socket set_model];
          now rewrite refresh_string_same|].
  split; [exact He|]. split; [exact Hip|].
  split; [intros Hnz; rewrite Hh by (subst new; cbn; congruence);
          reflexivity|].
  split; [exact Hdt|]. split; [exact Hk1|].
  split; [unfold intent; now rewrite Hs1, Hs2, Hs3, Hs4, Hdt|].
  split; [rewrite Hlog, Hn; reflexivity|].
  unfold housetuya_device_id_search. cbn [Devices].
  apply search_none in Hnew.
  rewrite (search_first _ _ 0 (length (Devices w)) d').
  - unfold DevicesCount. lia.
  - now apply list_lookup_middle.
  - rewrite Hi. cbn. rewrite BytesFacts.cstr_idem. apply bytes_eqb_refl.
  - intros m dm Hm' Hdm. rewrite lookup_app_l in Hdm by lia.
    rewrite Forall_lookup in Hnew. exact (Hnew m dm Hdm).
Qed.

Lemma discovery_of_unknown_witness :
  exists w' d',
    housetuya_device_discovery plug_beacon 1002 example_world = Ok w'
    /\ Devices w' = [example_lamp] ++ [d']
    /\ DeviceListChanged w' = 1
    /\ name d' = Some (chars "new_" ++ decimal 1)
    /\ secret d' = mkSecret (Some (chars "bf34")) None (Some (chars "3.3"))
    /\ model d' = Some (chars "keyB")
    /\ encrypted d' = 1
    /\ ipaddress d' = 167772168
    /\ (167772168 <> 0 -> host d' = Some (chars "10.0.0.8"))
    /\ detected d' = 1002
    /\ socket d' = -1
    /\ intent d' = (0, 0, 0, 0, 1002)
    /\ Log w' = [houselog_event (name d') "DETECTED"]
    /\ housetuya_device_id_search (Some (chars "bf34")) w' = 1.
Proof.
  apply (discovery_of_unknown plug_beacon 1002 example_world).
  vm_compute. reflexivity.
Defined.

(** X21. A beacon whose [gwId] is the id of a device adds no row: it
    writes the time of detection, the encryption flag and the address in
    the row of the first such device, and leaves its name, id and key,
    its observed and commanded states, [pending], [deadline], the socket
    and the frame staged as they were. A device that was marked silent
    is logged as detected and has [last_sense] cleared, so that the next
    sweep senses it. *)
Theorem discovery_of_known b now w d :
  let i := housetuya_device_id_search (Some (gwId b)) w in
  0 <= i ->
  row w i = Ok d ->
  exists w' d',
    housetuya_device_discovery b now w = Ok w'
    /\ Devices w' = <[Z.to_nat i := d']> (Devices w)
    /\ detected d' = now /\ encrypted d' = encrypt b
    /\ ipaddress d' = sin_addr b
    /\ identity d' = identity d
    /\ (status d', commanded d', pending d', deadline d')
       = (status d, commanded d, pending d, deadline d)
    /\ (socket d', out d', outlength d') = (socket d, out d, outlength d)
    /\ (detected d <> 0 ->
        last_sense d' = last_sense d /\ Log w' = Log w)
    /\ (detected d = 0 ->
        last_sense d' = 0
        /\ Log w' = houselog_event (name d) "DETECTED" :: Log w).
Proof.
  intros i Hi Hrow. apply row_inv in Hrow as [_ Hd].
  unfold housetuya_device_discovery. fold i.
  replace (i <? 0) with false by (symmetry; apply Z.ltb_ge; lia).
  rewrite (at_row_ok i _ w d Hi Hd). cbn [res_bind].
  destruct (discovery_row_fields b now d (Log w))
    as (Hdt & He & Hip & _ & _ & _ & _ & Hid & Hst & Hso & Hls & Hlog).
  set (r := discovery_row b now (d, Log w)) in *.
  cbn zeta in Hdt, He, Hip, Hid, Hst, Hso, Hls, Hlog.
  exists (mkWorld (<[Z.to_nat i := fst (snd r)]> (Devices w))
            (if fst r then 1 else DeviceListChanged w) (LastRetry w)
            (snd (snd r))), (fst (snd r)).
  split; [now destruct (fst r)|]. cbn [Devices Log].
  split; [reflexivity|]. split; [exact Hdt|]. split; [exact He|].
  split; [exact Hip|]. split; [exact Hid|]. split; [exact Hst|].
  split; [now injection Hso as -> -> -> _ _|].
  rewrite Hls, Hlog.
  destruct (Z.eqb_spec (detected d) 0); split; intros; tauto.
Qed.

Lemma discovery_of_known_witness :
  exists w' d',
    housetuya_device_discovery lamp_beacon 1002 pending_world = Ok w'
    /\ Devices w' = <[0%nat := d']> [pending_lamp]
    /\ detected d' = 1002 /\ encrypted d' = 1
    /\ ipaddress d' = 167772167
    /\ identity d' = identity pending_lamp
    /\ (status d', commanded d', pending d', deadline d') = (1, 1, 1005, 0)
    /\ (socket d', out d', outlength d') = (-1, [], 0)
    /\ (950 <> 0 -> last_sense d' = 990 /\ Log w' = [])
    /\ (950 = 0 ->
        last_sense d' = 0
        /\ Log w' = [houselog_event (Some (chars "lamp")) "DETECTED"]).
Proof.
  apply (discovery_of_known lamp_beacon 1002 pending_world pending_lamp).
  - vm_compute. discriminate.
  - reflexivity.
Defined.

End EngineFacts.

(** ** The [/tuya/set] request *)

Module ServiceFacts.
Import Bytes Messages Device DeviceFacts DeviceViews EngineFacts Service.

Section Requests.

Variable env : Env.
Variable atoi : list byte -> Z.
Variable housestate_same : bool.
Variable status_json : World -> string + string.

Lemma set_points_found point state pulse now n : forall i w f w',
  set_points env point state pulse now i n true w = Ok (f, w') -> f = true.
Proof.
  induction n as [|n IH]; intros i w f w'; cbn [set_points].
  - now intros [= <- _].
  - destruct (if is_string point "all" then _ else _) as [[|]|];
      [| |discriminate]; cbn [res_bind].
    + destruct (housetuya_device_set _ _ _ _ _ _) as [[r w1]|];
        [|discriminate].
      cbn [res_bind]. apply IH.
    + apply IH.
Qed.

Lemma set_points_missed point state pulse now n : forall i w w',
  set_points env point state pulse now i n false w = Ok (false, w') ->
  w' = w.
Proof.
  induction n as [|n IH]; intros i w w'; cbn [set_points].
  - now intros [= <-].
  - destruct (if is_string point "all" then _ else _) as [[|]|];
      [| |discriminate]; cbn [res_bind].
    + destruct (housetuya_device_set _ _ _ _ _ _) as [[r w1]|];
        [|discriminate].
      cbn [res_bind]. intros H. now apply set_points_found in H.
    + apply IH.
Qed.

(** X22. When the answer to a [/tuya/set] request is not the one that
    [housetuya_status] gives for the table as the request left it (an
    answer that may be its error 500, after devices were set), the
    handler has refused the request with an error 400 or 404 of its own
    (a missing point or state, a state that is not [on], [1], [off] or
    [0], a negative pulse, a point that is neither [all] nor the name of
    a device) and has changed nothing: every device, the change flag and
    the log are as they were. *)
Theorem housetuya_set_refusal_changes_nothing
    point statep pulsep now w a w' :
  housetuya_set env atoi housestate_same status_json
    point statep pulsep now w = Ok (a, w') ->
  a <> housetuya_status housestate_same status_json w' ->
  w' = w
  /\ exists code text,
       a = echttp_error code text /\ (code = 400 \/ code = 404).
Proof.
  unfold housetuya_set.
  destruct point as [point|]; [|intros [= <- <-] _; eauto 6].
  destruct statep as [statep|]; [|intros [= <- <-] _; eauto 6].
  destruct (named_state statep) as [state|]; [|intros [= <- <-] _; eauto 6].
  destruct (_ <? 0); [intros [= <- <-] _; eauto 6|].
  destruct (set_points _ _ _ _ _ _ _ _ _) as [[found w1]|] eqn:H;
    [|discriminate].
  cbn [res_bind]. destruct found; cbn [negb].
  - intros [= <- <-] Hne. now contradiction Hne.
  - intros [= <- <-] _. apply set_points_missed in H. subst w1. eauto 6.
Qed.

Lemma set_row_fields device state pulse now c :
  let d' := fst (snd (set_row env device state pulse now c)) in
  commanded d' = state
  /\ deadline d' = (if pulse >? 0 then now + pulse else 0).
Proof.
  destruct c as [dev log]. unfold set_row.
  set (d1 := if pulse >? 0 then _ else _).
  assert (H1 : deadline d1 = (if pulse >? 0 then now + pulse else 0))
    by (subst d1; now destruct (pulse >? 0)).
  destruct (negb (pending _ =? 0)); cbn [fst snd]; [now split|].
  destruct (negb (detected _ =? 0)); cbn [fst snd]; [|now split].
  pose proof (control_intent env device state now
                (set_pending (now + 10) (set_commanded state d1),
                 houselog_event (name d1) "SET" :: log)) as Hi.
  unfold intent in Hi. injection Hi as _ Hc _ Hd _.
  cbn [fst] in Hc, Hd. rewrite Hc, Hd. now split.
Qed.

Lemma set_in_table device state pulse now w :
  0 <= device < DevicesCount w ->
  exists d r w',
    Devices w !! Z.to_nat device = Some d
    /\ housetuya_device_set env device state pulse now w = Ok (r, w')
    /\ Devices w'
       = <[Z.to_nat device :=
             fst (snd (set_row env device state pulse now (d, Log w)))]>
           (Devices w).
Proof.
  intros Hd. unfold housetuya_device_set.
  replace (_ || _) with false.
  2:{ symmetry. apply orb_false_iff. split.
      - apply Z.ltb_ge. lia.
      - rewrite Z.gtb_ltb. apply Z.ltb_ge. lia. }
  unfold DevicesCount in Hd.
  destruct (lookup_lt_is_Some_2 (Devices w) (Z.to_nat device) ltac:(lia))
    as [d Hl].
  rewrite (at_row_ok device _ w d ltac:(lia) Hl).
  exists d. eexists. eexists. split; [exact Hl|]. split; reflexivity.
Qed.

Lemma designates_name point d d' :
  name d' = name d -> designates point d' = designates point d.
Proof. unfold designates. now intros ->. Qed.

(** The loop, from device [i] on: the devices that the point designates
    are commanded, the others and those before [i] are left alone. *)
Lemma set_points_rows point state pulse now n : forall i found w,
  Forall (fun d => name d <> None) (Devices w) ->
  0 <= i -> i + Z.of_nat n = DevicesCount w ->
  exists w',
    set_points env point state pulse now i n found w
    = Ok (found || existsb (designates point)
                     (drop (Z.to_nat i) (Devices w)), w')
    /\ forall j d,
         row w j = Ok d ->
         exists d',
           row w' j = Ok d'
           /\ if (i <=? j) && designates point d
              then commanded d' = state
                   /\ deadline d'
                      = (if pulse >? 0 then now j + pulse else 0)
              else d' = d.
Proof.
  induction n as [|n IH]; intros i found w Hnames Hi Hn; cbn [set_points].
  - exists w. split.
    + rewrite drop_ge by (unfold DevicesCount in Hn; lia).
      cbn. now rewrite orb_false_r.
    + intros j d Hrow. exists d. split; [exact Hrow|].
      destruct (Z.leb_spec i j); [|reflexivity].
      apply row_inv in Hrow as [_ Hrow]. apply lookup_lt_Some in Hrow.
      unfold DevicesCount in Hn. lia.
  - assert (Hin : 0 <= i < DevicesCount w) by lia.
    destruct (set_in_table i state pulse (now i) w Hin)
      as (di & r & w1 & Hdi & Hset & Hw1).
    assert (Hdrop : drop (Z.to_nat i) (Devices w)
                    = di :: drop (Z.to_nat (i + 1)) (Devices w)).
    { replace (Z.to_nat (i + 1)) with (S (Z.to_nat i)) by lia.
      now apply drop_S. }
    assert (Hname : housetuya_device_name i w = Ok (name di)).
    { unfold housetuya_device_name.
      replace (_ || _) with false.
      2:{ symmetry. apply orb_false_iff. split.
          - apply Z.ltb_ge. lia.
          - rewrite Z.gtb_ltb. apply Z.ltb_ge. lia. }
      now rewrite (row_lookup w i di ltac:(lia) Hdi). }
    assert (Hhit : (if is_string point "all" then Ok true
                    else
                      do name_ <- housetuya_device_name i w;
                      match name_ with
                      | Some s => Ok (bytes_eqb (cstr point) (cstr s))
                      | None => Fault NullPointer
                      end)
                   = Ok (designates point di)).
    { unfold designates. destruct (is_string point "all"); [reflexivity|].
      rewrite Hname. cbn [res_bind orb].
      rewrite Forall_lookup in Hnames. specialize (Hnames _ _ Hdi).
      destruct (name di) as [s|]; [reflexivity | contradiction]. }
    rewrite Hhit. cbn [res_bind]. rewrite Hdrop. cbn [existsb].
    destruct (designates point di) eqn:Hd.
    + rewrite Hset. cbn [res_bind].
      set (di' := fst (snd (set_row env i state pulse (now i) (di, Log w))))
        in *.
      pose proof (set_row_keeps env i state pulse (now i) (di, Log w)) as Hk.
      apply keeps_fields in Hk as (Hnm & _). cbn [fst] in Hnm. fold di' in Hnm.
      destruct (set_row_fields i state pulse (now i) (di, Log w))
        as [Hc Hdl]. fold di' in Hc, Hdl.
      assert (Hlen : DevicesCount w1 = DevicesCount w)
        by (unfold DevicesCount; now rewrite Hw1, length_insert).
      assert (Hnames1 : Forall (fun d => name d <> None) (Devices w1)).
      { rewrite Hw1. apply Forall_insert; [exact Hnames|].
        rewrite Hnm. rewrite Forall_lookup in Hnames.
        exact (Hnames _ _ Hdi). }
      destruct (IH (i + 1) true w1 Hnames1 ltac:(lia) ltac:(lia))
        as (w' & Hrun & Hrows).
      exists w'. split.
      { rewrite Hrun. rewrite orb_true_r. reflexivity. }
      intros j d Hrow. apply row_inv in Hrow as [Hj Hdj].
      destruct (Z.eq_dec j i) as [->|Hne].
      * rewrite Hdi in Hdj. injection Hdj as <-.
        destruct (Hrows i di') as (d' & Hrow' & Hd').
        { apply row_lookup; [lia|]. rewrite Hw1.
          apply list_lookup_insert_eq. now apply lookup_lt_Some in Hdi. }
        exists d'. split; [exact Hrow'|].
        replace (i + 1 <=? i) with false in Hd'
          by (symmetry; apply Z.leb_gt; lia).
        cbn [andb] in Hd'. subst d'.
        rewrite Z.leb_refl, Hd. cbn [andb]. now split.
      * destruct (Hrows j d) as (d' & Hrow' & Hd').
        { apply row_lookup; [lia|]. rewrite Hw1.
          rewrite list_lookup_insert_ne by lia. exact Hdj. }
        exists d'. split; [exact Hrow'|].
        replace (i <=? j) with (i + 1 <=? j)
          by (destruct (Z.leb_spec (i + 1) j), (Z.leb_spec i j); lia).
        exact Hd'.
    + destruct (IH (i + 1) found w Hnames ltac:(lia) ltac:(lia))
        as (w' & Hrun & Hrows).
      exists w'. split; [exact Hrun|].
      intros j d Hrow. destruct (Hrows j d Hrow) as (d' & Hrow' & Hd').
      exists d'. split; [exact Hrow'|].
      apply row_inv in Hrow as [Hj Hdj].
      destruct (Z.eq_dec j i) as [->|Hne].
      * rewrite Hdi in Hdj. injection Hdj as <-.
        replace (i + 1 <=? i) with false in Hd'
          by (symmetry; apply Z.leb_gt; lia).
        rewrite Hd, andb_false_r. exact Hd'.
      * replace (i <=? j) with (i + 1 <=? j)
          by (destruct (Z.leb_spec (i + 1) j), (Z.leb_spec i j); lia).
        exact Hd'.
Qed.

(** X23. A [/tuya/set] request with a point, a valid state and a pulse
    that is not negative, on a table whose devices all have a name,
    always returns. Every device that the point designates ([all], or
    its name) is commanded to the state, with the deadline of the pulse
    counted from the time of its own call; every other device is left as
    it was. The answer is that of [housetuya_status] on the table so
    changed when some device was designated, the error 404 [invalid
    point name] otherwise. *)
Theorem housetuya_set_effect point statep pulsep now w state :
  Forall (fun d => name d <> None) (Devices w) ->
  named_state statep = Some state ->
  let pulse := match pulsep with Some p => atoi p | None => 0 end in
  0 <= pulse ->
  exists w',
    housetuya_set env atoi housestate_same status_json
      (Some point) (Some statep) pulsep now w
    = Ok (if existsb (designates point) (Devices w)
          then housetuya_status housestate_same status_json w'
          else echttp_error 404 "invalid point name", w')
    /\ forall i d,
         row w i = Ok d ->
         exists d',
           row w' i = Ok d'
           /\ if designates point d
              then commanded d' = state
                   /\ deadline d'
                      = (if pulse >? 0 then now i + pulse else 0)
              else d' = d.
Proof.
  intros Hnames Hstate pulse Hpulse. unfold housetuya_set.
  rewrite Hstate. fold pulse.
  replace (pulse <? 0) with false by (symmetry; apply Z.ltb_ge; lia).
  unfold housetuya_device_count.
  destruct (set_points_rows point state pulse now
              (Z.to_nat (DevicesCount w)) 0 false w Hnames ltac:(lia)
              ltac:(unfold DevicesCount; lia))
    as (w' & Hrun & Hrows).
  rewrite Hrun. cbn [res_bind orb]. change (Z.to_nat 0) with 0%nat.
  rewrite drop_0.
  exists w'. split; [now destruct (existsb _ _)|].
  intros i d Hrow. destruct (Hrows i d Hrow) as (d' & Hrow' & Hd').
  exists d'. split; [exact Hrow'|].
  apply row_inv in Hrow as [Hi _].
  now replace (0 <=? i) with true in Hd' by (symmetry; apply Z.leb_le; lia).
Qed.

End Requests.

Lemma housetuya_set_refusal_changes_nothing_witness :
  housetuya_set example_env example_atoi false example_status_json
    (Some (chars "porch")) (Some (chars "on")) (Some (chars "-1"))
    (fun _ => 1001) two_lamps
  = Ok (echttp_error 400 "invalid pulse value", two_lamps)
  /\ two_lamps = two_lamps
  /\ exists code text,
       echttp_error 400 "invalid pulse value" = echttp_error code text
       /\ (code = 400 \/ code = 404).
Proof.
  split; [reflexivity|].
  apply (housetuya_set_refusal_changes_nothing example_env example_atoi
           false example_status_json
           (Some (chars "porch")) (Some (chars "on")) (Some (chars "-1"))
           (fun _ => 1001) two_lamps
           (echttp_error 400 "invalid pulse value") two_lamps).
  - reflexivity.
  - discriminate.
Defined.

Lemma housetuya_set_effect_witness :
  exists w',
    housetuya_set example_env example_atoi false example_status_json
      (Some (chars "porch")) (Some (chars "off")) (Some (chars "30"))
      (fun _ => 1001) two_lamps
    = Ok (if existsb (designates (chars "porch")) (Devices two_lamps)
          then housetuya_status false example_status_json w'
          else echttp_error 404 "invalid point name", w')
    /\ forall i d,
         row two_lamps i = Ok d ->
         exists d',
           row w' i = Ok d'
           /\ if designates (chars "porch") d
              then commanded d' = 0
                   /\ deadline d' = (if 30 >? 0 then 1001 + 30 else 0)
              else d' = d.
Proof.
  apply (housetuya_set_effect example_env example_atoi false
           example_status_json (chars "porch")
           (chars "off") (Some (chars "30")) (fun _ => 1001) two_lamps 0).
  - repeat constructor; discriminate.
  - reflexivity.
  - vm_compute. discriminate.
Defined.

End ServiceFacts.
(** ** Loading the configuration *)

Module DeviceConfigFacts.
Import Bytes Messages Device DeviceFacts DeviceViews EngineFacts DeviceConfig.

Lemma bytes_eqb_eq a : forall b, bytes_eqb a b = true <-> a = b.
Proof.
  induction a as [|x a IH]; intros [|y b]; cbn; try easy.
  rewrite andb_true_iff, BytesFacts.byte_eqb_eq, IH.
  split; [intros [-> ->]; reflexivity | intros [= -> ->]; auto].
Qed.

Lemma same_string_trans a b c :
  same_string a b = true -> same_string a c = true ->
  same_string b c = true.
Proof.
  destruct a as [a|], b as [b|], c as [c|]; cbn; try discriminate.
  rewrite !bytes_eqb_eq. congruence.
Qed.

Lemma distinct_ids_same l k q1 q2 q3 q1' q2' q3' :
  Forall2 same_device l k ->
  distinct_ids (mkWorld l q1 q2 q3) -> distinct_ids (mkWorld k q1' q2' q3').
Proof.
  intros Hk Hd i j di dj Hi Hj Hs. cbn [Devices] in *.
  destruct (Forall2_lookup_r _ _ _ i di Hk Hi) as (di0 & Hi0 & Hidi & _).
  destruct (Forall2_lookup_r _ _ _ j dj Hk Hj) as (dj0 & Hj0 & Hidj & _).
  apply (Hd i j di0 dj0 Hi0 Hj0). cbn [Devices]. congruence.
Qed.

Lemma same_device_table_refl l : Forall2 same_device l l.
Proof. induction l; constructor; [split|]; auto. Qed.

Lemma refresh_row_fields e d log :
  let d' := fst (snd (refresh_row e (d, log))) in
  same_device d d' /\ at_rest d'
  /\ key (secret d')
     = fst (housetuya_device_refresh_string (key (secret d)) (config_key e))
  /\ description d'
     = fst (housetuya_device_refresh_string (description d)
              (config_description e))
  /\ name d' = name d
  /\ detected d' = detected d.
Proof.
  unfold refresh_row.
  destruct (housetuya_device_refresh_string (key (secret d)) _) as [k c1].
  cbn [description set_secret].
  destruct (housetuya_device_refresh_string (description d) _) as [ds c2].
  cbn [status set_description set_secret fst snd].
  set (d1 := set_description ds _).
  pose proof (reset_fields (status d) (d1, log)) as H. cbn zeta in H.
  cbn [fst] in H. destruct H as (Hs & Hc & Hp & Hdl & Hdt & Hso).
  assert (Hrest : forall c, id (secret (fst (housetuya_device_close c)))
                            = id (secret (fst c))
                    /\ key (secret (fst (housetuya_device_close c)))
                       = key (secret (fst c))
                    /\ description (fst (housetuya_device_close c))
                       = description (fst c)
                    /\ name (fst (housetuya_device_close c)) = name (fst c)).
  { intros [dev l]. unfold housetuya_device_close.
    now destruct (0 <=? socket dev). }
  unfold housetuya_device_reset in *.
  destruct (Hrest (set_pending 0
                     (set_deadline 0
                        (set_status (status d)
                           (set_commanded (status d) d1))), log))
    as (Hid & Hk & Hds & Hn).
  unfold same_device, at_rest.
  rewrite Hid, Hk, Hds, Hn, Hs, Hc, Hp, Hdl, Hdt. cbn.
  repeat split; auto.
Qed.

Lemma rename_row_fields name_ d log :
  let d' := fst (snd (rename_row name_ (d, log))) in
  same_device d d'
  /\ name d' = fst (housetuya_device_refresh_string (name d) (Some name_))
  /\ secret d' = secret d /\ description d' = description d
  /\ intent d' = intent d /\ socket d' = socket d.
Proof.
  unfold rename_row.
  destruct (housetuya_device_refresh_string (name d) _) as [n c1].
  cbn. unfold same_device. repeat split; reflexivity.
Qed.

Lemma raise_changed_devices changed w :
  Devices (raise_changed changed w) = Devices w.
Proof. now destruct changed. Qed.

(** One element of the array. *)
Lemma refresh_device_step e w :
  distinct_ids w ->
  exists w1,
    refresh_device e w = Ok w1
    /\ distinct_ids w1
    /\ (length (Devices w) <= length (Devices w1))%nat
    /\ forall i d1,
         Devices w1 !! i = Some d1 ->
         (if describes e d1 then at_rest d1 else Devices w !! i = Some d1)
         /\ forall d, Devices w !! i = Some d -> same_device d d1.
Proof.
  intros Hdist.
  assert (Hskip : exists w1,
            Ok w = Ok w1
            /\ distinct_ids w1
            /\ (length (Devices w) <= length (Devices w1))%nat
            /\ forall i d1,
                 Devices w1 !! i = Some d1 ->
                 (if false then at_rest d1 else Devices w !! i = Some d1)
                 /\ forall d, Devices w !! i = Some d -> same_device d d1).
  { exists w. split; [reflexivity|]. split; [exact Hdist|]. split; [lia|].
    intros i d1 H1. split; [exact H1|]. intros d Hd.
    rewrite H1 in Hd. injection Hd as <-. now split. }
  destruct e as [e|]; [|exact Hskip].
  unfold refresh_device, describes, complete.
  destruct (config_id e) as [id_|] eqn:Eid; [|exact Hskip].
  destruct (config_name e) as [name_|]; [|exact Hskip].
  destruct (config_model e) as [model_|]; [|exact Hskip].
  clear Hskip. cbn [andb].
  destruct (Z.ltb_spec (housetuya_device_id_search (Some id_) w) 0)
    as [Hnew|Hold].
  - (* a device that the table does not have *)
    cbn [res_bind]. unfold housetuya_device_add.
    set (new := set_socket (-1) _).
    set (w0 := mkWorld (Devices w ++ [new]) 1 (LastRetry w) (Log w)).
    assert (Hlook : Devices w0 !! Z.to_nat (DevicesCount w) = Some new).
    { subst w0. cbn [Devices]. unfold DevicesCount. rewrite Nat2Z.id.
      now apply list_lookup_middle. }
    rewrite (at_row_ok (DevicesCount w) _ w0 new
               ltac:(unfold DevicesCount; lia) Hlook).
    cbn [res_bind].
    destruct (refresh_row_fields e new (Log w0))
      as ((Hid & _) & Hrest & _).
    set (r := refresh_row e (new, Log w0)) in *. cbn zeta in Hid, Hrest.
    set (d' := fst (snd r)) in *.
    assert (Hins : <[Z.to_nat (DevicesCount w) := d']> (Devices w0)
                   = Devices w ++ [d']).
    { subst w0. cbn [Devices]. unfold DevicesCount. rewrite Nat2Z.id.
      replace (length (Devices w)) with (length (Devices w) + 0)%nat at 1
        by lia.
      now rewrite insert_app_r. }
    rewrite Hins.
    assert (Hid' : id (secret d') = Some (cstr id_))
      by (rewrite Hid; reflexivity).
    apply search_none in Hnew.
    assert (Hfresh : forall n d, Devices w !! n = Some d ->
              same_string (Some id_) (id (secret d)) = false).
    { intros n d Hd. rewrite Forall_lookup in Hnew. exact (Hnew n d Hd). }
    eexists. split; [reflexivity|].
    rewrite raise_changed_devices. cbn [Devices].
    split; [|split].
    + destruct (fst r); cbn [raise_changed];
        intros i j di dj Hi Hj Hs; cbn [Devices] in Hi, Hj;
        apply lookup_app_Some in Hi as [Hi|[Hil Hi]];
        apply lookup_app_Some in Hj as [Hj|[Hjl Hj]];
        try (now apply (Hdist i j di dj));
        try (apply list_lookup_singleton_Some in Hj as [Hj0 <-]);
        try (apply list_lookup_singleton_Some in Hi as [Hi0 <-]);
        try lia;
        rewrite Hid', ?same_string_cstr in Hs;
        try (rewrite same_string_sym, same_string_cstr in Hs);
        try (rewrite (Hfresh _ _ Hi) in Hs);
        try (rewrite (Hfresh _ _ Hj) in Hs); discriminate.
    + rewrite List.length_app. lia.
    + intros i d1 Hd1. apply lookup_app_Some in Hd1 as [Hd1|[Hil Hd1]].
      * rewrite (Hfresh i d1 Hd1). split; [exact Hd1|].
        intros d Hd. rewrite Hd1 in Hd. injection Hd as <-. now split.
      * apply list_lookup_singleton_Some in Hd1 as [Hi0 <-].
        rewrite Hid'. cbn [same_string].
        rewrite BytesFacts.cstr_idem, bytes_eqb_refl.
        split; [exact Hrest|].
        intros d Hd. apply lookup_lt_Some in Hd. lia.
  - (* a device of the table *)
    set (idx := housetuya_device_id_search (Some id_) w) in *.
    destruct (search_found _ _ idx eq_refl Hold) as (d & Hd & Hsame).
    cbn beta in Hsame.
    rewrite (at_row_ok idx _ w d Hold Hd). cbn [res_bind].
    destruct (rename_row_fields name_ d (Log w)) as (Hsd1 & _).
    set (r1 := rename_row name_ (d, Log w)) in *. cbn zeta in Hsd1.
    set (w1 := raise_changed (fst r1) _).
    assert (Hd1 : Devices w1 !! Z.to_nat idx = Some (fst (snd r1))).
    { subst w1. rewrite raise_changed_devices. cbn [Devices].
      apply list_lookup_insert_eq. now apply lookup_lt_Some in Hd. }
    rewrite (at_row_ok idx _ w1 _ Hold Hd1). cbn [res_bind].
    destruct (refresh_row_fields e (fst (snd r1)) (Log w1))
      as (Hsd2 & Hrest & _).
    set (r2 := refresh_row e (fst (snd r1), Log w1)) in *.
    cbn zeta in Hsd2, Hrest. set (d2 := fst (snd r2)) in *.
    assert (Hsd : same_device d d2).
    { destruct Hsd1 as [H1 H2], Hsd2 as [H3 H4]. split; congruence. }
    assert (Hdev : Devices w1 = <[Z.to_nat idx := fst (snd r1)]> (Devices w))
      by (subst w1; now rewrite raise_changed_devices).
    assert (Hfinal : <[Z.to_nat idx := d2]> (Devices w1)
                     = <[Z.to_nat idx := d2]> (Devices w))
      by (rewrite Hdev; apply list_insert_insert_eq).
    eexists. split; [reflexivity|].
    rewrite raise_changed_devices. cbn [Devices]. rewrite Hfinal.
    assert (Htable : Forall2 same_device (Devices w)
                       (<[Z.to_nat idx := d2]> (Devices w))).
    { rewrite <- (list_insert_id (Devices w) (Z.to_nat idx) d Hd) at 1.
      apply Forall2_insert; [apply same_device_table_refl | exact Hsd]. }
    split; [|split].
    + destruct w as [l q1 q2 q3]. cbn [Devices] in *.
      destruct (fst r2); cbn [raise_changed Devices DeviceListChanged
        LastRetry Log]; rewrite ?Hfinal;
        eapply distinct_ids_same; eassumption.
    + rewrite length_insert. lia.
    + intros i d1 Hi. split.
      * destruct (Nat.eq_dec i (Z.to_nat idx)) as [->|Hne].
        -- rewrite list_lookup_insert_eq in Hi
             by (now apply lookup_lt_Some in Hd).
           injection Hi as <-.
           destruct Hsd as [-> _]. rewrite Hsame. exact Hrest.
        -- rewrite list_lookup_insert_ne in Hi by lia.
           destruct (same_string (Some id_) (id (secret d1))) eqn:Hs;
             [|exact Hi].
           exfalso. apply Hne.
           apply (Hdist i (Z.to_nat idx) d1 d Hi Hd).
           now apply (same_string_trans (Some id_)).
      * intros d0 Hd0.
        exact (Forall2_lookup_lr _ _ _ _ _ _ Htable Hd0 Hi).
Qed.

Lemma lists_same_device es d d' :
  same_device d d' -> lists es d' = lists es d.
Proof.
  intros [Hid _]. unfold lists, describes. now rewrite Hid.
Qed.

(** The loop over the array. *)
Lemma refresh_devices_rows es : forall w,
  distinct_ids w ->
  exists w',
    refresh_devices es w = Ok w'
    /\ distinct_ids w'
    /\ (length (Devices w) <= length (Devices w'))%nat
    /\ forall i d',
         Devices w' !! i = Some d' ->
         (if lists es d' then at_rest d' else Devices w !! i = Some d')
         /\ forall d,
              Devices w !! i = Some d ->
              id (secret d') = id (secret d) /\ status d' = status d.
Proof.
  induction es as [|e es IH]; intros w Hdist; cbn [refresh_devices].
  - exists w. split; [reflexivity|]. split; [exact Hdist|]. split; [lia|].
    intros i d' Hi. split; [exact Hi|].
    intros d Hd. rewrite Hi in Hd. injection Hd as <-. now split.
  - destruct (refresh_device_step e w Hdist)
      as (w1 & -> & Hdist1 & Hlen1 & Hrows1).
    cbn [res_bind].
    destruct (IH w1 Hdist1) as (w' & Hrun & Hdist' & Hlen' & Hrows').
    exists w'. split; [exact Hrun|]. split; [exact Hdist'|].
    split; [lia|].
    intros i d' Hi. destruct (Hrows' i d' Hi) as [Hcase Hsame].
    cbn [lists existsb]. fold (lists es d').
    split.
    + destruct (lists es d') eqn:Hl.
      * now rewrite orb_true_r.
      * rewrite orb_false_r.
        destruct (Hrows1 i d' Hcase) as [Hcase1 _]. exact Hcase1.
    + intros d Hd.
      assert (Hi1 : exists d1, Devices w1 !! i = Some d1).
      { apply lookup_lt_is_Some_2. apply lookup_lt_Some in Hd. lia. }
      destruct Hi1 as [d1 Hd1].
      destruct (Hrows1 i d1 Hd1) as [_ H1]. specialize (H1 d Hd).
      specialize (Hsame d1 Hd1). destruct H1, Hsame. split; congruence.
Qed.



(** *** What a listed device gets *)

Lemma refresh_devices_app es1 : forall es2 w,
  refresh_devices (es1 ++ es2) w
  = do w1 <- refresh_devices es1 w; refresh_devices es2 w1.
Proof.
  induction es1 as [|e es1 IH]; intros es2 w; [reflexivity|].
  cbn [refresh_devices List.app].
  destruct (refresh_device e w) as [w1|]; [|reflexivity].
  cbn [res_bind]. apply IH.
Qed.

Lemma refresh_string_holds store value :
  value <> None ->
  holds (fst (housetuya_device_refresh_string store value)) value.
Proof.
  unfold holds, housetuya_device_refresh_string.
  destruct value as [v|]; [intros _ | contradiction].
  destruct store as [s|]; cbn [fst option_map].
  - destruct (bytes_eqb (cstr s) (cstr v)) eqn:E; cbn [fst option_map].
    + apply bytes_eqb_eq in E. now rewrite E.
    + now rewrite BytesFacts.cstr_idem.
  - now rewrite BytesFacts.cstr_idem.
Qed.

Lemma refresh_string_erases store :
  fst (housetuya_device_refresh_string store None) = None.
Proof. reflexivity. Qed.

Lemma refresh_string_holds_any store value :
  holds (fst (housetuya_device_refresh_string store value)) value.
Proof.
  destruct value as [v|]; [now apply refresh_string_holds|].
  now rewrite refresh_string_erases.
Qed.

(** The row that one complete element of the array leaves. *)
Lemma refresh_device_fields e w :
  complete e = true ->
  exists w1 i d1,
    refresh_device (Some e) w = Ok w1
    /\ Devices w1 !! i = Some d1
    /\ describes (Some e) d1 = true
    /\ holds (name d1) (config_name e)
    /\ holds (key (secret d1)) (config_key e)
    /\ holds (description d1) (config_description e).
Proof.
  intros Hc. unfold describes. rewrite Hc. cbn [andb].
  unfold refresh_device. unfold complete in Hc.
  destruct (config_id e) as [id_|] eqn:Eid; [|discriminate].
  destruct (config_name e) as [name_|] eqn:En; [|discriminate].
  destruct (config_model e) as [model_|]; [|discriminate].
  destruct (Z.ltb_spec (housetuya_device_id_search (Some id_) w) 0)
    as [Hnew|Hold].
  - cbn [res_bind]. unfold housetuya_device_add.
    set (new := set_socket (-1) _).
    set (w0 := mkWorld (Devices w ++ [new]) 1 (LastRetry w) (Log w)).
    assert (Hlook : Devices w0 !! Z.to_nat (DevicesCount w) = Some new).
    { subst w0. cbn [Devices]. unfold DevicesCount. rewrite Nat2Z.id.
      now apply list_lookup_middle. }
    rewrite (at_row_ok (DevicesCount w) _ w0 new
               ltac:(unfold DevicesCount; lia) Hlook).
    cbn [res_bind].
    destruct (refresh_row_fields e new (Log w0))
      as ((Hid & _) & _ & Hk & Hds & Hn & _).
    set (r := refresh_row e (new, Log w0)) in *.
    cbn zeta in Hid, Hk, Hds, Hn.
    eexists. exists (Z.to_nat (DevicesCount w)), (fst (snd r)).
    split; [reflexivity|].
    rewrite raise_changed_devices. cbn [Devices].
    split; [apply list_lookup_insert_eq; now apply lookup_lt_Some in Hlook|].
    split; [rewrite Hid; cbn; rewrite BytesFacts.cstr_idem;
            apply bytes_eqb_refl|].
    split; [rewrite Hn; unfold holds; cbn;
            now rewrite BytesFacts.cstr_idem|].
    split; [rewrite Hk; apply refresh_string_holds_any|].
    rewrite Hds. apply refresh_string_holds_any.
  - set (idx := housetuya_device_id_search (Some id_) w) in *.
    destruct (search_found _ _ idx eq_refl Hold) as (d & Hd & Hsame).
    cbn beta in Hsame.
    rewrite (at_row_ok idx _ w d Hold Hd). cbn [res_bind].
    destruct (rename_row_fields name_ d (Log w)) as ((Hid1 & _) & Hn1 & _).
    set (r1 := rename_row name_ (d, Log w)) in *. cbn zeta in Hid1, Hn1.
    set (w1 := raise_changed (fst r1) _).
    assert (Hd1 : Devices w1 !! Z.to_nat idx = Some (fst (snd r1))).
    { subst w1. rewrite raise_changed_devices. cbn [Devices].
      apply list_lookup_insert_eq. now apply lookup_lt_Some in Hd. }
    rewrite (at_row_ok idx _ w1 _ Hold Hd1). cbn [res_bind].
    destruct (refresh_row_fields e (fst (snd r1)) (Log w1))
      as ((Hid2 & _) & _ & Hk & Hds & Hn2 & _).
    set (r2 := refresh_row e (fst (snd r1), Log w1)) in *.
    cbn zeta in Hid2, Hk, Hds, Hn2.
    eexists. exists (Z.to_nat idx), (fst (snd r2)).
    split; [reflexivity|].
    rewrite raise_changed_devices. cbn [Devices].
    split; [apply list_lookup_insert_eq; now apply lookup_lt_Some in Hd1|].
    split; [now rewrite Hid2, Hid1|].
    split; [rewrite Hn2, Hn1; now apply refresh_string_holds|].
    split; [rewrite Hk; apply refresh_string_holds_any|].
    rewrite Hds. apply refresh_string_holds_any.
Qed.

Lemma lists_repeated e es d :
  describes (Some e) d = true -> lists es d = repeated e es.
Proof.
  unfold describes. intros H. apply andb_true_iff in H as [_ H].
  unfold lists, repeated. induction es as [|e' es IH]; [reflexivity|].
  cbn [existsb]. rewrite IH. f_equal.
  destruct e' as [e'|]; cbn [describes]; [|reflexivity].
  destruct (complete e'); cbn [andb]; [|reflexivity].
  destruct (same_string (config_id e') (id (secret d))) eqn:E1;
    destruct (same_string (config_id e) (config_id e')) eqn:E2;
    try reflexivity; exfalso.
  - rewrite same_string_sym in E1. rewrite same_string_sym in H.
    pose proof (same_string_trans _ _ _ H E1) as E.
    rewrite E in E2. discriminate.
  - pose proof (same_string_trans _ _ _ E2 H) as E.
    rewrite E in E1. discriminate.
Qed.

(** X25. After the configuration is loaded into a table with pairwise
    different ids, the device of each complete element of the array that
    no later element repeats holds what that element says: its name, its
    key and its description, read as C strings. An element without a
    key, or without a description, erases the one that the device
    had. *)
Theorem housetuya_device_refresh_fields es1 e es2 w :
  distinct_ids w ->
  complete e = true ->
  repeated e es2 = false ->
  exists w' i d',
    housetuya_device_refresh (mkConfig true (Some (es1 ++ Some e :: es2))) w
    = Ok (None, w')
    /\ Devices w' !! i = Some d'
    /\ same_string (config_id e) (id (secret d')) = true
    /\ holds (name d') (config_name e)
    /\ holds (key (secret d')) (config_key e)
    /\ holds (description d') (config_description e).
Proof.
  intros Hdist Hc Hlast.
  unfold housetuya_device_refresh, housetuya_device_refresh_alloc.
  cbn [houseconfig_active devices_array negb andb]. cbv zeta.
  rewrite andb_false_r.
  rewrite refresh_devices_app.
  destruct (refresh_devices_rows es1 w Hdist) as (wa & -> & Hdista & _).
  cbn [res_bind refresh_devices].
  destruct (refresh_device_fields e wa Hc)
    as (wb & i & d1 & Hrun & Hi & Hdesc & Hn & Hk & Hds).
  rewrite Hrun. cbn [res_bind].
  destruct (refresh_device_step (Some e) wa Hdista)
    as (wb' & Hrun' & Hdistb & _).
  rewrite Hrun in Hrun'. injection Hrun' as <-.
  destruct (refresh_devices_rows es2 wb Hdistb) as (w' & -> & _ & Hlen & Hrows).
  cbn [res_bind].
  assert (Hi' : exists d', Devices w' !! i = Some d').
  { apply lookup_lt_is_Some_2. apply lookup_lt_Some in Hi. lia. }
  destruct Hi' as [d' Hd'].
  destruct (Hrows i d' Hd') as [Hcase Hsame].
  assert (Hsd : same_device d1 d') by (apply Hsame; exact Hi).
  rewrite (lists_same_device es2 d1 d' Hsd) in Hcase.
  rewrite (lists_repeated e es2 d1 Hdesc), Hlast in Hcase.
  rewrite Hi in Hcase. injection Hcase as <-.
  exists w', i, d1. split; [reflexivity|]. split; [exact Hd'|].
  unfold describes in Hdesc. rewrite Hc in Hdesc. now split.
Qed.

Lemma housetuya_device_refresh_fields_witness :
  exists w' i d',
    housetuya_device_refresh
      (mkConfig true
         (Some ([] ++ Some (mkConfigDevice (Some (chars "desk"))
                              (Some (chars "bf12")) (Some (chars "keyA"))
                              None None)
                   :: [None])))
      pending_world = Ok (None, w')
    /\ Devices w' !! i = Some d'
    /\ same_string (Some (chars "bf12")) (id (secret d')) = true
    /\ holds (name d') (Some (chars "desk"))
    /\ holds (key (secret d')) None
    /\ holds (description d') None.
Proof.
  apply (housetuya_device_refresh_fields []
           (mkConfigDevice (Some (chars "desk")) (Some (chars "bf12"))
              (Some (chars "keyA")) None None)
           [None] pending_world).
  - intros [|i] [|j] di dj Hi Hj _; try reflexivity; discriminate.
  - reflexivity.
  - reflexivity.
Defined.

End DeviceConfigFacts.
(** ** The model registry *)

Module ModelFacts.
Import Bytes BytesFacts Device Model.

(** *** Comparing without case *)

Lemma strcasecmp_eq_fold a : forall b,
  strcasecmp_eq a b = true <-> List.map tolower a = List.map tolower b.
Proof.
  induction a as [|x a IH]; intros [|y b]; cbn; try easy.
  rewrite andb_true_iff, byte_eqb_eq, IH.
  split; [intros [-> ->]; reflexivity | intros [= -> ->]; auto].
Qed.

Lemma strcasecmp_eq_refl a : strcasecmp_eq a a = true.
Proof. now apply strcasecmp_eq_fold. Qed.

Lemma strcasecmp_eq_same a b c :
  strcasecmp_eq a b = true -> strcasecmp_eq a c = strcasecmp_eq b c.
Proof.
  intros H. apply strcasecmp_eq_fold in H.
  destruct (strcasecmp_eq a c) eqn:Ea, (strcasecmp_eq b c) eqn:Eb;
    try reflexivity; exfalso.
  - apply strcasecmp_eq_fold in Ea.
    assert (E : strcasecmp_eq b c = true)
      by (apply strcasecmp_eq_fold; congruence).
    congruence.
  - apply strcasecmp_eq_fold in Eb.
    assert (E : strcasecmp_eq a c = true)
      by (apply strcasecmp_eq_fold; congruence).
    congruence.
Qed.

Lemma strcasecmp_eq_sym a b : strcasecmp_eq a b = strcasecmp_eq b a.
Proof.
  destruct (strcasecmp_eq a b) eqn:Ea, (strcasecmp_eq b a) eqn:Eb;
    try reflexivity; exfalso.
  - apply strcasecmp_eq_fold in Ea.
    assert (E : strcasecmp_eq b a = true)
      by (apply strcasecmp_eq_fold; congruence).
    congruence.
  - apply strcasecmp_eq_fold in Eb.
    assert (E : strcasecmp_eq a b = true)
      by (apply strcasecmp_eq_fold; congruence).
    congruence.
Qed.

Lemma search_rows_same a b r n : forall i,
  strcasecmp_eq (cstr a) (cstr b) = true ->
  search_rows a r i n = search_rows b r i n.
Proof.
  induction n as [|n IH]; intros i H; [reflexivity|]. cbn [search_rows].
  destruct (model_row r i) as [m|]; [|reflexivity]. cbn [res_bind].
  destruct (model_id m) as [mid|]; [|reflexivity].
  rewrite (strcasecmp_eq_same _ _ (cstr mid) H).
  destruct (strcasecmp_eq (cstr b) (cstr mid)); [reflexivity | now apply IH].
Qed.

(** X26. The registry is looked up without regard to the case of the
    letters: two ids that [strcasecmp] finds equal get the same data
    point and the same name, whatever the registry holds. *)
Theorem model_lookup_ignores_case a b r :
  strcasecmp_eq (cstr a) (cstr b) = true ->
  housetuya_model_get_control (Some a) r
  = housetuya_model_get_control (Some b) r
  /\ housetuya_model_get_name (Some a) r
     = housetuya_model_get_name (Some b) r.
Proof.
  intros H.
  unfold housetuya_model_get_control, housetuya_model_get_name,
    housetuya_model_search.
  now rewrite (search_rows_same a b r _ 0 H).
Qed.

Lemma model_lookup_ignores_case_witness :
  housetuya_model_get_control (Some (chars "A1")) example_registry
  = housetuya_model_get_control (Some (chars "a1")) example_registry
  /\ housetuya_model_get_name (Some (chars "A1")) example_registry
     = housetuya_model_get_name (Some (chars "a1")) example_registry.
Proof.
  apply (model_lookup_ignores_case (chars "A1") (chars "a1")
           example_registry).
  reflexivity.
Defined.

(** *** Searching *)

Lemma model_row_inv r i m :
  model_row r i = Ok m -> 0 <= i /\ Models r !! Z.to_nat i = Some m.
Proof.
  unfold model_row. destruct (Z.ltb_spec i 0); [discriminate|].
  destruct (Models r !! Z.to_nat i); [|discriminate].
  intros [= <-]. split; [lia | reflexivity].
Qed.

Lemma model_row_lookup r i m :
  0 <= i -> Models r !! Z.to_nat i = Some m -> model_row r i = Ok m.
Proof.
  intros Hi Hm. unfold model_row.
  replace (i <? 0) with false by (symmetry; apply Z.ltb_ge; lia).
  now rewrite Hm.
Qed.

(** What the loop returns: -1 when no row matches, or the first row that
    does. *)
Lemma search_rows_spec x r n : forall i k,
  0 <= i ->
  search_rows x r i n = Ok k ->
  (k = -1
   /\ forall j m mid,
        i <= j < i + Z.of_nat n ->
        Models r !! Z.to_nat j = Some m -> model_id m = Some mid ->
        strcasecmp_eq (cstr x) (cstr mid) = false)
  \/ (i <= k < i + Z.of_nat n
      /\ exists m mid,
           Models r !! Z.to_nat k = Some m /\ model_id m = Some mid
           /\ strcasecmp_eq (cstr x) (cstr mid) = true).
Proof.
  induction n as [|n IH]; intros i k Hi; cbn [search_rows].
  - intros [= <-]. left. split; [reflexivity|]. intros; lia.
  - destruct (model_row r i) as [m|] eqn:Hm; [|discriminate].
    cbn [res_bind]. apply model_row_inv in Hm as [_ Hm].
    destruct (model_id m) as [mid|] eqn:Hid; [|discriminate].
    destruct (strcasecmp_eq (cstr x) (cstr mid)) eqn:E.
    + intros [= <-]. right. split; [lia|]. eauto.
    + intros H. destruct (IH (i + 1) k ltac:(lia) H) as [[-> Hno]|[Hk Hex]].
      * left. split; [reflexivity|]. intros j m' mid' Hj Hm' Hid'.
        destruct (Z.eq_dec j i) as [->|Hne].
        -- rewrite Hm in Hm'. injection Hm' as <-.
           rewrite Hid in Hid'. now injection Hid' as <-.
        -- apply (Hno j m' mid'); [lia | assumption | assumption].
      * right. split; [lia | exact Hex].
Qed.

(** The loop looks at the ids of the rows only. *)
Lemma search_rows_ids x r r' n : forall i,
  0 <= i ->
  (forall j, i <= j < i + Z.of_nat n ->
     option_map model_id (Models r' !! Z.to_nat j)
     = option_map model_id (Models r !! Z.to_nat j)) ->
  search_rows x r' i n = search_rows x r i n.
Proof.
  induction n as [|n IH]; intros i Hi Hids; [reflexivity|].
  cbn [search_rows]. specialize (Hids i ltac:(lia)) as Hrow.
  unfold model_row.
  replace (i <? 0) with false by (symmetry; apply Z.ltb_ge; lia).
  destruct (Models r' !! Z.to_nat i) as [m'|],
           (Models r !! Z.to_nat i) as [m|]; try discriminate;
    [|reflexivity].
  cbn [res_bind]. injection Hrow as ->.
  destruct (model_id m) as [mid|]; [|reflexivity].
  destruct (strcasecmp_eq (cstr x) (cstr mid)); [reflexivity|].
  apply IH; [lia|]. intros j Hj. apply Hids. lia.
Qed.

(** One more row at the end of the loop. *)
Lemma search_rows_snoc x r n : forall i,
  search_rows x r i (n + 1)
  = match search_rows x r i n with
    | Ok k =>
        if k =? -1 then search_rows x r (i + Z.of_nat n) 1 else Ok k
    | Fault f => Fault f
    end.
Proof.
  induction n as [|n IH]; intros i.
  - cbn [Nat.add search_rows Z.of_nat]. rewrite Z.add_0_r. reflexivity.
  - cbn [Nat.add]. cbn [search_rows].
    destruct (model_row r i) as [m|] eqn:Hm; [|reflexivity].
    cbn [res_bind].
    destruct (model_id m) as [mid|]; [|reflexivity].
    destruct (strcasecmp_eq (cstr x) (cstr mid)).
    + apply model_row_inv in Hm as [Hi _].
      now replace (i =? -1) with false by (symmetry; apply Z.eqb_neq; lia).
    + rewrite IH.
      now replace (i + 1 + Z.of_nat n) with (i + Z.of_nat (S n)) by lia.
Qed.

Lemma search_total x r :
  well_formed r ->
  exists k,
    housetuya_model_search (Some x) r = Ok k
    /\ (k = -1 \/ 0 <= k < ModelsCount r).
Proof.
  intros [[H0 Hs] Hids]. unfold housetuya_model_search.
  assert (Hgen : forall n i, 0 <= i -> i + Z.of_nat n <= ModelsCount r ->
            exists k, search_rows x r i n = Ok k
                      /\ (k = -1 \/ i <= k < i + Z.of_nat n)).
  { induction n as [|n IH]; intros i Hi Hn; cbn [search_rows].
    - exists (-1). split; [reflexivity | now left].
    - unfold ModelsSpace in Hs.
      destruct (lookup_lt_is_Some_2 (Models r) (Z.to_nat i) ltac:(lia))
        as [m Hm].
      rewrite (model_row_lookup r i m Hi Hm). cbn [res_bind].
      pose proof (Hids (Z.to_nat i) m ltac:(lia) Hm) as Hid.
      destruct (model_id m) as [mid|]; [|contradiction].
      destruct (strcasecmp_eq (cstr x) (cstr mid)).
      + exists i. split; [reflexivity | right; lia].
      + destruct (IH (i + 1) ltac:(lia) ltac:(lia)) as (k & Hk & Hr).
        exists k. split; [exact Hk|]. destruct Hr; [now left | right; lia]. }
  destruct (Hgen (Z.to_nat (ModelsCount r)) 0 ltac:(lia) ltac:(lia))
    as (k & Hk & Hr).
  exists k. split; [exact Hk|]. destruct Hr; [now left | right; lia].
Qed.

(** *** One element of the array *)

Lemma renamed_holds (store : option (list byte)) name_ :
  holds_name
    (fst match store with
         | Some s =>
             if bytes_eqb (cstr s) (cstr name_)
             then (store, false) else (Some (cstr name_), true)
         | None => (Some (cstr name_), true)
         end)
    (Some name_).
Proof.
  unfold holds_name. destruct store as [s|]; cbn [fst option_map].
  - destruct (bytes_eqb (cstr s) (cstr name_)) eqn:E; cbn [fst option_map].
    + assert (E' : cstr s = cstr name_).
      { revert E. generalize (cstr s) (cstr name_).
        induction l as [|x l IH]; intros [|y l']; cbn; try easy.
        intros H. apply andb_true_iff in H as [Hx Hl].
        apply byte_eqb_eq in Hx as ->. f_equal. now apply IH. }
      now rewrite E'.
    + now rewrite cstr_idem.
  - now rewrite cstr_idem.
Qed.

Section Element.

Variables (e : ConfigModel) (id_ name_ : list byte).
Hypothesis Hid : config_model_id e = Some id_.
Hypothesis Hname : config_model_name e = Some name_.
Hypothesis Hcontrol : config_model_control e <> 0.

Variable r : Registry.
Hypothesis Hwf : well_formed r.

(** The element is about a model that the registry has: its row gets
    the name and the data point. *)
Lemma refresh_model_found idx :
  housetuya_model_search (Some id_) r = Ok idx -> 0 <= idx ->
  exists m name' flag,
    Models r !! Z.to_nat idx = Some m
    /\ idx < ModelsCount r
    /\ refresh_model (Some e) r
       = Ok (mkRegistry
               (<[Z.to_nat idx :=
                    mkModel (model_id m) name' (config_model_control e)]>
                  (Models r))
               (ModelsCount r) flag)
    /\ holds_name name' (Some name_).
Proof.
  intros Hs Hidx.
  destruct (search_total id_ r Hwf) as (k & Hk & Hr).
  rewrite Hs in Hk. injection Hk as <-.
  destruct Hr as [->|Hr]; [lia|].
  destruct Hwf as [[H0 Hsp] _]. unfold ModelsSpace in Hsp.
  destruct (lookup_lt_is_Some_2 (Models r) (Z.to_nat idx) ltac:(lia))
    as [m Hm].
  unfold refresh_model. rewrite Hid, Hname.
  replace (config_model_control e =? 0) with false
    by (symmetry; now apply Z.eqb_neq).
  rewrite Hs. cbn [res_bind].
  replace (idx <? 0) with false by (symmetry; apply Z.ltb_ge; lia).
  cbn [res_bind]. rewrite (model_row_lookup r idx m Hidx Hm).
  cbn [res_bind].
  pose proof (renamed_holds (model_name m) name_) as Hh.
  destruct (match model_name m with Some _ => _ | None => _ end)
    as [name' changed1].
  cbn [fst] in Hh.
  exists m, name'. eexists. split; [exact Hm|]. split; [lia|].
  split; [reflexivity | exact Hh].
Qed.

(** The element is about a model that the registry does not have, and
    the array has a row left: the row gets the id, the name and the data
    point. *)
Lemma refresh_model_added :
  housetuya_model_search (Some id_) r = Ok (-1) ->
  ModelsCount r < ModelsSpace r ->
  exists name' flag,
    refresh_model (Some e) r
    = Ok (mkRegistry
            (<[Z.to_nat (ModelsCount r) :=
                 mkModel (Some (cstr id_)) name' (config_model_control e)]>
               (Models r))
            (ModelsCount r + 1) flag)
    /\ holds_name name' (Some name_).
Proof.
  intros Hs Hroom.
  destruct Hwf as [[H0 Hsp] _]. unfold ModelsSpace in Hsp, Hroom.
  destruct (lookup_lt_is_Some_2 (Models r) (Z.to_nat (ModelsCount r))
              ltac:(lia)) as [m0 Hm0].
  unfold refresh_model. rewrite Hid, Hname.
  replace (config_model_control e =? 0) with false
    by (symmetry; now apply Z.eqb_neq).
  rewrite Hs. cbn [res_bind]. change (-1 <? 0) with true. cbn iota.
  unfold housetuya_model_add.
  replace (ModelsCount r >=? ModelsSpace r) with false
    by (symmetry; rewrite Z.geb_leb; apply Z.leb_gt;
        unfold ModelsSpace; lia).
  rewrite (model_row_lookup r _ m0 H0 Hm0). cbn [res_bind].
  cbn [Models ModelsCount ModelListChanged].
  unfold model_row at 1.
  replace (ModelsCount r <? 0) with false by (symmetry; apply Z.ltb_ge; lia).
  cbn [Models].
  rewrite list_lookup_insert_eq by (now apply lookup_lt_Some in Hm0).
  cbn [res_bind model_name model_control model_id].
  pose proof (renamed_holds (model_name m0) name_) as Hh.
  destruct (match model_name m0 with Some _ => _ | None => _ end)
    as [name' changed1].
  cbn [fst] in Hh.
  exists name'. eexists. split; [|exact Hh].
  now rewrite list_insert_insert_eq.
Qed.

(** The element is about a model that the registry does not have, and
    the array is full. *)
Lemma refresh_model_full :
  housetuya_model_search (Some id_) r = Ok (-1) ->
  ModelsSpace r <= ModelsCount r ->
  refresh_model (Some e) r = Fault OutOfBounds.
Proof.
  intros Hs Hfull. unfold refresh_model. rewrite Hid, Hname.
  replace (config_model_control e =? 0) with false
    by (symmetry; now apply Z.eqb_neq).
  rewrite Hs. cbn [res_bind]. change (-1 <? 0) with true. cbn iota.
  unfold housetuya_model_add.
  now replace (ModelsCount r >=? ModelsSpace r) with true
    by (symmetry; rewrite Z.geb_leb; apply Z.leb_le; lia).
Qed.

End Element.

(** *** What a load does to the lookups *)

Lemma lookups_of_search y r k :
  housetuya_model_search (Some y) r = Ok k ->
  housetuya_model_get_control (Some y) r
  = (if k <? 0 then Ok 0 else do m <- model_row r k; Ok (model_control m))
  /\ housetuya_model_get_name (Some y) r
     = (if k <? 0 then Ok None else do m <- model_row r k; Ok (model_name m)).
Proof.
  intros H. unfold housetuya_model_get_control, housetuya_model_get_name.
  now rewrite H.
Qed.

Lemma strcasecmp_eq_both x y z :
  strcasecmp_eq x z = true -> strcasecmp_eq y z = true ->
  strcasecmp_eq x y = true.
Proof.
  intros Hx Hy. rewrite (strcasecmp_eq_same x z y Hx).
  now rewrite strcasecmp_eq_sym.
Qed.

(** The lookups after one element of the array: the ids that the element
    is about get its data point and its name, the others get what they
    got before. *)
Lemma refresh_model_lookup e r r1 :
  well_formed r ->
  refresh_model e r = Ok r1 ->
  well_formed r1
  /\ ModelsSpace r1 = ModelsSpace r
  /\ ModelsCount r <= ModelsCount r1
  /\ forall y,
       (describes_model e y = false ->
        housetuya_model_get_control (Some y) r1
        = housetuya_model_get_control (Some y) r
        /\ housetuya_model_get_name (Some y) r1
           = housetuya_model_get_name (Some y) r)
       /\ (describes_model e y = true ->
           forall e0, e = Some e0 ->
           housetuya_model_get_control (Some y) r1
           = Ok (config_model_control e0)
           /\ exists n,
                housetuya_model_get_name (Some y) r1 = Ok n
                /\ holds_name n (config_model_name e0)).
Proof.
  intros Hwf Hrun.
  assert (Hskip : r1 = r ->
            (forall y, describes_model e y = false) ->
            well_formed r1 /\ ModelsSpace r1 = ModelsSpace r
            /\ ModelsCount r <= ModelsCount r1
            /\ forall y,
                 (describes_model e y = false ->
                  housetuya_model_get_control (Some y) r1
                  = housetuya_model_get_control (Some y) r
                  /\ housetuya_model_get_name (Some y) r1
                     = housetuya_model_get_name (Some y) r)
                 /\ (describes_model e y = true ->
                     forall e0, e = Some e0 ->
                     housetuya_model_get_control (Some y) r1
                     = Ok (config_model_control e0)
                     /\ exists n,
                          housetuya_model_get_name (Some y) r1 = Ok n
                          /\ holds_name n (config_model_name e0))).
  { intros -> Hno. split; [exact Hwf|]. split; [reflexivity|].
    split; [lia|]. intros y. split; [auto|].
    intros Hy. rewrite Hno in Hy. discriminate. }
  destruct e as [e|]; [|apply Hskip; [now injection Hrun | reflexivity]].
  destruct (config_model_id e) as [id_|] eqn:Eid.
  2:{ apply Hskip.
      - revert Hrun. unfold refresh_model. rewrite Eid. now intros [= <-].
      - intros y. unfold describes_model, complete_model. now rewrite Eid. }
  destruct (config_model_name e) as [name_|] eqn:En.
  2:{ apply Hskip.
      - revert Hrun. unfold refresh_model. rewrite Eid, En. now intros [= <-].
      - intros y. unfold describes_model, complete_model. now rewrite Eid, En. }
  destruct (Z.eq_dec (config_model_control e) 0) as [Hz|Hnz].
  { apply Hskip.
    - revert Hrun. unfold refresh_model. rewrite Eid, En, Hz.
      now intros [= <-].
    - intros y. unfold describes_model, complete_model. now rewrite Eid, En, Hz. }
  clear Hskip.
  assert (Hdesc : forall y,
            describes_model (Some e) y = strcasecmp_eq (cstr y) (cstr id_)).
  { intros y. unfold describes_model, complete_model. rewrite Eid, En.
    now replace (config_model_control e =? 0) with false
      by (symmetry; now apply Z.eqb_neq). }
  destruct (search_total id_ r Hwf) as (idx & Hs & Hrange).
  pose proof Hwf as [[H0 Hsp] Hids].
  assert (Hspec := search_rows_spec id_ r _ 0 idx ltac:(lia) Hs).
  destruct Hrange as [->|Hrange].
  - (* the registry does not have the model *)
    destruct Hspec as [[_ Hnone]|[Hk _]]; [|lia].
    destruct (Z_lt_le_dec (ModelsCount r) (ModelsSpace r)) as [Hroom|Hfull].
    2:{ rewrite (refresh_model_full e id_ name_ Eid En Hnz r Hs Hfull)
          in Hrun. discriminate. }
    destruct (refresh_model_added e id_ name_ Eid En Hnz r Hwf Hs Hroom)
      as (name' & flag & Hr1 & Hholds).
    rewrite Hr1 in Hrun. injection Hrun as <-.
    set (new := mkModel (Some (cstr id_)) name' (config_model_control e)).
    set (r1 := mkRegistry _ _ _).
    assert (Hnewrow : Models r1 !! Z.to_nat (ModelsCount r) = Some new).
    { subst r1. cbn [Models]. apply list_lookup_insert_eq.
      unfold ModelsSpace in Hroom. lia. }
    assert (Hother : forall j, j <> Z.to_nat (ModelsCount r) ->
              Models r1 !! j = Models r !! j).
    { intros j Hj. subst r1. cbn [Models].
      now rewrite list_lookup_insert_ne by lia. }
    assert (Hsearch : forall y,
              housetuya_model_search (Some y) r1
              = match housetuya_model_search (Some y) r with
                | Ok k =>
                    if k =? -1
                    then (if strcasecmp_eq (cstr y) (cstr id_)
                          then Ok (ModelsCount r) else Ok (-1))
                    else Ok k
                | Fault f => Fault f
                end).
    { intros y. unfold housetuya_model_search.
      change (ModelsCount r1) with (ModelsCount r + 1).
      replace (Z.to_nat (ModelsCount r + 1))
        with (Z.to_nat (ModelsCount r) + 1)%nat by lia.
      rewrite search_rows_snoc.
      rewrite (search_rows_ids y r r1 _ 0 ltac:(lia)).
      2:{ intros j Hj. rewrite Hother by lia. reflexivity. }
      destruct (search_rows y r 0 _) as [k|]; [|reflexivity].
      destruct (k =? -1); [|reflexivity].
      cbn [search_rows]. rewrite Z2Nat.id, Z.add_0_l by lia.
      rewrite (model_row_lookup r1 _ new H0 Hnewrow). cbn [res_bind].
      subst new. cbn [model_id]. rewrite cstr_idem.
      now destruct (strcasecmp_eq (cstr y) (cstr id_)). }
    split; [|split; [|split]].
    + split; [|].
      * subst r1. unfold ModelsSpace. cbn [ModelsCount Models].
        rewrite length_insert. unfold ModelsSpace in Hroom. lia.
      * intros i m Hi Hm. change (ModelsCount r1) with (ModelsCount r + 1) in Hi.
        destruct (Nat.eq_dec i (Z.to_nat (ModelsCount r))) as [->|Hne].
        -- rewrite Hnewrow in Hm. injection Hm as <-. discriminate.
        -- rewrite Hother in Hm by exact Hne. apply (Hids i m); [lia|exact Hm].
    + subst r1. unfold ModelsSpace. cbn [Models]. now rewrite length_insert.
    + change (ModelsCount r1) with (ModelsCount r + 1). lia.
    + intros y. rewrite Hdesc.
      destruct (search_total y r Hwf) as (k & Hk & Hkr).
      pose proof (Hsearch y) as Hy. rewrite Hk in Hy.
      destruct (lookups_of_search y r k Hk) as [Hc Hn].
      split.
      * intros Hno. rewrite Hno in Hy.
        destruct Hkr as [->|Hkr].
        -- change (-1 =? -1) with true in Hy. cbn iota in Hy.
           destruct (lookups_of_search y r1 (-1) Hy) as [Hc1 Hn1].
           now rewrite Hc1, Hn1, Hc, Hn.
        -- replace (k =? -1) with false in Hy
             by (symmetry; apply Z.eqb_neq; lia).
           destruct (lookups_of_search y r1 k Hy) as [Hc1 Hn1].
           rewrite Hc1, Hn1, Hc, Hn.
           unfold model_row.
           rewrite Hother by lia. now split.
      * intros Hyes e0 [= <-]. rewrite Hyes in Hy.
        assert (Hk1 : k = -1).
        { destruct Hkr as [->|Hkr]; [reflexivity|]. exfalso.
          unfold housetuya_model_search in Hk.
          destruct (search_rows_spec y r _ 0 k ltac:(lia) Hk)
            as [[-> _]|[_ (m & mid & Hm & Hmid & Hmatch)]]; [lia|].
          pose proof (Hnone k m mid ltac:(lia) Hm Hmid) as Hn0.
          rewrite <- (strcasecmp_eq_same _ _ (cstr mid) Hyes) in Hn0.
          rewrite Hmatch in Hn0. discriminate. }
        subst k. change (-1 =? -1) with true in Hy. cbn iota in Hy.
        destruct (lookups_of_search y r1 _ Hy) as [Hc1 Hn1].
        rewrite Hc1, Hn1.
        replace (ModelsCount r <? 0) with false
          by (symmetry; apply Z.ltb_ge; lia).
        rewrite (model_row_lookup r1 _ new H0 Hnewrow). cbn [res_bind].
        split; [reflexivity|]. exists name'. split; [reflexivity|].
        now rewrite En.
  - (* the registry has the model *)
    unfold housetuya_model_search in Hs.
    destruct Hspec as [[-> _]|[_ (m0 & mid & Hm0 & Hmid & Hmatch)]]; [lia|].
    destruct (refresh_model_found e id_ name_ Eid En Hnz r Hwf idx Hs
                ltac:(lia)) as (m & name' & flag & Hm & _ & Hr1 & Hholds).
    rewrite Hm0 in Hm. injection Hm as <-.
    rewrite Hr1 in Hrun. injection Hrun as <-.
    set (new := mkModel (model_id m0) name' (config_model_control e)).
    set (r1 := mkRegistry _ _ _).
    assert (Hnewrow : Models r1 !! Z.to_nat idx = Some new).
    { subst r1. cbn [Models]. apply list_lookup_insert_eq.
      now apply lookup_lt_Some in Hm0. }
    assert (Hother : forall j, j <> Z.to_nat idx ->
              Models r1 !! j = Models r !! j).
    { intros j Hj. subst r1. cbn [Models].
      now rewrite list_lookup_insert_ne by lia. }
    assert (Hsearch : forall y,
              housetuya_model_search (Some y) r1
              = housetuya_model_search (Some y) r).
    { intros y. unfold housetuya_model_search.
      change (ModelsCount r1) with (ModelsCount r).
      apply search_rows_ids; [lia|]. intros j Hj.
      destruct (Nat.eq_dec (Z.to_nat j) (Z.to_nat idx)) as [E|Hne].
      - rewrite E, Hnewrow, Hm0. reflexivity.
      - now rewrite Hother. }
    split; [|split; [|split]].
    + split.
      { change (ModelsCount r1) with (ModelsCount r).
        split; [exact H0|]. unfold ModelsSpace in *. subst r1.
        cbn [Models]. rewrite length_insert. exact Hsp. }
      intros i m Hi Hm. change (ModelsCount r1) with (ModelsCount r) in Hi.
      destruct (Nat.eq_dec i (Z.to_nat idx)) as [->|Hne].
      * rewrite Hnewrow in Hm. injection Hm as <-. subst new.
        cbn [model_id]. rewrite Hmid. discriminate.
      * rewrite Hother in Hm by exact Hne. now apply (Hids i m).
    + subst r1. unfold ModelsSpace. cbn [Models]. now rewrite length_insert.
    + change (ModelsCount r1) with (ModelsCount r). lia.
    + intros y. rewrite Hdesc.
      destruct (search_total y r Hwf) as (k & Hk & Hkr).
      pose proof (Hsearch y) as Hy. rewrite Hk in Hy.
      destruct (lookups_of_search y r k Hk) as [Hc Hn].
      destruct (lookups_of_search y r1 k Hy) as [Hc1 Hn1].
      rewrite Hc1, Hn1, Hc, Hn.
      split.
      * intros Hno. destruct Hkr as [->|Hkr]; [now split|].
        replace (k <? 0) with false by (symmetry; apply Z.ltb_ge; lia).
        assert (Hne : Z.to_nat k <> Z.to_nat idx).
        { intros E. assert (k = idx) by lia. subst k.
          unfold housetuya_model_search in Hk.
          destruct (search_rows_spec y r _ 0 idx ltac:(lia) Hk)
            as [[-> _]|[_ (m & mid' & Hm & Hmid' & Hmatch')]]; [lia|].
          rewrite Hm0 in Hm. injection Hm as <-.
          rewrite Hmid in Hmid'. injection Hmid' as <-.
          rewrite (strcasecmp_eq_both _ _ _ Hmatch' Hmatch) in Hno.
          discriminate. }
        unfold model_row. rewrite Hother by exact Hne. now split.
      * intros Hyes e0 [= <-].
        assert (Hk1 : k = idx).
        { unfold housetuya_model_search in Hk.
          rewrite (search_rows_same y id_ r _ 0 Hyes), Hs in Hk.
          now injection Hk. }
        subst k.
        replace (idx <? 0) with false by (symmetry; apply Z.ltb_ge; lia).
        rewrite (model_row_lookup r1 idx new ltac:(lia) Hnewrow).
        cbn [res_bind]. split; [reflexivity|].
        exists name'. split; [reflexivity|]. now rewrite En.
Qed.

Lemma grown_lookup needed r :
  well_formed r ->
  well_formed (grown needed r)
  /\ ModelsCount (grown needed r) = ModelsCount r
  /\ forall y,
       housetuya_model_search (Some y) (grown needed r)
       = housetuya_model_search (Some y) r
       /\ housetuya_model_get_control (Some y) (grown needed r)
          = housetuya_model_get_control (Some y) r
       /\ housetuya_model_get_name (Some y) (grown needed r)
          = housetuya_model_get_name (Some y) r.
Proof.
  intros Hwf. unfold grown.
  destruct (needed >? ModelsSpace r) eqn:E.
  2:{ split; [exact Hwf|]. split; [reflexivity|]. now intros y. }
  pose proof Hwf as [[H0 Hsp] Hids]. unfold ModelsSpace in Hsp.
  set (r1 := mkRegistry _ _ _).
  assert (Hrows : forall j, (j < Z.to_nat (ModelsCount r))%nat ->
            Models r1 !! j = Models r !! j).
  { intros j Hj. subst r1. cbn [Models]. apply lookup_app_l. lia. }
  assert (Hwf1 : well_formed r1).
  { split.
    - subst r1. unfold ModelsSpace. cbn [ModelsCount Models].
      rewrite List.length_app. lia.
    - intros i m Hi Hm. change (ModelsCount r1) with (ModelsCount r) in Hi.
      rewrite Hrows in Hm by exact Hi. now apply (Hids i m). }
  split; [exact Hwf1|]. split; [reflexivity|].
  intros y.
  assert (Hs : housetuya_model_search (Some y) r1
               = housetuya_model_search (Some y) r).
  { unfold housetuya_model_search.
    change (ModelsCount r1) with (ModelsCount r).
    apply search_rows_ids; [lia|]. intros j Hj. rewrite Hrows by lia.
    reflexivity. }
  split; [exact Hs|].
  destruct (search_total y r Hwf) as (k & Hk & Hkr).
  rewrite Hk in Hs.
  destruct (lookups_of_search y r k Hk) as [Hc Hn].
  destruct (lookups_of_search y r1 k Hs) as [Hc1 Hn1].
  rewrite Hc1, Hn1, Hc, Hn.
  destruct Hkr as [->|Hkr]; [now split|].
  unfold model_row. rewrite Hrows by lia. now split.
Qed.

Lemma refresh_models_lookup es : forall r r',
  well_formed r ->
  refresh_models es r = Ok r' ->
  well_formed r'
  /\ forall y,
       match last_described es y with
       | Some e =>
           housetuya_model_get_control (Some y) r'
           = Ok (config_model_control e)
           /\ exists n,
                housetuya_model_get_name (Some y) r' = Ok n
                /\ holds_name n (config_model_name e)
       | None =>
           housetuya_model_get_control (Some y) r'
           = housetuya_model_get_control (Some y) r
           /\ housetuya_model_get_name (Some y) r'
              = housetuya_model_get_name (Some y) r
       end.
Proof.
  induction es as [|e es IH]; intros r r' Hwf; cbn [refresh_models].
  - intros [= <-]. split; [exact Hwf|]. now intros y.
  - destruct (refresh_model e r) as [r1|] eqn:H1; [|discriminate].
    cbn [res_bind]. intros Hrun.
    destruct (refresh_model_lookup e r r1 Hwf H1) as (Hwf1 & _ & _ & Hstep).
    destruct (IH r1 r' Hwf1 Hrun) as (Hwf' & Hrest).
    split; [exact Hwf'|]. intros y. cbn [last_described].
    specialize (Hrest y). specialize (Hstep y) as [Hno Hyes].
    destruct (last_described es y) as [e'|]; [exact Hrest|].
    destruct Hrest as [Hc Hn]. rewrite Hc, Hn.
    destruct e as [e0|].
    + destruct (describes_model (Some e0) y) eqn:Hd.
      * exact (Hyes eq_refl e0 eq_refl).
      * exact (Hno eq_refl).
    + exact (Hno eq_refl).
Qed.

(** X27. After [housetuya_model_refresh] has loaded the models array of
    an active configuration, the lookups are those of the array: an id
    gets the data point and the name of the last element that is about it
    (an element with an id, a name and a data point that is not 0, its id
    compared without case), and an id that no element is about gets what
    it got before the load. *)
Theorem housetuya_model_refresh_lookup es r r' :
  well_formed r ->
  housetuya_model_refresh (mkModelConfig true (Some es)) r = Ok (None, r') ->
  well_formed r'
  /\ forall y,
       match last_described es y with
       | Some e =>
           housetuya_model_get_control (Some y) r'
           = Ok (config_model_control e)
           /\ exists n,
                housetuya_model_get_name (Some y) r' = Ok n
                /\ holds_name n (config_model_name e)
       | None =>
           housetuya_model_get_control (Some y) r'
           = housetuya_model_get_control (Some y) r
           /\ housetuya_model_get_name (Some y) r'
              = housetuya_model_get_name (Some y) r
       end.
Proof.
  intros Hwf. unfold housetuya_model_refresh.
  cbn [models_active models_array].
  destruct (grown_lookup (Z.of_nat (length es) + 16) r Hwf)
    as (Hwfg & _ & Hg).
  destruct (refresh_models es _) as [r1|] eqn:Hrun; [|discriminate].
  cbn [res_bind]. intros [= <-].
  destruct (refresh_models_lookup es _ r1 Hwfg Hrun) as (Hwf1 & Hl).
  split; [exact Hwf1|]. intros y. specialize (Hl y).
  destruct (last_described es y); [exact Hl|].
  destruct (Hg y) as (_ & Hc & Hn). now rewrite <- Hc, <- Hn.
Qed.

Lemma no_models_well_formed : well_formed no_models.
Proof.
  split; [unfold ModelsSpace, no_models; cbn; lia|].
  intros i m Hi Hm. discriminate.
Qed.

Lemma housetuya_model_refresh_lookup_witness :
  well_formed example_registry
  /\ forall y,
       match last_described (example_models "a" 2) y with
       | Some e =>
           housetuya_model_get_control (Some y) example_registry
           = Ok (config_model_control e)
           /\ exists n,
                housetuya_model_get_name (Some y) example_registry = Ok n
                /\ holds_name n (config_model_name e)
       | None =>
           housetuya_model_get_control (Some y) example_registry
           = housetuya_model_get_control (Some y) no_models
           /\ housetuya_model_get_name (Some y) example_registry
              = housetuya_model_get_name (Some y) no_models
       end.
Proof.
  apply (housetuya_model_refresh_lookup (example_models "a" 2) no_models
           example_registry).
  - exact no_models_well_formed.
  - vm_compute. reflexivity.
Defined.

(** *** A full array *)

Lemma refresh_model_when_full e r r1 :
  well_formed r ->
  ModelsCount r = ModelsSpace r ->
  refresh_model e r = Ok r1 ->
  well_formed r1 /\ ModelsCount r1 = ModelsSpace r1
  /\ forall y,
       housetuya_model_search (Some y) r1 = housetuya_model_search (Some y) r.
Proof.
  intros Hwf Hfull Hrun.
  destruct (refresh_model_lookup e r r1 Hwf Hrun) as (Hwf1 & Hsp & Hcnt & _).
  split; [exact Hwf1|].
  assert (Hfull1 : ModelsCount r1 = ModelsSpace r1).
  { destruct Hwf1 as [[_ H] _]. lia. }
  split; [exact Hfull1|].
  assert (Hskip : r1 = r ->
            forall y, housetuya_model_search (Some y) r1
                      = housetuya_model_search (Some y) r)
    by (now intros ->).
  destruct e as [e|]; [|apply Hskip; now injection Hrun].
  revert Hrun. unfold refresh_model.
  destruct (config_model_id e) as [id_|] eqn:Eid;
    [|intros [= <-]; now apply Hskip].
  destruct (config_model_name e) as [name_|] eqn:En;
    [|intros [= <-]; now apply Hskip].
  destruct (Z.eq_dec (config_model_control e) 0) as [Hz|Hnz].
  { rewrite Hz. intros [= <-]. now apply Hskip. }
  intros Hrun.
  assert (Hrun' : refresh_model (Some e) r = Ok r1).
  { unfold refresh_model. rewrite Eid, En. exact Hrun. }
  clear Hrun Hskip.
  destruct (search_total id_ r Hwf) as (idx & Hs & Hrange).
  destruct Hrange as [->|Hrange].
  { rewrite (refresh_model_full e id_ name_ Eid En Hnz r Hs ltac:(lia))
      in Hrun'. discriminate. }
  destruct (refresh_model_found e id_ name_ Eid En Hnz r Hwf idx Hs
              ltac:(lia)) as (m & name' & flag & Hm & _ & Hr1 & _).
  rewrite Hr1 in Hrun'. injection Hrun' as <-.
  intros y. unfold housetuya_model_search. cbn [ModelsCount].
  apply search_rows_ids; [lia|]. intros j Hj. cbn [Models].
  destruct (Nat.eq_dec (Z.to_nat j) (Z.to_nat idx)) as [E|Hne].
  - rewrite E, list_lookup_insert_eq by (now apply lookup_lt_Some in Hm).
    now rewrite Hm.
  - now rewrite list_lookup_insert_ne by lia.
Qed.

Lemma refresh_model_fault e r f :
  well_formed r -> refresh_model e r = Fault f -> f = OutOfBounds.
Proof.
  intros Hwf. unfold refresh_model.
  destruct e as [e|]; [|discriminate].
  destruct (config_model_id e) as [id_|]; [|discriminate].
  destruct (config_model_name e) as [name_|]; [|discriminate].
  destruct (_ =? 0); [discriminate|].
  destruct (search_total id_ r Hwf) as (idx & -> & _). cbn [res_bind].
  unfold housetuya_model_add, model_row. intros H.
  repeat match type of H with
         | Ok _ = Fault _ => discriminate H
         | context [match ?x with _ => _ end] =>
             destruct x; cbn [res_bind] in H
         end.
  all: congruence.
Qed.

Lemma refresh_models_overflow e id_ es : forall r,
  well_formed r ->
  ModelsCount r = ModelsSpace r ->
  In (Some e) es ->
  complete_model e = true ->
  config_model_id e = Some id_ ->
  unregistered id_ r ->
  refresh_models es r = Fault OutOfBounds.
Proof.
  induction es as [|e' es IH]; intros r Hwf Hfull Hin Hc Hid Hun;
    [contradiction|].
  cbn [refresh_models].
  destruct (refresh_model e' r) as [r1|f] eqn:H1.
  - cbn [res_bind].
    destruct (refresh_model_when_full e' r r1 Hwf Hfull H1)
      as (Hwf1 & Hfull1 & Hs).
    destruct Hin as [->|Hin].
    + exfalso. unfold complete_model in Hc.
      destruct (config_model_name e) as [name_|] eqn:En;
        [|rewrite Hid in Hc; discriminate].
      rewrite Hid in Hc. apply negb_true_iff, Z.eqb_neq in Hc.
      rewrite (refresh_model_full e id_ name_ Hid En Hc r Hun ltac:(lia))
        in H1. discriminate.
    + apply (IH r1 Hwf1 Hfull1 Hin Hc Hid).
      unfold unregistered. now rewrite Hs.
  - cbn [res_bind]. now rewrite (refresh_model_fault e' r f Hwf H1).
Qed.

(** X28. When the array of the registry is full ([ModelsCount] has
    reached [ModelsSpace]) and large enough for the load not to
    reallocate it, a configuration that lists a model that the registry
    does not have makes [housetuya_model_refresh] write outside the
    array: [housetuya_model_add] reallocates it and then clears 16 rows
    from the end of the new array on. *)
Theorem housetuya_model_refresh_overflow es r e id_ :
  well_formed r ->
  ModelsCount r = ModelsSpace r ->
  Z.of_nat (length es) + 16 <= ModelsSpace r ->
  In (Some e) es ->
  complete_model e = true ->
  config_model_id e = Some id_ ->
  unregistered id_ r ->
  housetuya_model_refresh (mkModelConfig true (Some es)) r
  = Fault OutOfBounds.
Proof.
  intros Hwf Hfull Hroom Hin Hc Hid Hun.
  unfold housetuya_model_refresh. cbn [models_active models_array].
  unfold grown.
  replace (_ >? _) with false
    by (symmetry; rewrite Z.gtb_ltb; apply Z.ltb_ge; lia).
  now rewrite (refresh_models_overflow e id_ es r Hwf Hfull Hin Hc Hid Hun).
Qed.

Lemma refresh_well_formed es r t r' :
  well_formed r ->
  housetuya_model_refresh (mkModelConfig true (Some es)) r = Ok (t, r') ->
  well_formed r'.
Proof.
  intros Hwf. unfold housetuya_model_refresh.
  cbn [models_active models_array].
  destruct (grown_lookup (Z.of_nat (length es) + 16) r Hwf) as (Hwfg & _).
  destruct (refresh_models es _) as [r1|] eqn:Hrun; [|discriminate].
  cbn [res_bind]. intros [= _ <-].
  now destruct (refresh_models_lookup es _ r1 Hwfg Hrun).
Qed.

Lemma full_registry_well_formed : well_formed full_registry.
Proof.
  apply (refresh_well_formed (example_models "b" 16)
           match housetuya_model_refresh
                   (mkModelConfig true (Some (example_models "a" 17)))
                   no_models with
           | Ok (_, r) => r
           | Fault _ => no_models
           end None full_registry).
  - apply (refresh_well_formed (example_models "a" 17) no_models None).
    + exact no_models_well_formed.
    + vm_compute. reflexivity.
  - vm_compute. reflexivity.
Qed.

Lemma housetuya_model_refresh_overflow_witness :
  housetuya_model_refresh
    (mkModelConfig true (Some (example_models "c" 1))) full_registry
  = Fault OutOfBounds.
Proof.
  apply (housetuya_model_refresh_overflow (example_models "c" 1)
           full_registry
           (mkConfigModel (Some (chars "c" ++ Messages.decimal 0))
              (Some (chars "plug")) 1)
           (chars "c" ++ Messages.decimal 0)).
  - exact full_registry_well_formed.
  - reflexivity.
  - vm_compute. discriminate.
  - left. reflexivity.
  - reflexivity.
  - reflexivity.
  - vm_compute. reflexivity.
Defined.

End ModelFacts.
